(** * Bookati capacity reservation engine: a shallow embedding

    The development follows [server/src/routes/bookings.ts] (phone
    normalisation, lock release, booking creation, QR check-in) and
    [server/src/jobs/cleanupLocks.ts] (the expired-lock sweep and the Zoho
    receipt worker with its exponential backoff).

    PostgreSQL tables are lists of rows; a handler is a computation over a
    database session that can return early with an HTTP response or throw. *)

From Stdlib Require Import ZArith NArith List Bool String Ascii Lia Permutation
  Sorted.
Import ListNotations.

Local Open Scope Z_scope.

(* ================================================================== *)
(** * JavaScript strings as sequences of UTF-16 code units *)
(* ================================================================== *)

Module JsString.

(** A JS string is a sequence of 16-bit code units; [length] counts code
    units, exactly as [String.prototype.length]. *)
Definition jsstring := list N.

(** ASCII literal to code units. *)
Fixpoint str (s : string) : jsstring :=
  match s with
  | EmptyString => []
  | String a rest => N_of_ascii a :: str rest
  end.

Fixpoint startsWith (s prefix : jsstring) {struct prefix} : bool :=
  match prefix, s with
  | [], _ => true
  | p :: ps, c :: cs => N.eqb c p && startsWith cs ps
  | _ :: _, [] => false
  end.

(** [s.substring(n)] for [0 <= n]: drops [n] code units (and yields the
    empty string when [n] exceeds the length). *)
Definition substring (s : jsstring) (n : nat) : jsstring := skipn n s.

(** The class [\s] of an ECMAScript regular expression (WhiteSpace and
    LineTerminator code points). *)
Definition is_regex_space (c : N) : bool :=
  ((9 <=? c) && (c <=? 13) || (c =? 32) || (c =? 160) || (c =? 5760)
   || (8192 <=? c) && (c <=? 8202) || (c =? 8232) || (c =? 8233)
   || (c =? 8239) || (c =? 8287) || (c =? 12288) || (c =? 65279))%N.

(** The character class [[\s\-\(\)]]. *)
Definition is_separator (c : N) : bool :=
  (is_regex_space c || (c =? 45) || (c =? 40) || (c =? 41))%N.

(** [s.replace(/[\s\-\(\)]/g, '')] *)
Definition strip_separators (s : jsstring) : jsstring :=
  filter (fun c => negb (is_separator c)) s.

(** No code unit of [s] would be removed by [strip_separators]. *)
Definition Clean (s : jsstring) : Prop :=
  forallb (fun c => negb (is_separator c)) s = true.

End JsString.
Import JsString.

(* ================================================================== *)
(** * Phone normalisation ([normalizePhoneNumber], bookings.ts) *)
(* ================================================================== *)

(** [w.startsWith('1') || w.startsWith('2') || w.startsWith('5')] *)
Definition isEgyptMobile (withoutZero : jsstring) : bool :=
  startsWith withoutZero (str "1") || startsWith withoutZero (str "2")
  || startsWith withoutZero (str "5").

(** The block the source repeats after each Egyptian country-code test:
<<
  if (afterCode.startsWith('0') && afterCode.length >= 10) {
    const withoutZero = afterCode.substring(1);
    if (withoutZero.startsWith('1') || ... ) return `+20${withoutZero}`;
  }
>>
    [Some withoutZero] when the inner [return] fires, [None] when control
    falls through. *)
Definition egyptTrunk (afterCode : jsstring) : option jsstring :=
  if startsWith afterCode (str "0") && (10 <=? List.length afterCode)%nat then
    let withoutZero := substring afterCode 1 in
    if isEgyptMobile withoutZero then Some withoutZero else None
  else None.

(** Body of [normalizePhoneNumber] from the point where [cleaned] has been
    computed. *)
Definition normalizeCleaned (cleaned : jsstring) : option jsstring :=
  if startsWith cleaned (str "+") then
    if startsWith cleaned (str "+20") then
      match egyptTrunk (substring cleaned 3) with
      | Some withoutZero => Some (str "+20" ++ withoutZero)
      | None => Some cleaned
      end
    else Some cleaned
  else if startsWith cleaned (str "00") then
    let cleaned' := str "+" ++ substring cleaned 2 in
    match (if startsWith cleaned' (str "+20")
           then egyptTrunk (substring cleaned' 3) else None) with
    | Some withoutZero => Some (str "+20" ++ withoutZero)
    | None => Some cleaned'
    end
  else
    match (if startsWith cleaned (str "0") && (List.length cleaned =? 11)%nat
           then (let withoutZero := substring cleaned 1 in
                 if isEgyptMobile withoutZero then Some withoutZero else None)
           else None) with
    | Some withoutZero => Some (str "+20" ++ withoutZero)
    | None =>
      if startsWith cleaned (str "20") && (12 <=? List.length cleaned)%nat then
        match egyptTrunk (substring cleaned 2) with
        | Some withoutZero => Some (str "+20" ++ withoutZero)
        | None => Some (str "+" ++ cleaned)
        end
      else if (List.length cleaned =? 10)%nat && isEgyptMobile cleaned then
        Some (str "+20" ++ cleaned)
      else None
    end.

(** [normalizePhoneNumber(phone: string): string | null].  The argument is a
    string; [!phone] is then the emptiness test. *)
Definition normalizePhoneNumber (phone : jsstring) : option jsstring :=
  match phone with
  | [] => None
  | _ => normalizeCleaned (strip_separators phone)
  end.

(* ================================================================== *)
(** * Exponential backoff ([calculateDelay], zohoReceiptWorker) *)
(* ================================================================== *)

Definition MAX_RETRIES : N := 3.
Definition INITIAL_DELAY : Z := 1000.
Definition MAX_DELAY : Z := 60000.

(** [Math.min(INITIAL_DELAY * Math.pow(2, attempt), MAX_DELAY)] for an
    attempt counter that is a natural number.  On such arguments the
    double-precision product is either exact or [Infinity], and in both
    cases the minimum agrees with the integer one. *)
Definition calculateDelay (attempt : N) : Z :=
  Z.min (INITIAL_DELAY * 2 ^ Z.of_N attempt) MAX_DELAY.

(** The delay formula in the words of the specification:
    [min(initial_delay * 2^attempts, max_delay)]. *)
Definition spec_delay (initial_delay max_delay : Z) (attempts : N) : Z :=
  Z.min (initial_delay * 2 ^ Z.of_N attempts) max_delay.


(* ================================================================== *)
(** * The database: PostgreSQL tables as lists of rows *)
(* ================================================================== *)

Definition uuid := string.
(** Timestamps in milliseconds. *)
Definition timestamp := Z.

(** [tenants] (columns read by the booking routes). *)
Record Tenant := mkTenant {
  tenant_id : uuid;
  tenant_is_active : bool
}.

(** [users] *)
Record User := mkUser {
  user_id : uuid;
  user_role : string;
  user_tenant_id : option uuid
}.

(** [services] *)
Record Service := mkService {
  service_id : uuid;
  service_name : string
}.

(** [service_offers] *)
Record ServiceOffer := mkServiceOffer {
  offer_id : uuid;
  offer_service_id : uuid;
  offer_is_active : bool
}.

(** [slots] *)
Record Slot := mkSlot {
  slot_id : uuid;
  total_capacity : Z;
  remaining_capacity : Z;
  available_capacity : Z;
  booked_count : Z;
  is_available : bool
}.

(** [booking_locks] *)
Record BookingLock := mkBookingLock {
  lock_id : uuid;
  lock_slot_id : uuid;
  reserved_by_session_id : string;
  reserved_capacity : Z;
  lock_acquired_at : timestamp;
  lock_expires_at : timestamp
}.

(** [bookings] *)
Record Booking := mkBooking {
  booking_id : uuid;
  booking_tenant_id : uuid;
  booking_service_id : uuid;
  booking_slot_id : uuid;
  employee_id : option uuid;
  customer_id : option uuid;
  customer_name : string;
  customer_phone : jsstring;
  customer_email : option string;
  visitor_count : Z;
  adult_count : Z;
  child_count : Z;
  total_price : Z;
  notes : option string;
  status : string;
  payment_status : string;
  booking_offer_id : option uuid;
  language : string;
  qr_scanned : bool;
  qr_scanned_at : option timestamp;
  qr_scanned_by_user_id : option uuid;
  checked_in_at : option timestamp;
  checked_in_by_user_id : option uuid;
  zoho_invoice_id : option string
}.

(** [queue_jobs]; the JSON payload is [{booking_id, tenant_id, attempt}]. *)
Record QueueJob := mkQueueJob {
  job_id : uuid;
  job_type : string;
  job_status : string;
  payload_booking_id : uuid;
  payload_tenant_id : uuid;
  payload_attempt : N;
  attempts : N;
  created_at : timestamp;
  started_at : option timestamp;
  completed_at : option timestamp
}.

Record DB := mkDB {
  tenants : list Tenant;
  users : list User;
  services : list Service;
  service_offers : list ServiceOffer;
  slots : list Slot;
  booking_locks : list BookingLock;
  bookings : list Booking;
  queue_jobs : list QueueJob
}.

Definition set_booking_locks (d : DB) (l : list BookingLock) : DB :=
  mkDB (tenants d) (users d) (services d) (service_offers d) (slots d)
       l (bookings d) (queue_jobs d).

Definition set_bookings (d : DB) (l : list Booking) : DB :=
  mkDB (tenants d) (users d) (services d) (service_offers d) (slots d)
       (booking_locks d) l (queue_jobs d).

Definition set_queue_jobs (d : DB) (l : list QueueJob) : DB :=
  mkDB (tenants d) (users d) (services d) (service_offers d) (slots d)
       (booking_locks d) (bookings d) l.

(* ================================================================== *)
(** * Handlers as computations over a database session *)
(* ================================================================== *)

(** HTTP replies of the booking routes, one constructor per
    [res.status(..).json(..)] site. *)
Inductive Reply :=
| MissingRequiredFields            (* 400 'Missing required fields' *)
| InvalidPhoneFormat               (* 400 'Invalid phone number format' *)
| TenantNotFound                   (* 404 'Service provider not found' *)
| TenantDeactivated                (* 403 *)
| SessionIdRequiredForLock         (* 400 'session_id required when using lock' *)
| LockExpiredOrInvalid             (* 409 'Booking lock expired or invalid...' *)
| SessionMismatch                  (* 403 'Lock belongs to different session' *)
| SlotMismatch                     (* 400 'Lock does not match slot' *)
| QuantityMismatch                 (* 400 'Lock quantity does not match...' *)
| SlotNotFound                     (* 404 'Slot not found' *)
| SlotNotAvailable                 (* 409 'Slot is not available' *)
| InsufficientCapacity (available requested : Z) (* 409 'Not enough tickets...' *)
| OfferNotFound                    (* 404 'Service offer not found or inactive' *)
| OfferWrongService                (* 400 'Offer does not belong to selected service' *)
| HeadCountMismatch                (* 400 'visitor_count (..) must equal ...' *)
| Created (booking : Booking)      (* 201 { booking } *)
| SessionIdRequired                (* 400 'session_id required' *)
| LockNotFound                     (* 404 'Lock not found or does not belong to session' *)
| LockReleased                     (* 200 'Lock released successfully' *)
| BookingIdRequired                (* 400 'Booking ID is required' *)
| AuthenticationRequired           (* 401 *)
| UserNotFound                     (* 404 *)
| RoleForbidden                    (* 403 'Only cashiers, receptionists, and admins...' *)
| BookingNotFound                  (* 404 *)
| WrongTenant                      (* 403 'Booking does not belong to your tenant' *)
| AlreadyScanned (booking : Booking) (* 409 'QR code has already been scanned' *)
| QrValidated (booking : Booking)  (* 200 success *)
| InternalError.                   (* 500 *)

(** The HTTP status of each reply. *)
Definition status_code (r : Reply) : Z :=
  match r with
  | MissingRequiredFields | InvalidPhoneFormat | SessionIdRequiredForLock
  | SlotMismatch | QuantityMismatch | OfferWrongService | HeadCountMismatch
  | SessionIdRequired | BookingIdRequired => 400
  | AuthenticationRequired => 401
  | TenantDeactivated | SessionMismatch | RoleForbidden | WrongTenant => 403
  | TenantNotFound | SlotNotFound | OfferNotFound | LockNotFound
  | UserNotFound | BookingNotFound => 404
  | LockExpiredOrInvalid | SlotNotAvailable | InsufficientCapacity _ _
  | AlreadyScanned _ => 409
  | Created _ => 201
  | LockReleased | QrValidated _ => 200
  | InternalError => 500
  end.

(** Work handed to [process.nextTick] by the create route, external calls of
    the receipt worker, and its log lines. *)
Inductive Effect :=
| NextTickInvoice (booking : uuid)          (* zohoService.generateReceipt, deferred *)
| NextTickTicket (booking : uuid)           (* ticket PDF by WhatsApp / e-mail *)
| ReceiptCall (job booking : uuid)          (* zohoService.generateReceipt(booking_id) *)
| RetryScheduled (job : uuid) (nextAttempt : N) (delay : Z)
| JobGaveUp (job : uuid).

(** A session on the database.  [visible] is the committed state every
    other connection reads; [tx] is the private working copy of an open
    transaction.  [faults] says, statement by statement, whether the next
    statement sent to the server throws ([true]); an exhausted list means
    no further failures. *)
Record Session := mkSession {
  visible : DB;
  tx : option DB;
  faults : list bool;
  effects : list Effect
}.

Inductive Outcome (A : Type) :=
| Val (a : A)                (* normal completion *)
| Ret (r : Reply)            (* [return res.status(..).json(..)] *)
| Throw.                     (* an exception is propagating *)
Arguments Val {A} a.
Arguments Ret {A} r.
Arguments Throw {A}.

Definition M (A : Type) : Type := Session -> Outcome A * Session.

Definition ret {A} (a : A) : M A := fun s => (Val a, s).

Definition bind {A B} (m : M A) (k : A -> M B) : M B :=
  fun s =>
    match m s with
    | (Val a, s') => k a s'
    | (Ret r, s') => (Ret r, s')
    | (Throw, s') => (Throw, s')
    end.

Declare Scope handler_scope.
Delimit Scope handler_scope with handler.
Notation "x <- m ;; k" := (bind m (fun x => k))
  (at level 61, m at next level, right associativity) : handler_scope.
Notation "m ;; k" := (bind m (fun _ => k))
  (at level 61, right associativity) : handler_scope.
Local Open Scope handler_scope.

(** [return res.status(c).json(body)] *)
Definition respond {A} (r : Reply) : M A := fun s => (Ret r, s).

(** [throw new Error(..)] *)
Definition throw {A} : M A := fun s => (Throw, s).

(** [try { body } catch (error) { handler }] *)
Definition try_catch {A} (body handler : M A) : M A :=
  fun s =>
    match body s with
    | (Throw, s') => handler s'
    | r => r
    end.

(** Record an effect: a [process.nextTick], an external call, a log line. *)
Definition emit (e : Effect) : M unit :=
  fun s => (Val tt, mkSession (visible s) (tx s) (faults s) (effects s ++ [e])).

(** The database a statement of this session reads and writes. *)
Definition current (s : Session) : DB :=
  match tx s with Some d => d | None => visible s end.

Definition with_current (s : Session) (fs : list bool) (d : DB) : Session :=
  match tx s with
  | Some _ => mkSession (visible s) (Some d) fs (effects s)
  | None => mkSession d None fs (effects s)
  end.

(** One SQL statement.  [run] gives its result rows and the updated tables,
    or [None] when the server rejects it (constraint violation).  A
    statement that throws changes nothing. *)
Definition statement {A} (run : DB -> option (A * DB)) : M A :=
  fun s =>
    match faults s with
    | true :: fs => (Throw, mkSession (visible s) (tx s) fs (effects s))
    | fs0 =>
      let fs := tl fs0 in
      match run (current s) with
      | Some (a, d) => (Val a, with_current s fs d)
      | None => (Throw, mkSession (visible s) (tx s) fs (effects s))
      end
    end.

(** A [SELECT]. *)
Definition select {A} (q : DB -> A) : M A :=
  statement (fun d => Some (q d, d)).

(** Transaction control: one statement each, so each can throw. *)
Definition control (f : Session -> Session) : M unit :=
  fun s =>
    match faults s with
    | true :: fs => (Throw, mkSession (visible s) (tx s) fs (effects s))
    | fs0 =>
      let s' := f s in
      (Val tt, mkSession (visible s') (tx s') (tl fs0) (effects s'))
    end.

Definition BEGIN : M unit :=
  control (fun s => mkSession (visible s) (Some (current s)) (faults s) (effects s)).

Definition COMMIT : M unit :=
  control (fun s => mkSession (current s) None (faults s) (effects s)).

Definition ROLLBACK : M unit :=
  control (fun s => mkSession (visible s) None (faults s) (effects s)).

(** What the caller of an async Express handler observes. *)
Inductive HandlerResult :=
| Responded (r : Reply)
| Unhandled.                   (* the handler's promise rejected, or no reply *)

Definition run_handler (h : M unit) (s : Session) : HandlerResult * Session :=
  match h s with
  | (Ret r, s') => (Responded r, s')
  | (_, s') => (Unhandled, s')
  end.

(** JavaScript truthiness of a string-valued property that may be absent:
    [undefined], [null] and [''] are falsy. *)
Definition truthy (o : option string) : bool :=
  match o with
  | Some s => negb (s =? "")%string
  | None => false
  end.

(** [a || b] on optional strings. *)
Definition js_or (a b : option string) : option string :=
  if truthy a then a else b.

(** [a || null] *)
Definition or_null (a : option string) : option string :=
  if truthy a then a else None.

(** The same for a value held as code units. *)
Definition truthy_js (o : option jsstring) : bool :=
  match o with
  | Some (_ :: _) => true
  | _ => false
  end.

(** The string behind a value already known to be truthy. *)
Definition string_of (o : option string) : string :=
  match o with Some s => s | None => ""%string end.

(** [if (cond) { ...; return ...; }] followed by the rest of the body. *)
Definition when (cond : bool) (m : M unit) : M unit :=
  if cond then m else ret tt.

(* ================================================================== *)
(** * Releasing a lock ([POST /lock/:lock_id/release]) *)
(* ================================================================== *)

(** [DELETE FROM booking_locks WHERE id = $1 AND reserved_by_session_id = $2
     RETURNING id] *)
Definition owned_by (lock session : string) (l : BookingLock) : bool :=
  ((lock_id l =? lock) && (reserved_by_session_id l =? session))%string.

Definition delete_owned_lock (lock session : string) (d : DB)
  : option (list uuid * DB) :=
  Some (map lock_id (filter (owned_by lock session) (booking_locks d)),
        set_booking_locks d
          (filter (fun l => negb (owned_by lock session l)) (booking_locks d))).

(** [req_user] is [req.user?.id]; [lock] is the path parameter;
    [body_session_id] is [req.body.session_id]. *)
Definition releaseLock (req_user : option uuid) (lock : uuid)
           (body_session_id : option string) : M unit :=
  try_catch
    (let sessionId := js_or req_user body_session_id in
     when (negb (truthy sessionId)) (respond SessionIdRequired) ;;
     rows <- statement (delete_owned_lock lock (string_of sessionId)) ;;
     when (List.length rows =? 0)%nat (respond LockNotFound) ;;
     respond LockReleased)
    (respond InternalError).

(* ================================================================== *)
(** * The expired-lock sweep ([cleanupExpiredLocks]) *)
(* ================================================================== *)

(** [lock_expires_at <= NOW()] *)
Definition expired (now : timestamp) (l : BookingLock) : bool :=
  lock_expires_at l <=? now.

(** [DELETE FROM booking_locks WHERE lock_expires_at <= NOW()
     RETURNING id, slot_id, reserved_by_session_id] *)
Definition delete_expired_locks (now : timestamp) (d : DB)
  : option (list BookingLock * DB) :=
  Some (filter (expired now) (booking_locks d),
        set_booking_locks d
          (filter (fun l => negb (expired now l)) (booking_locks d))).

(** The body only logs: the count when rows were deleted, the error when
    the statement threw. *)
Definition cleanupExpiredLocks (now : timestamp) : M unit :=
  try_catch
    (_ <- statement (delete_expired_locks now) ;; ret tt)
    (ret tt).

(* ================================================================== *)
(** * Creating a booking ([POST /create]) *)
(* ================================================================== *)

(** [req.body] of the create route. [None] is an absent property. *)
Record CreateBody := mkCreateBody {
  body_slot_id : option uuid;
  body_service_id : option uuid;
  body_tenant_id : option uuid;
  body_customer_name : option string;
  body_customer_phone : option jsstring;
  body_customer_email : option string;
  body_visitor_count : option Z;
  body_adult_count : option Z;
  body_child_count : option Z;
  body_total_price : option Z;
  body_notes : option string;
  body_employee_id : option uuid;
  body_lock_id : option uuid;
  body_session_id : option string;
  body_offer_id : option uuid;
  body_language : option string
}.

(** [visitor_count = 1] in the destructuring pattern. *)
Definition req_visitor_count (b : CreateBody) : Z :=
  match body_visitor_count b with Some n => n | None => 1 end.

(** [(language === 'ar' || language === 'en') ? language : 'en'] with the
    default ['en']. *)
Definition validLanguage (b : CreateBody) : string :=
  match body_language b with
  | Some l => if ((l =? "ar") || (l =? "en"))%string then l else "en"%string
  | None => "en"%string
  end.

Definition finalAdultCount (b : CreateBody) : Z :=
  match body_adult_count b with Some n => n | None => req_visitor_count b end.

Definition finalChildCount (b : CreateBody) : Z :=
  match body_child_count b with Some n => n | None => 0 end.

(** The row of the [INSERT INTO bookings ... RETURNING *]; columns the
    statement does not list take their defaults. *)
Definition new_booking (req_user : option uuid) (b : CreateBody)
           (normalizedPhone : jsstring) (price : Z) (new_id : uuid) : Booking :=
  {| booking_id := new_id;
     booking_tenant_id := string_of (body_tenant_id b);
     booking_service_id := string_of (body_service_id b);
     booking_slot_id := string_of (body_slot_id b);
     employee_id := or_null (body_employee_id b);
     customer_id := or_null req_user;
     customer_name := string_of (body_customer_name b);
     customer_phone := normalizedPhone;
     customer_email := or_null (body_customer_email b);
     visitor_count := req_visitor_count b;
     adult_count := finalAdultCount b;
     child_count := finalChildCount b;
     total_price := price;
     notes := or_null (body_notes b);
     status := "confirmed";
     payment_status := "unpaid";
     booking_offer_id := or_null (body_offer_id b);
     language := validLanguage b;
     qr_scanned := false;
     qr_scanned_at := None;
     qr_scanned_by_user_id := None;
     checked_in_at := None;
     checked_in_by_user_id := None;
     zoho_invoice_id := None |}.

(** The [INSERT]; the server rejects rows violating the column constraints
    of [bookings]: [visitor_count > 0], [adult_count >= 0],
    [child_count >= 0], [total_price NOT NULL CHECK (total_price >= 0)]. *)
Definition insert_booking (req_user : option uuid) (b : CreateBody)
           (normalizedPhone : jsstring) (new_id : uuid) (d : DB)
  : option (list Booking * DB) :=
  match body_total_price b with
  | None => None
  | Some price =>
    let row := new_booking req_user b normalizedPhone price new_id in
    if (0 <? visitor_count row) && (0 <=? adult_count row)
       && (0 <=? child_count row) && (0 <=? price)
    then Some ([row], set_bookings d (bookings d ++ [row]))
    else None
  end.

(** [DELETE FROM booking_locks WHERE id = $1] *)
Definition delete_lock (lock : uuid) (d : DB) : option (unit * DB) :=
  Some (tt, set_booking_locks d
              (filter (fun l => negb (lock_id l =? lock)%string) (booking_locks d))).

(** [SELECT ... FROM booking_locks WHERE id = $1 AND lock_expires_at > now()] *)
Definition live_locks (lock : uuid) (now : timestamp) (d : DB) : list BookingLock :=
  filter (fun l => (lock_id l =? lock)%string && (now <? lock_expires_at l))
         (booking_locks d).

(** [await client.query('ROLLBACK'); return res.status(..).json(..);] *)
Definition abort (r : Reply) : M unit := ROLLBACK ;; respond r.

(** The handler body, block by block in source order; a block either
    falls through ([Val]) or has replied ([Ret]). *)

(** "Validate required fields" *)
Definition check_required (b : CreateBody) : M unit :=
  when (negb (truthy (body_slot_id b)) || negb (truthy (body_service_id b))
        || negb (truthy (body_tenant_id b))
        || negb (truthy (body_customer_name b))
        || negb (truthy_js (body_customer_phone b)))
       (abort MissingRequiredFields).

(** [normalizePhoneNumber(customer_phone)] at the call site. *)
Definition normalizedPhone (b : CreateBody) : option jsstring :=
  match body_customer_phone b with
  | Some p => normalizePhoneNumber p
  | None => None
  end.

(** "Normalize phone number" *)
Definition check_phone (b : CreateBody) : M unit :=
  when (negb (truthy_js (normalizedPhone b))) (abort InvalidPhoneFormat).

(** "Check if tenant account is active" *)
Definition check_tenant (b : CreateBody) : M unit :=
  tenantCheck <- select (fun d =>
    filter (fun t => (tenant_id t =? string_of (body_tenant_id b))%string)
           (tenants d)) ;;
  match tenantCheck with
  | [] => abort TenantNotFound
  | tenant :: _ =>
    (* is_active === false *)
    when (negb (tenant_is_active tenant)) (abort TenantDeactivated)
  end.

(** "If lock_id provided, validate lock is still valid" *)
Definition validate_lock (req_user : option uuid) (b : CreateBody)
           (now : timestamp) : M unit :=
  if truthy (body_lock_id b) then
    let expectedSessionId := js_or req_user (body_session_id b) in
    when (negb (truthy expectedSessionId)) (abort SessionIdRequiredForLock) ;;
    lockCheck <- select (live_locks (string_of (body_lock_id b)) now) ;;
    match lockCheck with
    | [] => abort LockExpiredOrInvalid
    | lock :: _ =>
      when (negb (reserved_by_session_id lock =? string_of expectedSessionId)%string)
           (abort SessionMismatch) ;;
      when (negb (lock_slot_id lock =? string_of (body_slot_id b))%string)
           (abort SlotMismatch) ;;
      when (negb (reserved_capacity lock =? req_visitor_count b))
           (abort QuantityMismatch)
    end
  else ret tt.

(** [SELECT available_capacity, is_available FROM slots WHERE id = $1
     FOR UPDATE] *)
Definition slot_rows (b : CreateBody) (d : DB) : list Slot :=
  filter (fun sl => (slot_id sl =? string_of (body_slot_id b))%string) (slots d).

(** "Check slot availability (with row lock to prevent race conditions)"
    and "Check capacity (considering lock if present)" *)
Definition check_slot (b : CreateBody) : M unit :=
  slotCheck <- select (slot_rows b) ;;
  match slotCheck with
  | [] => abort SlotNotFound
  | slot :: _ =>
    when (negb (is_available slot)) (abort SlotNotAvailable) ;;
    when (available_capacity slot <? req_visitor_count b)
         (abort (InsufficientCapacity (available_capacity slot)
                                      (req_visitor_count b)))
  end.

(** "Validate offer_id if provided" *)
Definition validate_offer (b : CreateBody) : M unit :=
  if truthy (body_offer_id b) then
    offerCheck <- select (fun d =>
      filter (fun o => (offer_id o =? string_of (body_offer_id b))%string
                       && offer_is_active o) (service_offers d)) ;;
    match offerCheck with
    | [] => abort OfferNotFound
    | offer :: _ =>
      when (negb (offer_service_id offer =? string_of (body_service_id b))%string)
           (abort OfferWrongService)
    end
  else ret tt.

(** "Ensure visitor_count matches adult_count + child_count" *)
Definition check_head_count (b : CreateBody) : M unit :=
  when (negb (finalAdultCount b + finalChildCount b =? req_visitor_count b))
       (abort HeadCountMismatch).

(** "Create booking", "Delete lock if it was used", [COMMIT], the two
    [process.nextTick] calls and the 201 reply. *)
Definition write_booking (req_user : option uuid) (b : CreateBody)
           (new_id : uuid) : M unit :=
  bookingResult <- statement
    (insert_booking req_user b
       (match normalizedPhone b with Some p => p | None => [] end) new_id) ;;
  (if truthy (body_lock_id b)
   then statement (delete_lock (string_of (body_lock_id b)))
   else ret tt) ;;
  COMMIT ;;
  match bookingResult with
  | [] => throw        (* not reached: the INSERT returns its one row *)
  | booking :: _ =>
    (* if (normalizedPhone || customer_phone || customer_email) *)
    when (truthy_js (normalizedPhone b) || truthy_js (body_customer_phone b)
          || truthy (body_customer_email b))
         (emit (NextTickInvoice (booking_id booking))) ;;
    emit (NextTickTicket (booking_id booking)) ;;
    respond (Created booking)
  end.

(** [req_user] is [req.user?.id]; [now] the clock; [new_id] the value
    [gen_random_uuid()] yields for the inserted row. *)
Definition createBooking (req_user : option uuid) (b : CreateBody)
           (now : timestamp) (new_id : uuid) : M unit :=
  try_catch
    (BEGIN ;;
     check_required b ;;
     check_phone b ;;
     check_tenant b ;;
     validate_lock req_user b now ;;
     check_slot b ;;
     validate_offer b ;;
     check_head_count b ;;
     write_booking req_user b new_id)
    (abort InternalError).

(** The database a successful [createBooking] commits: one more booking
    row, and the presented lock gone. *)
Definition after_create (b : CreateBody) (bk : Booking) (d : DB) : DB :=
  set_booking_locks
    (set_bookings d (bookings d ++ [bk]))
    (if truthy (body_lock_id b)
     then filter (fun l => negb (lock_id l =? string_of (body_lock_id b))%string)
                 (booking_locks d)
     else booking_locks d).

(** The invoice task queued by [process.nextTick]: one call of
    [zohoService.generateReceipt(booking.id)] inside a [try]/[catch] that
    only logs. *)
Inductive ReceiptOutcome :=
| ReceiptOk               (* { success: true, invoiceId } *)
| ReceiptFailed           (* { success: false, error } *)
| ReceiptThrew.           (* the call (or the dynamic import) rejected *)

Inductive InvoiceLog :=
| InvoiceCreated          (* 'Invoice created automatically' *)
| InvoiceCreationFailed   (* 'Invoice creation failed' *)
| InvoiceErrorNonBlocking. (* 'Error creating invoice (non-blocking)' *)

Definition invoiceTask (outcome : ReceiptOutcome) : M InvoiceLog :=
  try_catch
    (match outcome with
     | ReceiptOk => ret InvoiceCreated
     | ReceiptFailed => ret InvoiceCreationFailed
     | ReceiptThrew => throw
     end)
    (ret InvoiceErrorNonBlocking).

(* ================================================================== *)
(** * QR check-in ([POST /validate-qr]) *)
(* ================================================================== *)

(** [UPDATE bookings SET qr_scanned = true, qr_scanned_at = now(),
     qr_scanned_by_user_id = $1, status = 'checked_in',
     checked_in_at = now(), checked_in_by_user_id = $1] on one row. *)
Definition check_in (now : timestamp) (userId : uuid) (bk : Booking) : Booking :=
  {| booking_id := booking_id bk;
     booking_tenant_id := booking_tenant_id bk;
     booking_service_id := booking_service_id bk;
     booking_slot_id := booking_slot_id bk;
     employee_id := employee_id bk;
     customer_id := customer_id bk;
     customer_name := customer_name bk;
     customer_phone := customer_phone bk;
     customer_email := customer_email bk;
     visitor_count := visitor_count bk;
     adult_count := adult_count bk;
     child_count := child_count bk;
     total_price := total_price bk;
     notes := notes bk;
     status := "checked_in";
     payment_status := payment_status bk;
     booking_offer_id := booking_offer_id bk;
     language := language bk;
     qr_scanned := true;
     qr_scanned_at := Some now;
     qr_scanned_by_user_id := Some userId;
     checked_in_at := Some now;
     checked_in_by_user_id := Some userId;
     zoho_invoice_id := zoho_invoice_id bk |}.

(** [... WHERE id = $2] *)
Definition mark_scanned (now : timestamp) (userId bookingId : uuid) (d : DB)
  : option (unit * DB) :=
  Some (tt, set_bookings d
              (map (fun bk => if (booking_id bk =? bookingId)%string
                              then check_in now userId bk else bk)
                   (bookings d))).

(** [SELECT ... FROM bookings b JOIN services s ON b.service_id = s.id
     JOIN slots ts ON b.slot_id = ts.id WHERE b.id = $1] *)
Definition booking_details (bookingId : uuid) (d : DB) : list Booking :=
  filter (fun bk =>
            (booking_id bk =? bookingId)%string
            && existsb (fun sv => (service_id sv =? booking_service_id bk)%string)
                       (services d)
            && existsb (fun sl => (slot_id sl =? booking_slot_id bk)%string)
                       (slots d))
         (bookings d).

Definition may_validate (role : string) : bool :=
  ((role =? "cashier") || (role =? "receptionist") || (role =? "tenant_admin"))%string.

(** [req_user] is [req.user?.id], [body_booking_id] is [req.body.booking_id].
    The success reply echoes the row with its scan fields set. *)
Definition validateQr (req_user : option uuid) (body_booking_id : option uuid)
           (now : timestamp) : M unit :=
  try_catch
    (when (negb (truthy body_booking_id)) (respond BookingIdRequired) ;;
     when (negb (truthy req_user)) (respond AuthenticationRequired) ;;
     let userId := string_of req_user in
     let bookingId := string_of body_booking_id in
     userResult <- select (fun d =>
       filter (fun u => (user_id u =? userId)%string) (users d)) ;;
     match userResult with
     | [] => respond UserNotFound
     | user :: _ =>
       when (negb (may_validate (user_role user))) (respond RoleForbidden) ;;
       bookingResult <- select (booking_details bookingId) ;;
       match bookingResult with
       | [] => respond BookingNotFound
       | booking :: _ =>
         when (negb (match user_tenant_id user with
                     | Some t => (booking_tenant_id booking =? t)%string
                     | None => false
                     end))
              (respond WrongTenant) ;;
         when (qr_scanned booking) (respond (AlreadyScanned booking)) ;;
         statement (mark_scanned now userId bookingId) ;;
         respond (QrValidated (check_in now userId booking))
       end
     end)
    (respond InternalError).

(* ================================================================== *)
(** * The receipt worker ([processReceiptJob], [processZohoReceiptJobs]) *)
(* ================================================================== *)

(** What [zohoService.generateReceipt(booking_id)] answers during one sweep.
    The collaborator's own writes are outside this model. *)
Definition Zoho := uuid -> ReceiptOutcome.

Definition update_job (id : uuid) (f : QueueJob -> QueueJob) (d : DB)
  : option (unit * DB) :=
  Some (tt, set_queue_jobs d
              (map (fun j => if (job_id j =? id)%string then f j else j)
                   (queue_jobs d))).

(** [SET status = 'completed', completed_at = now()] *)
Definition set_completed (now : timestamp) (j : QueueJob) : QueueJob :=
  mkQueueJob (job_id j) (job_type j) "completed" (payload_booking_id j)
             (payload_tenant_id j) (payload_attempt j) (attempts j)
             (created_at j) (started_at j) (Some now).

(** [SET status = 'failed', completed_at = now()] *)
Definition set_failed (now : timestamp) (j : QueueJob) : QueueJob :=
  mkQueueJob (job_id j) (job_type j) "failed" (payload_booking_id j)
             (payload_tenant_id j) (payload_attempt j) (attempts j)
             (created_at j) (started_at j) (Some now).

(** [SET status = 'pending', attempts = $1,
     payload = jsonb_set(payload, '{attempt}', $2)] *)
Definition set_retry (nextAttempt : N) (j : QueueJob) : QueueJob :=
  mkQueueJob (job_id j) (job_type j) "pending" (payload_booking_id j)
             (payload_tenant_id j) nextAttempt nextAttempt
             (created_at j) (started_at j) (completed_at j).

(** [SET status = 'processing', started_at = now()] *)
Definition set_processing (now : timestamp) (j : QueueJob) : QueueJob :=
  mkQueueJob (job_id j) (job_type j) "processing" (payload_booking_id j)
             (payload_tenant_id j) (payload_attempt j) (attempts j)
             (created_at j) (Some now) (completed_at j).

(** Returns the [success] field of the result. *)
Definition processReceiptJob (zoho : Zoho) (now : timestamp) (job : QueueJob)
  : M bool :=
  let attempt := payload_attempt job in
  try_catch
    (bookingCheck <- select (fun d =>
       filter (fun bk => (booking_id bk =? payload_booking_id job)%string)
              (bookings d)) ;;
     match bookingCheck with
     | [] => throw                      (* 'Booking ... not found' *)
     | booking :: _ =>
       if truthy (zoho_invoice_id booking) then
         statement (update_job (job_id job) (set_completed now)) ;;
         ret true
       else if negb (payment_status booking =? "paid")%string then
         statement (update_job (job_id job) (set_failed now)) ;;
         ret false
       else
         emit (ReceiptCall (job_id job) (payload_booking_id job)) ;;
         match zoho (payload_booking_id job) with
         | ReceiptOk =>
           statement (update_job (job_id job) (set_completed now)) ;;
           ret true
         | ReceiptFailed => throw       (* throw new Error(result.error) *)
         | ReceiptThrew => throw
         end
     end)
    (let nextAttempt := (attempt + 1)%N in
     if (MAX_RETRIES <=? nextAttempt)%N then
       statement (update_job (job_id job) (set_failed now)) ;;
       emit (JobGaveUp (job_id job)) ;;
       ret false
     else
       let delay := calculateDelay nextAttempt in
       statement (update_job (job_id job) (set_retry nextAttempt)) ;;
       emit (RetryScheduled (job_id job) nextAttempt delay) ;;
       ret false).

(** [ORDER BY created_at ASC]: a stable insertion sort. *)
Fixpoint insert_by_created (j : QueueJob) (l : list QueueJob) : list QueueJob :=
  match l with
  | [] => [j]
  | k :: rest =>
    if created_at j <? created_at k then j :: l
    else k :: insert_by_created j rest
  end.

Definition order_by_created (l : list QueueJob) : list QueueJob :=
  fold_right insert_by_created [] l.

(** [started_at IS NULL OR started_at < now() - interval '5 minutes'] *)
Definition stale (now : timestamp) (j : QueueJob) : bool :=
  match started_at j with
  | None => true
  | Some t => t <? now - 300000
  end.

(** [WHERE job_type = 'zoho_receipt' AND status = 'pending' AND (...)] *)
Definition ready (now : timestamp) (j : QueueJob) : bool :=
  ((job_type j =? "zoho_receipt") && (job_status j =? "pending"))%string
  && stale now j.

(** The sweep's [SELECT ... ORDER BY created_at ASC LIMIT 10]. *)
Definition pending_jobs (now : timestamp) (d : DB) : list QueueJob :=
  firstn 10 (order_by_created (filter (ready now) (queue_jobs d))).

(** One element of [Promise.allSettled]: a rejection is recorded, not
    propagated. *)
Definition settled {A} (m : M A) : M unit :=
  fun s => let (_, s') := m s in (Val tt, s').

Fixpoint allSettled {A} (ms : list (M A)) : M unit :=
  match ms with
  | [] => ret tt
  | m :: rest => settled m ;; allSettled rest
  end.

(** The callback of [jobs.map]: mark the job, then process the row that was
    selected.  The callbacks touch disjoint rows of [queue_jobs], so they are
    run one after the other. *)
Definition claim_and_process (zoho : Zoho) (now : timestamp) (job : QueueJob)
  : M bool :=
  statement (update_job (job_id job) (set_processing now)) ;;
  processReceiptJob zoho now job.

Definition processZohoReceiptJobs (zoho : Zoho) (now : timestamp) : M unit :=
  try_catch
    (jobs <- select (pending_jobs now) ;;
     if (List.length jobs =? 0)%nat then ret tt
     else allSettled (map (claim_and_process zoho now) jobs))
    (ret tt).

(** The worker's timer: one sweep per tick, each with its own clock reading
    and collaborator behaviour. *)
Fixpoint sweeps (ticks : list (timestamp * Zoho)) : M unit :=
  match ticks with
  | [] => ret tt
  | (now, zoho) :: rest =>
    settled (processZohoReceiptJobs zoho now) ;; sweeps rest
  end.

(** The Slot Ledger [release] in the words of the specification: it
    increments [available_capacity] back up to at most [total_capacity].
    The source has no such operation. *)
Definition spec_release (amount : Z) (sl : Slot) : Slot :=
  mkSlot (slot_id sl) (total_capacity sl) (remaining_capacity sl)
         (Z.min (available_capacity sl + amount) (total_capacity sl))
         (booked_count sl) (is_available sl).

(** A session with no open transaction and no injected failure. *)
Definition idle (d : DB) : Session := mkSession d None [] [].

(* ================================================================== *)
(** * The checks of a booking request, as predicates on the tables *)
(* ================================================================== *)

(** All of [slot_id], [service_id], [tenant_id], [customer_name],
    [customer_phone] are present. *)
Definition required_ok (b : CreateBody) : bool :=
  truthy (body_slot_id b) && truthy (body_service_id b)
  && truthy (body_tenant_id b) && truthy (body_customer_name b)
  && truthy_js (body_customer_phone b).

(** The phone number has a normal form. *)
Definition phone_ok (b : CreateBody) : bool := truthy_js (normalizedPhone b).

(** The tenant exists and is not deactivated. *)
Definition tenant_ok (b : CreateBody) (d : DB) : bool :=
  match filter (fun t => (tenant_id t =? string_of (body_tenant_id b))%string)
               (tenants d) with
  | t :: _ => tenant_is_active t
  | [] => false
  end.

(** If a lock is presented: the caller has a session, the lock exists and
    is unexpired, and its session, slot and quantity are the request's. *)
Definition lock_ok (req_user : option uuid) (b : CreateBody) (now : timestamp)
           (d : DB) : bool :=
  if truthy (body_lock_id b) then
    truthy (js_or req_user (body_session_id b))
    && match live_locks (string_of (body_lock_id b)) now d with
       | l :: _ =>
         (reserved_by_session_id l
            =? string_of (js_or req_user (body_session_id b)))%string
         && (lock_slot_id l =? string_of (body_slot_id b))%string
         && (reserved_capacity l =? req_visitor_count b)
       | [] => false
       end
  else true.

(** The slot exists, is available and has room for the visitors. *)
Definition slot_ok (b : CreateBody) (d : DB) : bool :=
  match slot_rows b d with
  | sl :: _ => is_available sl && (req_visitor_count b <=? available_capacity sl)
  | [] => false
  end.

(** If an offer is named: it is active and belongs to the service. *)
Definition offer_ok (b : CreateBody) (d : DB) : bool :=
  if truthy (body_offer_id b) then
    match filter (fun o => (offer_id o =? string_of (body_offer_id b))%string
                           && offer_is_active o) (service_offers d) with
    | o :: _ => (offer_service_id o =? string_of (body_service_id b))%string
    | [] => false
    end
  else true.

(** [visitor_count = adult_count + child_count] *)
Definition head_count_ok (b : CreateBody) : bool :=
  finalAdultCount b + finalChildCount b =? req_visitor_count b.

(** No validation step of the create route fails. *)
Definition admissible (req_user : option uuid) (b : CreateBody)
           (now : timestamp) (d : DB) : bool :=
  required_ok b && phone_ok b && tenant_ok b d && lock_ok req_user b now d
  && slot_ok b d && offer_ok b d && head_count_ok b.

(* ================================================================== *)
(** * A program logic for handlers *)
(* ================================================================== *)

(** [post Qv Qr Qt] holds of a result when the matching assertion holds of
    the final session: [Qv] after normal completion, [Qr] after a reply,
    [Qt] while an exception propagates. *)
Definition post {A} (Qv : A -> Session -> Prop) (Qr : Reply -> Session -> Prop)
           (Qt : Session -> Prop) (o : Outcome A * Session) : Prop :=
  match o with
  | (Val a, s) => Qv a s
  | (Ret r, s) => Qr r s
  | (Throw, s) => Qt s
  end.

Definition triple {A} (P : Session -> Prop) (m : M A)
           (Qv : A -> Session -> Prop) (Qr : Reply -> Session -> Prop)
           (Qt : Session -> Prop) : Prop :=
  forall s, P s -> post Qv Qr Qt (m s).

(** Other connections read [d]; this one has an open transaction whose
    working copy is [w]; [ef] is what has been handed to the event loop. *)
Definition Open (d w : DB) (ef : list Effect) (s : Session) : Prop :=
  visible s = d /\ tx s = Some w /\ effects s = ef.

(** No transaction is open and the tables are [d]. *)
Definition Closed (d : DB) (ef : list Effect) (s : Session) : Prop :=
  visible s = d /\ tx s = None /\ effects s = ef.

(** Other connections (still) read [d]. *)
Definition Unchanged (d : DB) (s : Session) : Prop := visible s = d.

(** What holds once the create route has replied [r]: after a 201 (which
    only an admissible request gets) the booking is committed and the two
    deferred tasks are queued on the event loop; after anything else other
    connections see the untouched tables. *)
Definition Settled (req_user : option uuid) (b : CreateBody) (now : timestamp)
           (d : DB) (ef : list Effect) (r : Reply) (s : Session) : Prop :=
  match r with
  | Created bk =>
    admissible req_user b now d = true
    /\ Closed (after_create b bk d)
              (ef ++ [NextTickInvoice (booking_id bk);
                      NextTickTicket (booking_id bk)]) s
  | _ => visible s = d
  end.

(** The request gets past the field, phone and tenant checks, i.e. reaches
    the lock validation. *)
Definition passes_preliminaries (b : CreateBody) (d : DB) : bool :=
  required_ok b && phone_ok b && tenant_ok b d.

(* ================================================================== *)
(** * Sample tables and requests *)
(* ================================================================== *)

Module Sample.

Local Open Scope string_scope.

(** A slot whose two places are held by session A's lock, and a slot
    with five free places. *)
Definition held_slot : Slot := mkSlot "s1" 2 2 0 0 true.
Definition free_slot : Slot := mkSlot "s2" 5 5 5 0 true.

(** Session A's lock on [s1] for 2 places, acquired at 0, expiring at
    120 s. *)
Definition lockA : BookingLock := mkBookingLock "L1" "s1" "A" 2 0 120000.

Definition paid_booking : Booking :=
  {| booking_id := "bk1"; booking_tenant_id := "t1";
     booking_service_id := "svc1"; booking_slot_id := "s2";
     employee_id := None; customer_id := None; customer_name := "Mona";
     customer_phone := str "+201032560826"; customer_email := None;
     visitor_count := 1; adult_count := 1; child_count := 0;
     total_price := 100; notes := None; status := "confirmed";
     payment_status := "paid"; booking_offer_id := None; language := "en";
     qr_scanned := false; qr_scanned_at := None;
     qr_scanned_by_user_id := None; checked_in_at := None;
     checked_in_by_user_id := None; zoho_invoice_id := None |}.

Definition receipt_job : QueueJob :=
  mkQueueJob "j1" "zoho_receipt" "pending" "bk1" "t1" 0 0 0 None None.

Definition db : DB :=
  {| tenants := [mkTenant "t1" true];
     users := [mkUser "u1" "cashier" (Some "t1")];
     services := [mkService "svc1" "Tour"];
     service_offers := [];
     slots := [held_slot; free_slot];
     booking_locks := [lockA];
     bookings := [paid_booking];
     queue_jobs := [receipt_job] |}.

(** A direct booking (no lock) of one place in [s2]. *)
Definition direct_request : CreateBody :=
  {| body_slot_id := Some "s2"; body_service_id := Some "svc1";
     body_tenant_id := Some "t1"; body_customer_name := Some "Omar";
     body_customer_phone := Some (str "01032560826");
     body_customer_email := None; body_visitor_count := Some 1;
     body_adult_count := None; body_child_count := None;
     body_total_price := Some 100; body_notes := None;
     body_employee_id := None; body_lock_id := None;
     body_session_id := None; body_offer_id := None;
     body_language := None |}.

(** Session A books the two places of [s1] it holds with lock [L1]. *)
Definition locked_request : CreateBody :=
  {| body_slot_id := Some "s1"; body_service_id := Some "svc1";
     body_tenant_id := Some "t1"; body_customer_name := Some "Aya";
     body_customer_phone := Some (str "+201032560826");
     body_customer_email := None; body_visitor_count := Some 2;
     body_adult_count := Some 2; body_child_count := Some 0;
     body_total_price := Some 200; body_notes := None;
     body_employee_id := None; body_lock_id := Some "L1";
     body_session_id := Some "A"; body_offer_id := None;
     body_language := Some "ar" |}.

End Sample.

(** [d'] differs from [d] in [booking_locks] at most. *)
Definition same_but_locks (d d' : DB) : Prop :=
  tenants d' = tenants d /\ users d' = users d /\ services d' = services d
  /\ service_offers d' = service_offers d /\ slots d' = slots d
  /\ bookings d' = bookings d /\ queue_jobs d' = queue_jobs d.

(* ================================================================== *)
(** * Check-in bookkeeping *)
(* ================================================================== *)






(** The tables after the [UPDATE] of the check-in. *)
Definition after_check_in (now : timestamp) (userId bookingId : uuid) (d : DB) : DB :=
  set_bookings d
    (map (fun bk => if (booking_id bk =? bookingId)%string
                    then check_in now userId bk else bk)
         (bookings d)).

(** What holds once [validate-qr] has replied [r]: a success reply means
    the row read was unscanned and is now checked in; any other reply means
    nothing was written. *)
Definition QrSettled (req_user body_booking_id : option uuid) (now : timestamp)
           (d : DB) (ef : list Effect) (r : Reply) (s : Session) : Prop :=
  match r with
  | QrValidated bk' =>
    exists bk rest,
      booking_details (string_of body_booking_id) d = bk :: rest
      /\ qr_scanned bk = false
      /\ bk' = check_in now (string_of req_user) bk
      /\ Closed (after_check_in now (string_of req_user)
                                (string_of body_booking_id) d) ef s
  | _ => Closed d ef s
  end.


(* ================================================================== *)
(** * Retry bookkeeping *)
(* ================================================================== *)

(** The row of job [id]. *)
Definition job_row (id : uuid) (d : DB) : option QueueJob :=
  find (fun j => (job_id j =? id)%string) (queue_jobs d).

(** How often the invoicing collaborator was called for job [id]. *)
Definition receipt_calls (id : uuid) (ef : list Effect) : nat :=
  List.length
    (filter (fun e => match e with
                      | ReceiptCall j _ => (j =? id)%string
                      | _ => false
                      end) ef).

(** The job an effect of the worker belongs to. *)
Definition effect_job (e : Effect) : option uuid :=
  match e with
  | ReceiptCall j _ | RetryScheduled j _ _ | JobGaveUp j => Some j
  | NextTickInvoice _ | NextTickTicket _ => None
  end.

(** During this sweep the side effect of job [k] is invoked and fails: the
    booking is there, paid and without invoice, and the collaborator does
    not answer with success. *)
Definition fails_receipt (zoho : Zoho) (d : DB) (k : QueueJob) : bool :=
  match filter (fun bk => (booking_id bk =? payload_booking_id k)%string)
               (bookings d) with
  | [] => false
  | bk :: _ =>
    negb (truthy (zoho_invoice_id bk))
    && (payment_status bk =? "paid")%string
    && match zoho (payload_booking_id k) with
       | ReceiptOk => false
       | _ => true
       end
  end.

(** What processing the selected job [k] does when no statement throws:
    the update of its row (applied after the row was marked as processing)
    and the effects. *)
Definition job_result (zoho : Zoho) (now : timestamp) (k : QueueJob) (d : DB)
  : (QueueJob -> QueueJob) * list Effect :=
  let next := (payload_attempt k + 1)%N in
  let on_error :=
    if (MAX_RETRIES <=? next)%N
    then (set_failed now, [JobGaveUp (job_id k)])
    else (set_retry next,
          [RetryScheduled (job_id k) next (calculateDelay next)]) in
  match filter (fun bk => (booking_id bk =? payload_booking_id k)%string)
               (bookings d) with
  | [] => on_error
  | bk :: _ =>
    if truthy (zoho_invoice_id bk) then (set_completed now, [])
    else if negb (payment_status bk =? "paid")%string then (set_failed now, [])
    else
      match zoho (payload_booking_id k) with
      | ReceiptOk =>
        (set_completed now, [ReceiptCall (job_id k) (payload_booking_id k)])
      | _ =>
        (fst on_error,
         ReceiptCall (job_id k) (payload_booking_id k) :: snd on_error)
      end
  end.

(** The row [r] after job [k] of the sweep was processed. *)
Definition touch (zoho : Zoho) (now : timestamp) (d : DB) (k r : QueueJob)
  : QueueJob :=
  if (job_id r =? job_id k)%string
  then fst (job_result zoho now k d) (set_processing now r)
  else r.

(** [queue_jobs] after the selected jobs [l] were processed in turn. *)
Fixpoint apply_jobs (zoho : Zoho) (now : timestamp) (d : DB)
         (l : list QueueJob) (q : list QueueJob) : list QueueJob :=
  match l with
  | [] => q
  | k :: rest => apply_jobs zoho now d rest (map (touch zoho now d k) q)
  end.

(** The effects of processing the selected jobs [l]. *)
Definition sweep_events (zoho : Zoho) (now : timestamp) (d : DB)
           (l : list QueueJob) : list Effect :=
  flat_map (fun k => snd (job_result zoho now k d)) l.

(** The collaborator never succeeds. *)
Definition zoho_down : Zoho := fun _ => ReceiptFailed.

(** Four sweeps, six minutes apart, with the collaborator down. *)
Definition sample_ticks : list (timestamp * Zoho) :=
  [(1000, zoho_down); (361000, zoho_down); (721000, zoho_down);
   (1081000, zoho_down)].

(** A fault-free worker session in which job [id] (for booking [bid]) has
    had [n] calls of the collaborator: below [MAX_RETRIES] the row is
    pending with its attempt counter at [n], at [MAX_RETRIES] it is failed.
    The worker does not write [bookings], which stay those of [d0]. *)
Definition Retrying (d0 : DB) (id bid : uuid) (n : nat) (s : Session) : Prop :=
  tx s = None /\ faults s = []
  /\ bookings (visible s) = bookings d0
  /\ NoDup (map job_id (queue_jobs (visible s)))
  /\ receipt_calls id (effects s) = n
  /\ (n <= N.to_nat MAX_RETRIES)%nat
  /\ exists r,
       job_row id (visible s) = Some r
       /\ job_type r = "zoho_receipt"%string
       /\ payload_booking_id r = bid
       /\ if (n <? N.to_nat MAX_RETRIES)%nat
          then job_status r = "pending"%string /\ payload_attempt r = N.of_nat n
          else job_status r = "failed"%string.

(** A fault-free worker session in which the row of job [j] is [j] itself
    and the collaborator was called [n] times for it. *)
Definition Parked (j : QueueJob) (n : nat) (s : Session) : Prop :=
  tx s = None /\ faults s = []
  /\ NoDup (map job_id (queue_jobs (visible s)))
  /\ job_row (job_id j) (visible s) = Some j
  /\ receipt_calls (job_id j) (effects s) = n.

(* ================================================================== *)
(** * The row a 201 reports *)
(* ================================================================== *)

(** [bk] is the row the [INSERT] of this request builds, and it satisfies
    the column constraints of [bookings]. *)
Definition booked_row (req_user : option uuid) (b : CreateBody) (new_id : uuid)
           (bk : Booking) : Prop :=
  exists price,
    body_total_price b = Some price
    /\ bk = new_booking req_user b
              (match normalizedPhone b with Some p => p | None => [] end)
              price new_id
    /\ 0 < visitor_count bk /\ 0 <= adult_count bk /\ 0 <= child_count bk
    /\ 0 <= total_price bk.

(** A 201 reports such a row. *)
Definition RowSettled (req_user : option uuid) (b : CreateBody) (new_id : uuid)
           (r : Reply) (s : Session) : Prop :=
  match r with
  | Created bk => booked_row req_user b new_id bk
  | _ => True
  end.

(** Nothing is known or required of the session. *)
Definition anySession (s : Session) : Prop := True.

(** The row of the [INSERT] breaks a column constraint of [bookings]:
    [total_price] is [NULL] or negative, [visitor_count] is not positive,
    or a head count is negative. *)
Definition violates_constraint (b : CreateBody) : bool :=
  match body_total_price b with
  | None => true
  | Some price =>
    (price <? 0) || (req_visitor_count b <=? 0) || (finalAdultCount b <? 0)
    || (finalChildCount b <? 0)
  end.

(** Further sample requests against [Sample.db]. *)
Module Edge.

Local Open Scope string_scope.

Definition with_visitors (n : Z) (b : CreateBody) : CreateBody :=
  {| body_slot_id := body_slot_id b; body_service_id := body_service_id b;
     body_tenant_id := body_tenant_id b;
     body_customer_name := body_customer_name b;
     body_customer_phone := body_customer_phone b;
     body_customer_email := body_customer_email b;
     body_visitor_count := Some n;
     body_adult_count := body_adult_count b;
     body_child_count := body_child_count b;
     body_total_price := body_total_price b; body_notes := body_notes b;
     body_employee_id := body_employee_id b; body_lock_id := body_lock_id b;
     body_session_id := body_session_id b; body_offer_id := body_offer_id b;
     body_language := body_language b |}.

(** No slot id, a phone number that is no number, an unknown tenant. *)
Definition nameless_slot : CreateBody :=
  {| body_slot_id := None; body_service_id := Some "svc1";
     body_tenant_id := Some "t9"; body_customer_name := Some "Omar";
     body_customer_phone := Some (str "12345");
     body_customer_email := None; body_visitor_count := Some 1;
     body_adult_count := None; body_child_count := None;
     body_total_price := Some 100; body_notes := None;
     body_employee_id := None; body_lock_id := None;
     body_session_id := None; body_offer_id := None;
     body_language := None |}.

(** A direct booking for nobody. *)
Definition zero_visitors : CreateBody := with_visitors 0 Sample.direct_request.


(** Session B holds one of the free places of [s2] with lock [L2]. *)
Definition lockB : BookingLock := mkBookingLock "L2" "s2" "B" 1 0 120000.

Definition db : DB := set_booking_locks Sample.db [Sample.lockA; lockB].

(** Session B books the place it holds. *)
Definition locked_free : CreateBody :=
  {| body_slot_id := Some "s2"; body_service_id := Some "svc1";
     body_tenant_id := Some "t1"; body_customer_name := Some "Basma";
     body_customer_phone := Some (str "+201032560826");
     body_customer_email := None; body_visitor_count := Some 1;
     body_adult_count := None; body_child_count := None;
     body_total_price := Some 100; body_notes := None;
     body_employee_id := None; body_lock_id := Some "L2";
     body_session_id := Some "B"; body_offer_id := None;
     body_language := None |}.


End Edge.

(* ================================================================== *)
(** * Who may check in *)
(* ================================================================== *)

(** The caller [u] is a user row with a permitted role whose tenant is the
    tenant of the booking row [bid] that is read. *)
Definition qr_authorized (u bid : option uuid) (d : DB) : Prop :=
  exists usr urest bk rest,
    truthy u = true /\ truthy bid = true
    /\ filter (fun v => (user_id v =? string_of u)%string) (users d)
       = usr :: urest
    /\ may_validate (user_role usr) = true
    /\ booking_details (string_of bid) d = bk :: rest
    /\ user_tenant_id usr = Some (booking_tenant_id bk).

(** A reply that carries fields of a booking row goes to an authorized
    caller only, and reports the row that was read. *)
Definition QrAuthorized (u bid : option uuid) (d : DB) (r : Reply)
           (s : Session) : Prop :=
  match r with
  | QrValidated bk' | AlreadyScanned bk' =>
    qr_authorized u bid d
    /\ booking_id bk' = string_of bid
    /\ exists bk, In bk (bookings d)
                  /\ booking_id bk = booking_id bk'
                  /\ booking_tenant_id bk = booking_tenant_id bk'
                  /\ customer_name bk = customer_name bk'
  | _ => True
  end.

(* ================================================================== *)
(** * What a sweep of the receipt worker may touch *)
(* ================================================================== *)

(** The columns of a job row that no statement of the worker sets. *)
Definition job_identity (j : QueueJob)
  : uuid * string * uuid * uuid * timestamp :=
  (job_id j, job_type j, payload_booking_id j, payload_tenant_id j,
   created_at j).

(** [d] is [d0] up to the columns [status], [attempts], [payload.attempt],
    [started_at] and [completed_at] of [queue_jobs]. *)
Definition worker_frame (d0 d : DB) : Prop :=
  tenants d = tenants d0 /\ users d = users d0 /\ services d = services d0
  /\ service_offers d = service_offers d0 /\ slots d = slots d0
  /\ booking_locks d = booking_locks d0 /\ bookings d = bookings d0
  /\ map job_identity (queue_jobs d) = map job_identity (queue_jobs d0).

(** The booking row that [processReceiptJob] reads for [bid] is paid and
    has no invoice yet. *)
Definition billable (d : DB) (bid : uuid) : bool :=
  match filter (fun bk => (booking_id bk =? bid)%string) (bookings d) with
  | [] => false
  | bk :: _ =>
    negb (truthy (zoho_invoice_id bk)) && (payment_status bk =? "paid")%string
  end.

Definition is_receipt_call (e : Effect) : bool :=
  match e with
  | ReceiptCall _ _ => true
  | _ => false
  end.

(** An external call or log line that a sweep over the selected jobs [sel]
    may produce, given the tables [d0] it started from. *)
Definition sweep_effect_ok (d0 : DB) (sel : list QueueJob) (e : Effect) : Prop :=
  match e with
  | ReceiptCall j bid =>
    billable d0 bid = true
    /\ exists k, In k sel /\ job_id k = j /\ payload_booking_id k = bid
  | RetryScheduled j n delay =>
    (exists k, In k sel /\ job_id k = j /\ n = (payload_attempt k + 1)%N)
    /\ (n < MAX_RETRIES)%N /\ delay = calculateDelay n
  | JobGaveUp j =>
    exists k, In k sel /\ job_id k = j
              /\ (MAX_RETRIES <= payload_attempt k + 1)%N
  | NextTickInvoice _ | NextTickTicket _ => False
  end.

(** The tables during a sweep: only rows of selected jobs differ from
    those of [d0], and only in the columns the worker sets. *)
Definition sweep_tables (d0 : DB) (sel : list QueueJob) (d : DB) : Prop :=
  worker_frame d0 d
  /\ forall id, ~ In id (map job_id sel) -> job_row id d = job_row id d0.

(** The effects during a sweep: those that were there, then permitted ones
    with at most [n] calls of the collaborator among them. *)
Definition sweep_log (d0 : DB) (ef0 : list Effect) (sel : list QueueJob)
           (n : nat) (ef : list Effect) : Prop :=
  exists calls,
    ef = ef0 ++ calls /\ Forall (sweep_effect_ok d0 sel) calls
    /\ (List.length (filter is_receipt_call calls) <= n)%nat.

Definition Sweeping (d0 : DB) (ef0 : list Effect) (sel : list QueueJob)
           (n : nat) (s : Session) : Prop :=
  tx s = None /\ sweep_tables d0 sel (visible s)
  /\ sweep_log d0 ef0 sel n (effects s).

(* ================================================================== *)
(** * Updating the payment status ([PATCH /:id/payment-status]) *)
(* ================================================================== *)

(** The replies of the route. *)
Inductive PaymentReply :=
| PaymentStatusRequired          (* 400 'payment_status is required' *)
| InvalidPaymentStatus           (* 400 'Invalid payment_status. Must be one of: ...' *)
| PaymentBookingNotFound         (* 404 'Booking not found' *)
| PaymentForbidden               (* 403 'You do not have permission ...' *)
| PaymentUpdated (booking : option Booking) (receipt_message : bool)
                                 (* 200 { success: true, booking, message } *)
| PaymentError.                  (* 500 *)

Definition payment_status_code (r : PaymentReply) : Z :=
  match r with
  | PaymentStatusRequired | InvalidPaymentStatus => 400
  | PaymentBookingNotFound => 404
  | PaymentForbidden => 403
  | PaymentUpdated _ _ => 200
  | PaymentError => 500
  end.

Definition validStatuses : list string :=
  ["unpaid"; "paid"; "paid_manual"; "awaiting_payment"; "refunded"]%string.

(** [SELECT b.*, u.tenant_id as user_tenant_id, u.role FROM bookings b
     LEFT JOIN users u ON u.id = $1 WHERE b.id = $2]: each booking row with
    each matching user row, or with none. *)
Definition payment_rows (userId : option uuid) (bookingId : uuid) (d : DB)
  : list (Booking * option User) :=
  flat_map
    (fun bk =>
       match filter (fun u => match userId with
                              | Some i => (user_id u =? i)%string
                              | None => false
                              end) (users d) with
       | [] => [(bk, None)]
       | us => map (fun u => (bk, Some u)) us
       end)
    (filter (fun bk => (booking_id bk =? bookingId)%string) (bookings d)).

(** [booking.user_tenant_id !== booking.tenant_id
     && booking.role !== 'solution_owner'] *)
Definition payment_forbidden (bk : Booking) (u : option User) : bool :=
  negb (match u with
        | Some usr =>
          match user_tenant_id usr with
          | Some t => (t =? booking_tenant_id bk)%string
          | None => false
          end
        | None => false
        end)
  && negb (match u with
           | Some usr => (user_role usr =? "solution_owner")%string
           | None => false
           end).

(** [SET payment_status = $1] on one row ([updated_at] is not among the
    columns of the model). *)
Definition set_payment_status (st : string) (bk : Booking) : Booking :=
  {| booking_id := booking_id bk;
     booking_tenant_id := booking_tenant_id bk;
     booking_service_id := booking_service_id bk;
     booking_slot_id := booking_slot_id bk;
     employee_id := employee_id bk;
     customer_id := customer_id bk;
     customer_name := customer_name bk;
     customer_phone := customer_phone bk;
     customer_email := customer_email bk;
     visitor_count := visitor_count bk;
     adult_count := adult_count bk;
     child_count := child_count bk;
     total_price := total_price bk;
     notes := notes bk;
     status := status bk;
     payment_status := st;
     booking_offer_id := booking_offer_id bk;
     language := language bk;
     qr_scanned := qr_scanned bk;
     qr_scanned_at := qr_scanned_at bk;
     qr_scanned_by_user_id := qr_scanned_by_user_id bk;
     checked_in_at := checked_in_at bk;
     checked_in_by_user_id := checked_in_by_user_id bk;
     zoho_invoice_id := zoho_invoice_id bk |}.

(** The tables after the [UPDATE]. *)
Definition after_payment (st : string) (bookingId : uuid) (d : DB) : DB :=
  set_bookings d
    (map (fun bk => if (booking_id bk =? bookingId)%string
                    then set_payment_status st bk else bk)
         (bookings d)).

(** [UPDATE bookings SET payment_status = $1, updated_at = now()
     WHERE id = $2].  The column has the enum type [payment_status], which
    is declared outside the sources at hand: [enum_ok] says which labels it
    has, and a value that is no label makes the statement fail. *)
Definition update_payment (enum_ok : string -> bool) (st : string)
           (bookingId : uuid) (d : DB) : option (unit * DB) :=
  if enum_ok st then Some (tt, after_payment st bookingId d) else None.

(** [req_user] is [req.user?.id], [bookingId] is [req.params.id],
    [body_payment_status] is [req.body.payment_status].  The handler has no
    early exit inside a transaction: each [return res...] ends it with that
    reply. *)
Definition updatePaymentStatus (enum_ok : string -> bool)
           (req_user : option uuid) (bookingId : uuid)
           (body_payment_status : option string) : M PaymentReply :=
  try_catch
    (if negb (truthy body_payment_status) then ret PaymentStatusRequired
     else
       let payment_status := string_of body_payment_status in
       if negb (existsb (String.eqb payment_status) validStatuses)
       then ret InvalidPaymentStatus
       else
         bookingCheck <- select (payment_rows req_user bookingId) ;;
         match bookingCheck with
         | [] => ret PaymentBookingNotFound
         | (booking, user) :: _ =>
           if payment_forbidden booking user then ret PaymentForbidden
           else
             statement (update_payment enum_ok payment_status bookingId) ;;
             updatedBooking <- select (fun d =>
               filter (fun bk => (booking_id bk =? bookingId)%string)
                      (bookings d)) ;;
             ret (PaymentUpdated (hd_error updatedBooking)
                                 (payment_status =? "paid")%string)
         end)
    (ret PaymentError).

(** The caller may update the booking: the first row the permission query
    returns pairs it with a user of the booking's tenant or with a
    solution owner. *)
Definition payment_permitted (req_user : option uuid) (bookingId : uuid)
           (d : DB) : bool :=
  match payment_rows req_user bookingId d with
  | [] => false
  | (bk, u) :: _ => negb (payment_forbidden bk u)
  end.

(** What holds of the session once the route is through: either nothing
    was written, or a permitted caller's valid status was. *)
Definition PaymentSettled (enum_ok : string -> bool) (req_user : option uuid)
           (bookingId : uuid) (body_payment_status : option string)
           (d : DB) (ef : list Effect) (r : PaymentReply) (s : Session) : Prop :=
  let st := string_of body_payment_status in
  let applied :=
    truthy body_payment_status = true /\ In st validStatuses
    /\ enum_ok st = true
    /\ payment_permitted req_user bookingId d = true
    /\ Closed (after_payment st bookingId d) ef s in
  match r with
  | PaymentUpdated bk msg =>
    applied
    /\ bk = hd_error (filter (fun b => (booking_id b =? bookingId)%string)
                             (bookings (after_payment st bookingId d)))
    /\ msg = (st =? "paid")%string
  | PaymentError => Closed d ef s \/ applied
  | _ => Closed d ef s
  end.

(** The labels the handler accepts, taken as the labels of the enum. *)
Definition enum_as_validated (st : string) : bool :=
  existsb (String.eqb st) validStatuses.

(* ================================================================== *)
(** * Properties of the phone normalisation *)
(* ================================================================== *)

Lemma some_eq {A} (a b : A) : Some a = Some b -> a = b.
Proof. congruence. Qed.

Section PhoneFacts.

Local Open Scope N_scope.

Ltac literals :=
  change (str "+") with [43] in *;
  change (str "+20") with [43; 50; 48] in *;
  change (str "00") with [48; 48] in *;
  change (str "20") with [50; 48] in *;
  change (str "0") with [48] in *;
  change (str "1") with [49] in *;
  change (str "2") with [50] in *;
  change (str "5") with [53] in *.

Lemma Clean_strip s : Clean (strip_separators s).
Proof.
  unfold Clean, strip_separators.
  induction s as [|c s IH]; simpl; [reflexivity|].
  destruct (is_separator c) eqn:E; simpl; [exact IH|].
  rewrite E. exact IH.
Qed.

Lemma strip_Clean s : Clean s -> strip_separators s = s.
Proof.
  unfold Clean, strip_separators.
  induction s as [|c s IH]; simpl; [reflexivity|].
  intros H. apply andb_true_iff in H as [Hc Hs].
  rewrite Hc. f_equal. auto.
Qed.

Lemma Clean_cons c s : Clean (c :: s) <-> is_separator c = false /\ Clean s.
Proof.
  unfold Clean. simpl. rewrite andb_true_iff, negb_true_iff. tauto.
Qed.

Lemma Clean_app a b : Clean a -> Clean b -> Clean (a ++ b).
Proof.
  unfold Clean. intros Ha Hb. rewrite forallb_app, Ha, Hb. reflexivity.
Qed.

Lemma Clean_skipn n s : Clean s -> Clean (skipn n s).
Proof.
  revert s. induction n as [|n IH]; intros [|c s] H; simpl; auto.
  apply IH. apply Clean_cons in H. tauto.
Qed.

(** A number recognised as an Egyptian mobile does not begin with the
    trunk digit, so the trunk rule does not fire on it. *)
Lemma mobile_no_trunk w : isEgyptMobile w = true -> egyptTrunk w = None.
Proof.
  unfold isEgyptMobile, egyptTrunk. literals.
  destruct w as [|c t]; simpl; [discriminate|].
  rewrite !andb_true_r. intros H.
  destruct (c =? 48) eqn:E; [|reflexivity].
  apply N.eqb_eq in E. subst c. discriminate H.
Qed.

Lemma egyptTrunk_mobile a w : egyptTrunk a = Some w -> isEgyptMobile w = true.
Proof.
  unfold egyptTrunk.
  destruct (startsWith a (str "0") && (10 <=? List.length a)%nat); [|discriminate].
  cbv zeta. destruct (isEgyptMobile (substring a 1)) eqn:E; [|discriminate].
  intros H. injection H as <-. exact E.
Qed.

Lemma egyptTrunk_skipn a w : egyptTrunk a = Some w -> w = skipn 1 a.
Proof.
  unfold egyptTrunk.
  destruct (startsWith a (str "0") && (10 <=? List.length a)%nat); [|discriminate].
  cbv zeta. destruct (isEgyptMobile (substring a 1)); [|discriminate].
  intros H. injection H as <-. reflexivity.
Qed.

(** [+20] followed by a mobile number is already normal. *)
Lemma normal_mobile w :
  isEgyptMobile w = true ->
  normalizeCleaned (str "+20" ++ w) = Some (str "+20" ++ w).
Proof.
  intros H. unfold normalizeCleaned. literals. simpl.
  unfold substring. simpl. rewrite (mobile_no_trunk w H). reflexivity.
Qed.

(** A string in international form on which the trunk rule is silent is
    returned as it is. *)
Lemma normal_plus c :
  startsWith c (str "+") = true ->
  (startsWith c (str "+20") = true -> egyptTrunk (substring c 3) = None) ->
  normalizeCleaned c = Some c.
Proof.
  intros Hp Ht. unfold normalizeCleaned. rewrite Hp.
  destruct (startsWith c (str "+20")); [|reflexivity].
  rewrite Ht; reflexivity.
Qed.

(** A national number [20...] on which the trunk rule is silent gets a
    [+] and is then normal. *)
Lemma plus_prefixed c :
  Clean c ->
  egyptTrunk (substring c 2) = None ->
  Clean (str "+" ++ c) /\ startsWith (str "+" ++ c) (str "+") = true
  /\ normalizeCleaned (str "+" ++ c) = Some (str "+" ++ c).
Proof.
  intros Hc Et. split; [|split].
  - apply Clean_app; [reflexivity|assumption].
  - reflexivity.
  - apply normal_plus; [reflexivity|]. intros _. exact Et.
Qed.

Lemma normalizeCleaned_fixed c r :
  Clean c ->
  normalizeCleaned c = Some r ->
  Clean r /\ startsWith r (str "+") = true /\ normalizeCleaned r = Some r.
Proof.
  intros Hc.
  assert (Hout : forall a w, Clean a -> egyptTrunk a = Some w ->
            Clean (str "+20" ++ w)
            /\ startsWith (str "+20" ++ w) (str "+") = true
            /\ normalizeCleaned (str "+20" ++ w) = Some (str "+20" ++ w)).
  { intros a w Ha Hw. split; [|split].
    - apply Clean_app; [reflexivity|].
      rewrite (egyptTrunk_skipn _ _ Hw). now apply Clean_skipn.
    - reflexivity.
    - apply normal_mobile. eapply egyptTrunk_mobile; eauto. }
  assert (Hmob : forall w, Clean w -> isEgyptMobile w = true ->
            Clean (str "+20" ++ w)
            /\ startsWith (str "+20" ++ w) (str "+") = true
            /\ normalizeCleaned (str "+20" ++ w) = Some (str "+20" ++ w)).
  { intros w Ha Hw. split; [|split].
    - apply Clean_app; [reflexivity|assumption].
    - reflexivity.
    - now apply normal_mobile. }
  unfold normalizeCleaned at 1.
  destruct (startsWith c (str "+")) eqn:Eplus.
  - (* already in international format *)
    destruct (startsWith c (str "+20")) eqn:E20.
    + destruct (egyptTrunk (substring c 3)) as [w|] eqn:Et; intros H;
        apply some_eq in H; subst r.
      * apply (Hout (substring c 3)); [now apply Clean_skipn|assumption].
      * repeat split; auto. apply normal_plus; auto.
    + intros H; apply some_eq in H; subst r. repeat split; auto.
      apply normal_plus; auto. congruence.
  - destruct (startsWith c (str "00")) eqn:E00.
    + (* 00 prefix *)
      cbv zeta.
      assert (Hc' : Clean (str "+" ++ substring c 2))
        by (apply Clean_app; [reflexivity|now apply Clean_skipn]).
      assert (Hp' : startsWith (str "+" ++ substring c 2) (str "+") = true)
        by reflexivity.
      set (c' := str "+" ++ substring c 2) in *.
      destruct (startsWith c' (str "+20")) eqn:E20.
      * destruct (egyptTrunk (substring c' 3)) as [w|] eqn:Et;
          intros H; apply some_eq in H; subst r.
        -- apply (Hout (substring c' 3)); auto. now apply Clean_skipn.
        -- repeat split; auto. apply normal_plus; auto.
      * intros H; apply some_eq in H; subst r. repeat split; auto.
        apply normal_plus; [assumption|congruence].
    + destruct (startsWith c (str "0") && (List.length c =? 11)%nat).
      * cbv zeta. destruct (isEgyptMobile (substring c 1)) eqn:Em.
        -- intros H; apply some_eq in H; subst r.
           apply Hmob; auto. now apply Clean_skipn.
        -- destruct (startsWith c (str "20") && (12 <=? List.length c)%nat) eqn:E2.
           ++ apply andb_true_iff in E2 as [E2 _].
              destruct (egyptTrunk (substring c 2)) as [w|] eqn:Et;
                intros H; apply some_eq in H; subst r.
              ** apply (Hout (substring c 2)); auto. now apply Clean_skipn.
              ** apply plus_prefixed; assumption.
           ++ destruct ((List.length c =? 10)%nat && isEgyptMobile c) eqn:E10;
                [|discriminate].
              apply andb_true_iff in E10 as [_ E10].
              intros H; apply some_eq in H; subst r. now apply Hmob.
      * destruct (startsWith c (str "20") && (12 <=? List.length c)%nat) eqn:E2.
        -- apply andb_true_iff in E2 as [E2 _].
           destruct (egyptTrunk (substring c 2)) as [w|] eqn:Et;
             intros H; apply some_eq in H; subst r.
           ++ apply (Hout (substring c 2)); auto. now apply Clean_skipn.
           ++ apply plus_prefixed; assumption.
        -- destruct ((List.length c =? 10)%nat && isEgyptMobile c) eqn:E10;
             [|discriminate].
           apply andb_true_iff in E10 as [_ E10].
           intros H; apply some_eq in H; subst r. now apply Hmob.
Qed.

End PhoneFacts.

(** C9.  [normalizePhoneNumber] returns either null or a string beginning
    with ['+'], and it is idempotent on its own outputs: normalising a
    non-null result gives that result back. *)
Theorem normalizePhoneNumber_plus_idempotent :
  forall phone : jsstring,
    match normalizePhoneNumber phone with
    | None => True
    | Some s =>
      startsWith s (str "+") = true /\ normalizePhoneNumber s = Some s
    end.
Proof.
  intros phone.
  destruct (normalizePhoneNumber phone) as [s|] eqn:E; [|exact I].
  unfold normalizePhoneNumber in E.
  destruct phone as [|c0 phone0]; [discriminate|].
  destruct (normalizeCleaned_fixed _ _ (Clean_strip _) E) as (Hclean & Hplus & Hfix).
  split; [exact Hplus|].
  unfold normalizePhoneNumber.
  destruct s as [|c s']; [discriminate Hplus|].
  rewrite (strip_Clean _ Hclean). exact Hfix.
Qed.

(* ================================================================== *)
(** * Properties of the backoff *)
(* ================================================================== *)

Lemma calculateDelay_monotone (a b : N) :
  (a <= b)%N -> calculateDelay a <= calculateDelay b.
Proof.
  intros Hab. unfold calculateDelay.
  apply Z.min_le_compat_r.
  apply Z.mul_le_mono_nonneg_l; [unfold INITIAL_DELAY; lia|].
  apply Z.pow_le_mono_r; lia.
Qed.

Lemma calculateDelay_bounded (a : N) :
  0 < calculateDelay a <= MAX_DELAY.
Proof.
  unfold calculateDelay, INITIAL_DELAY, MAX_DELAY.
  assert (0 < 2 ^ Z.of_N a) by (apply Z.pow_pos_nonneg; lia).
  lia.
Qed.

(** C8.  The delay computed for attempt counter [a] is
    [min(initial_delay * 2^a, max_delay)] with [initial_delay = 1000] ms and
    [max_delay = 60000] ms; the delays of consecutive attempts are
    non-decreasing and never exceed [max_delay]. *)
Theorem calculateDelay_backoff :
  forall a : N,
    calculateDelay a = spec_delay 1000 60000 a
    /\ calculateDelay a <= calculateDelay (a + 1)
    /\ calculateDelay a <= MAX_DELAY
    /\ MAX_DELAY = 60000.
Proof.
  intros a. split; [reflexivity|]. split; [|split].
  - apply calculateDelay_monotone. lia.
  - apply calculateDelay_bounded.
  - reflexivity.
Qed.

(* ================================================================== *)
(** * Rules of the program logic *)
(* ================================================================== *)

Section HandlerLogic.

Context {A B : Type}.
Implicit Types (P : Session -> Prop) (Qr : Reply -> Session -> Prop)
         (Qt : Session -> Prop).

Lemma triple_bind P (m : M A) (k : A -> M B) Qm Qv Qr Qt :
  triple P m Qm Qr Qt ->
  (forall a, triple (Qm a) (k a) Qv Qr Qt) ->
  triple P (bind m k) Qv Qr Qt.
Proof.
  intros Hm Hk s Hs. unfold bind. specialize (Hm s Hs).
  destruct (m s) as [[a|r|] s']; simpl in *;
    [apply Hk, Hm|assumption|assumption].
Qed.

Lemma triple_conseq P P' (m : M A) Qv Qv' Qr Qr' Qt Qt' :
  triple P' m Qv' Qr' Qt' ->
  (forall s, P s -> P' s) ->
  (forall a s, Qv' a s -> Qv a s) ->
  (forall r s, Qr' r s -> Qr r s) ->
  (forall s, Qt' s -> Qt s) ->
  triple P m Qv Qr Qt.
Proof.
  intros Hm HP Hv Hr Ht s Hs. specialize (Hm s (HP s Hs)).
  destruct (m s) as [[a|r|] s']; simpl in *; auto.
Qed.

Lemma triple_ret P (a : A) (Qv : A -> Session -> Prop) Qr Qt :
  (forall s, P s -> Qv a s) -> triple P (ret a) Qv Qr Qt.
Proof. intros H s Hs. simpl. auto. Qed.

Lemma triple_respond P (r : Reply) (Qv : A -> Session -> Prop) Qr Qt :
  (forall s, P s -> Qr r s) -> triple P (respond r) Qv Qr Qt.
Proof. intros H s Hs. simpl. auto. Qed.

Lemma triple_throw P (Qv : A -> Session -> Prop) Qr Qt :
  (forall s, P s -> Qt s) -> triple P throw Qv Qr Qt.
Proof. intros H s Hs. simpl. auto. Qed.

Lemma triple_try P (body handler : M A) Qv Qr Qt Qt' :
  triple P body Qv Qr Qt' ->
  triple Qt' handler Qv Qr Qt ->
  triple P (try_catch body handler) Qv Qr Qt.
Proof.
  intros Hb Hh s Hs. unfold try_catch. specialize (Hb s Hs).
  destruct (body s) as [[a|r|] s']; simpl in *;
    [assumption|assumption|apply Hh, Hb].
Qed.

(** A statement inside the open transaction writes the working copy only;
    if it throws, nothing was written. *)
Lemma triple_statement d w ef (run : DB -> option (A * DB)) Qr :
  triple (Open d w ef) (statement run)
         (fun a s => exists w', run w = Some (a, w') /\ Open d w' ef s)
         Qr
         (Open d w ef).
Proof.
  intros [v t fs ef0] (Hv & Ht & He). simpl in Hv, Ht, He. subst v t ef0.
  unfold statement, current, with_current. simpl.
  destruct fs as [|[|] fs]; simpl.
  - destruct (run w) as [[a w']|] eqn:E; simpl;
      [exists w'; split; [reflexivity|]|]; repeat split.
  - repeat split.
  - destruct (run w) as [[a w']|] eqn:E; simpl;
      [exists w'; split; [reflexivity|]|]; repeat split.
Qed.

Lemma triple_select d w ef (q : DB -> A) Qr :
  triple (Open d w ef) (select q)
         (fun a s => a = q w /\ Open d w ef s) Qr (Open d w ef).
Proof.
  unfold select.
  eapply triple_conseq; [apply (triple_statement d w ef)| | | |].
  - intros s H; exact H.
  - intros a s (w' & E & H). injection E as <- <-. split; [reflexivity|exact H].
  - intros r s H; exact H.
  - intros s H; exact H.
Qed.

End HandlerLogic.

Lemma triple_when P (c : bool) (m : M unit) Qv Qr Qt :
  (c = true -> triple P m Qv Qr Qt) ->
  (c = false -> forall s, P s -> Qv tt s) ->
  triple P (when c m) Qv Qr Qt.
Proof.
  intros Ht Hf. unfold when. destruct c; [auto|].
  apply triple_ret. auto.
Qed.

Lemma triple_BEGIN d ef Qr :
  triple (Closed d ef) BEGIN (fun _ => Open d d ef) Qr (Unchanged d).
Proof.
  intros [v t fs ef0] (Hv & Ht & He). simpl in Hv, Ht, He. subst v t ef0.
  unfold BEGIN, control, current. simpl.
  destruct fs as [|[|] fs]; simpl; try reflexivity; repeat split.
Qed.

Lemma triple_ROLLBACK d Qr :
  triple (Unchanged d) ROLLBACK
         (fun _ s => visible s = d /\ tx s = None) Qr (Unchanged d).
Proof.
  intros [v t fs ef] Hv. unfold Unchanged in Hv. simpl in Hv. subst v.
  unfold ROLLBACK, control. simpl.
  destruct fs as [|[|] fs]; simpl; try reflexivity; split; reflexivity.
Qed.

Lemma triple_COMMIT d w ef Qr :
  triple (Open d w ef) COMMIT (fun _ => Closed w ef) Qr (Unchanged d).
Proof.
  intros [v t fs ef0] (Hv & Ht & He). simpl in Hv, Ht, He. subst v t ef0.
  unfold COMMIT, control, current. simpl.
  destruct fs as [|[|] fs]; simpl; try reflexivity; repeat split.
Qed.

(** [process.nextTick] after the commit only queues the task. *)
Lemma triple_emit d ef e Qr Qt :
  triple (Closed d ef) (emit e) (fun _ => Closed d (ef ++ [e])) Qr Qt.
Proof.
  intros [v t fs ef0] (Hv & Ht & He). simpl in Hv, Ht, He. subst v t ef0.
  unfold emit. simpl. repeat split.
Qed.

(** [ROLLBACK] and a refusal: nothing becomes visible whether or not the
    [ROLLBACK] itself throws. *)
Lemma triple_abort d r P Qv (Qr : Reply -> Session -> Prop) :
  (forall s, Unchanged d s -> Qr r s) ->
  (forall s, P s -> Unchanged d s) ->
  triple P (abort r) Qv Qr (Unchanged d).
Proof.
  intros Hr HP. unfold abort.
  eapply triple_bind.
  - eapply triple_conseq; [apply (triple_ROLLBACK d)|exact HP| | |];
      [intros a s H; exact H|intros r' s H; exact H|auto].
  - intros u. apply triple_respond. intros s [Hv _]. apply Hr, Hv.
Qed.

(** The check [if (c) { ROLLBACK; return r }]: past it, [c] is false. *)
Lemma triple_check d (c : bool) r P (Qr : Reply -> Session -> Prop) :
  (forall s, Unchanged d s -> Qr r s) ->
  (forall s, P s -> Unchanged d s) ->
  triple P (when c (abort r)) (fun _ s => c = false /\ P s) Qr (Unchanged d).
Proof.
  intros Hr HP. apply triple_when.
  - intros _. apply triple_abort; assumption.
  - intros H s Hs. exact (conj H Hs).
Qed.

Lemma triple_exists {A X} (P : X -> Session -> Prop) (m : M A) Qv Qr Qt :
  (forall x, triple (P x) m Qv Qr Qt) ->
  triple (fun s => exists x, P x s) m Qv Qr Qt.
Proof. intros H s [x Hx]. eapply H, Hx. Qed.

(** A write inside the open transaction, as other connections see it. *)
Lemma triple_write {A} d w ef (run : DB -> option (A * DB)) Qr :
  triple (Open d w ef) (statement run)
         (fun a s => exists w', run w = Some (a, w') /\ Open d w' ef s)
         Qr (Unchanged d).
Proof.
  eapply triple_conseq; [apply (triple_statement d w ef)| | | |].
  - intros s H; exact H.
  - intros a s H; exact H.
  - intros r s H; exact H.
  - intros s [H _]; exact H.
Qed.

Lemma triple_pure {A} (F : Prop) P (m : M A) Qv Qr Qt :
  (F -> triple P m Qv Qr Qt) ->
  triple (fun s => F /\ P s) m Qv Qr Qt.
Proof. intros H s [HF HP]. apply H; assumption. Qed.

Lemma Open_Unchanged d w ef s : Open d w ef s -> Unchanged d s.
Proof. intros [H _]. exact H. Qed.

Create HintDb handlers.
#[local] Hint Resolve Open_Unchanged : handlers.

(* ================================================================== *)
(** * The create route is all-or-nothing *)
(* ================================================================== *)

Section CreateBookingSafety.

Variables (req_user : option uuid) (b : CreateBody) (now : timestamp)
          (new_id : uuid) (d : DB) (ef : list Effect).

Let Qr := Settled req_user b now d ef.

Lemma refusal_settled r s :
  (forall bk, r <> Created bk) -> Unchanged d s -> Qr r s.
Proof.
  intros Hr Hs. unfold Qr, Settled.
  destruct r; try exact Hs. exfalso. eapply Hr. reflexivity.
Qed.

(** A block that replies does so after [ROLLBACK], with a refusal. *)
Ltac refuse :=
  apply triple_abort;
  [ intros s' Hs'; apply refusal_settled; [intros bk; discriminate|exact Hs']
  | intros s' Hs'; eauto with handlers ].

Ltac checked :=
  apply triple_check;
  [ intros s' Hs'; apply refusal_settled; [intros bk; discriminate|exact Hs']
  | intros s' Hs'; eauto with handlers ].

Ltac last_check :=
  eapply triple_conseq with (P' := Open d d ef);
  [ checked
  | intros ? Hx; exact Hx
  |
  | intros ? ? Hx; exact Hx
  | intros ? Hx; exact Hx ].

Ltac fetch :=
  eapply triple_conseq; [apply (triple_select d d ef)| | | |];
  eauto with handlers.

Lemma check_required_safe :
  triple (Open d d ef) (check_required b)
         (fun _ s => required_ok b = true /\ Open d d ef s) Qr (Unchanged d).
Proof.
  unfold check_required.
  last_check.
  intros _ s [H Hs]. split; [|exact Hs]. unfold required_ok.
  rewrite !orb_false_iff, !negb_false_iff in H.
  destruct H as ((((-> & ->) & ->) & ->) & ->). reflexivity.
Qed.

Lemma check_phone_safe :
  triple (Open d d ef) (check_phone b)
         (fun _ s => phone_ok b = true /\ Open d d ef s) Qr (Unchanged d).
Proof.
  unfold check_phone.
  last_check.
  intros _ s [H Hs]. split; [|exact Hs].
  apply negb_false_iff in H. exact H.
Qed.

Lemma check_tenant_safe :
  triple (Open d d ef) (check_tenant b)
         (fun _ s => tenant_ok b d = true /\ Open d d ef s) Qr (Unchanged d).
Proof.
  unfold check_tenant, tenant_ok.
  eapply triple_bind; [fetch|].
  intros rows. apply triple_pure. intros ->.
  destruct (filter _ (tenants d)) as [|t rest]; [refuse|].
  last_check.
  intros _ s [H Hs]. split; [|exact Hs]. apply negb_false_iff in H. exact H.
Qed.

Lemma validate_lock_safe :
  triple (Open d d ef) (validate_lock req_user b now)
         (fun _ s => lock_ok req_user b now d = true /\ Open d d ef s)
         Qr (Unchanged d).
Proof.
  unfold validate_lock, lock_ok.
  destruct (truthy (body_lock_id b)).
  2:{ apply triple_ret. intros s Hs. split; [reflexivity|exact Hs]. }
  cbv zeta.
  eapply triple_bind; [checked|].
  intros ?. apply triple_pure. intros Hsess.
  apply negb_false_iff in Hsess. rewrite Hsess.
  eapply triple_bind; [fetch|].
  intros rows. apply triple_pure. intros ->.
  destruct (live_locks _ now d) as [|l rest]; [refuse|].
  eapply triple_bind; [checked|].
  intros ?. apply triple_pure. intros H1. apply negb_false_iff in H1.
  eapply triple_bind; [checked|].
  intros ?. apply triple_pure. intros H2. apply negb_false_iff in H2.
  last_check.
  intros _ s [H3 Hs]. apply negb_false_iff in H3.
  split; [|exact Hs]. rewrite H1, H2, H3. reflexivity.
Qed.

Lemma check_slot_safe :
  triple (Open d d ef) (check_slot b)
         (fun _ s => slot_ok b d = true /\ Open d d ef s) Qr (Unchanged d).
Proof.
  unfold check_slot, slot_ok.
  eapply triple_bind; [fetch|].
  intros rows. apply triple_pure. intros ->.
  destruct (slot_rows b d) as [|sl rest]; [refuse|].
  eapply triple_bind; [checked|].
  intros ?. apply triple_pure. intros H1. apply negb_false_iff in H1.
  last_check.
  intros _ s [H2 Hs]. split; [|exact Hs]. rewrite H1. simpl.
  apply Z.leb_le. apply Z.ltb_ge in H2. exact H2.
Qed.

Lemma validate_offer_safe :
  triple (Open d d ef) (validate_offer b)
         (fun _ s => offer_ok b d = true /\ Open d d ef s) Qr (Unchanged d).
Proof.
  unfold validate_offer, offer_ok.
  destruct (truthy (body_offer_id b)).
  2:{ apply triple_ret. intros s Hs. split; [reflexivity|exact Hs]. }
  eapply triple_bind; [fetch|].
  intros rows. apply triple_pure. intros ->.
  destruct (filter _ (service_offers d)) as [|o rest]; [refuse|].
  last_check.
  intros _ s [H Hs]. split; [|exact Hs]. apply negb_false_iff in H. exact H.
Qed.

Lemma check_head_count_safe :
  triple (Open d d ef) (check_head_count b)
         (fun _ s => head_count_ok b = true /\ Open d d ef s) Qr (Unchanged d).
Proof.
  unfold check_head_count, head_count_ok.
  last_check.
  intros _ s [H Hs]. split; [|exact Hs]. apply negb_false_iff in H. exact H.
Qed.

Lemma insert_booking_row p rows w :
  insert_booking req_user b p new_id d = Some (rows, w) ->
  exists price,
    rows = [new_booking req_user b p price new_id]
    /\ w = set_bookings d (bookings d ++ rows).
Proof.
  unfold insert_booking.
  destruct (body_total_price b) as [price|]; [|discriminate].
  destruct (_ && _); [|discriminate].
  intros H. injection H as <- <-. exists price. split; reflexivity.
Qed.

Lemma write_booking_safe :
  admissible req_user b now d = true ->
  triple (Open d d ef) (write_booking req_user b new_id)
         (fun _ _ => False) Qr (Unchanged d).
Proof.
  intros Hadm. unfold write_booking.
  eapply triple_bind; [apply triple_write|].
  intros rows. apply triple_exists. intros w. apply triple_pure. intros Hins.
  destruct (insert_booking_row _ _ _ Hins) as (price & -> & ->).
  set (row := new_booking req_user b _ price new_id).
  eapply triple_bind with (Qm := fun _ => Open d (after_create b row d) ef).
  { unfold after_create.
    destruct (truthy (body_lock_id b)).
    - eapply triple_conseq; [apply triple_write| | | |].
      + intros s H; exact H.
      + intros a s (w' & E & H). unfold delete_lock in E.
        apply some_eq in E. inversion E; subst w'. exact H.
      + intros r s H; exact H.
      + intros s H; exact H.
    - apply triple_ret. intros s H. exact H. }
  intros ?.
  eapply triple_bind; [apply triple_COMMIT|].
  intros ?.
  assert (Hphone : truthy_js (normalizedPhone b) = true).
  { unfold admissible in Hadm. rewrite !andb_true_iff in Hadm.
    unfold phone_ok in Hadm. tauto. }
  rewrite Hphone. simpl orb. unfold when.
  eapply triple_bind; [apply triple_emit|].
  intros ?.
  eapply triple_bind; [apply triple_emit|].
  intros ?.
  apply triple_respond. intros s Hs.
  unfold Qr, Settled. split; [exact Hadm|].
  rewrite <- app_assoc in Hs. exact Hs.
Qed.

Lemma createBooking_settles :
  triple (Closed d ef) (createBooking req_user b now new_id)
         (fun _ _ => False) Qr (Unchanged d).
Proof.
  unfold createBooking.
  apply triple_try with (Qt' := Unchanged d).
  2:{ apply triple_abort; [|auto].
      intros s Hs. apply refusal_settled; [intros bk; discriminate|exact Hs]. }
  eapply triple_bind; [apply triple_BEGIN|]. intros ?.
  eapply triple_bind; [apply check_required_safe|].
  intros ?. apply triple_pure. intros H1.
  eapply triple_bind; [apply check_phone_safe|].
  intros ?. apply triple_pure. intros H2.
  eapply triple_bind; [apply check_tenant_safe|].
  intros ?. apply triple_pure. intros H3.
  eapply triple_bind; [apply validate_lock_safe|].
  intros ?. apply triple_pure. intros H4.
  eapply triple_bind; [apply check_slot_safe|].
  intros ?. apply triple_pure. intros H5.
  eapply triple_bind; [apply validate_offer_safe|].
  intros ?. apply triple_pure. intros H6.
  eapply triple_bind; [apply check_head_count_safe|].
  intros ?. apply triple_pure. intros H7.
  apply write_booking_safe.
  unfold admissible. rewrite H1, H2, H3, H4, H5, H6, H7. reflexivity.
Qed.

End CreateBookingSafety.

(** C1.  Whatever a [createBooking] request contains and whichever
    statements throw, either the reply is the 201 and then every validation
    step passed, exactly one booking row was appended, the presented lock
    (if any) was deleted and the transaction is closed; or the request
    failed and the committed tables are exactly what they were: no booking
    row inserted, no lock row deleted. *)
Theorem createBooking_all_or_nothing :
  forall (req_user : option uuid) (b : CreateBody) (now : timestamp)
         (new_id : uuid) (fs : list bool) (ef : list Effect) (d : DB),
    let r := run_handler (createBooking req_user b now new_id)
                         (mkSession d None fs ef) in
    match fst r with
    | Responded (Created bk) =>
      admissible req_user b now d = true
      /\ visible (snd r) = after_create b bk d
      /\ bookings (visible (snd r)) = bookings d ++ [bk]
      /\ booking_locks (visible (snd r)) =
         (if truthy (body_lock_id b)
          then filter (fun l => negb (lock_id l =? string_of (body_lock_id b))%string)
                      (booking_locks d)
          else booking_locks d)
      /\ tx (snd r) = None
    | _ => visible (snd r) = d
    end.
Proof.
  intros req_user b now new_id fs ef d r. subst r. unfold run_handler.
  pose proof (createBooking_settles req_user b now new_id d ef
                (mkSession d None fs ef)
                (conj eq_refl (conj eq_refl eq_refl))) as H.
  destruct (createBooking req_user b now new_id (mkSession d None fs ef))
    as [[[]|r|] s']; simpl in *.
  - contradiction.
  - unfold Settled in H. destruct r; try exact H.
    destruct H as (Ha & Hv & Ht & He). rewrite Hv. repeat split; auto.
  - exact H.
Qed.


(* ================================================================== *)
(** * Running the create route when no statement throws *)
(* ================================================================== *)

Lemma bind_val {A B} (m : M A) (k : A -> M B) s a s' :
  m s = (Val a, s') -> bind m k s = k a s'.
Proof. intros H. unfold bind. rewrite H. reflexivity. Qed.

Lemma bind_ret {A B} (m : M A) (k : A -> M B) s r s' :
  m s = (Ret r, s') -> bind m k s = (Ret r, s').
Proof. intros H. unfold bind. rewrite H. reflexivity. Qed.

Lemma select_run {A} (q : DB -> A) d w ef :
  select q (mkSession d (Some w) [] ef) = (Val (q w), mkSession d (Some w) [] ef).
Proof. reflexivity. Qed.

Lemma query_run {A} (q : DB -> A) d ef :
  select q (mkSession d None [] ef) = (Val (q d), mkSession d None [] ef).
Proof. reflexivity. Qed.

Lemma write_run {A} (run : DB -> option (A * DB)) d w a w' ef :
  run w = Some (a, w') ->
  statement run (mkSession d (Some w) [] ef)
  = (Val a, mkSession d (Some w') [] ef).
Proof.
  intros H. unfold statement, current, with_current.
  cbn [faults tx visible effects tl]. rewrite H. reflexivity.
Qed.

Lemma try_ret {A} (body handler : M A) s r s' :
  body s = (Ret r, s') -> try_catch body handler s = (Ret r, s').
Proof. intros H. unfold try_catch. rewrite H. reflexivity. Qed.

Section CreateBookingRuns.

Variables (req_user : option uuid) (b : CreateBody) (now : timestamp)
          (new_id : uuid) (d : DB) (ef : list Effect).

(** The session inside the transaction, before any write. *)
Let inTx := mkSession d (Some d) [] ef.
(** The session after a [ROLLBACK]. *)
Let rolledBack := mkSession d None [] ef.

Lemma abort_run r : abort r inTx = (Ret r, rolledBack).
Proof. reflexivity. Qed.

Lemma check_required_pass :
  required_ok b = true -> check_required b inTx = (Val tt, inTx).
Proof.
  unfold required_ok, check_required. rewrite !andb_true_iff.
  intros ((((-> & ->) & ->) & ->) & ->). reflexivity.
Qed.

Lemma check_phone_pass :
  phone_ok b = true -> check_phone b inTx = (Val tt, inTx).
Proof. unfold phone_ok, check_phone. intros ->. reflexivity. Qed.

Lemma check_tenant_pass :
  tenant_ok b d = true -> check_tenant b inTx = (Val tt, inTx).
Proof.
  unfold tenant_ok, check_tenant. intros H.
  erewrite bind_val by apply select_run.
  destruct (filter _ (tenants d)) as [|t rest]; [discriminate|].
  rewrite H. reflexivity.
Qed.

Lemma validate_lock_pass :
  lock_ok req_user b now d = true ->
  validate_lock req_user b now inTx = (Val tt, inTx).
Proof.
  unfold lock_ok, validate_lock.
  destruct (truthy (body_lock_id b)); [|reflexivity].
  rewrite andb_true_iff. intros [Hs Hl]. cbv zeta. rewrite Hs.
  erewrite bind_val by reflexivity.
  erewrite bind_val by apply select_run.
  destruct (live_locks _ now d) as [|l rest]; [discriminate|].
  rewrite !andb_true_iff in Hl. destruct Hl as ((-> & ->) & ->).
  reflexivity.
Qed.

Lemma check_slot_pass :
  slot_ok b d = true -> check_slot b inTx = (Val tt, inTx).
Proof.
  unfold slot_ok, check_slot. intros H.
  erewrite bind_val by apply select_run.
  destruct (slot_rows b d) as [|sl rest]; [discriminate|].
  apply andb_true_iff in H as [-> H]. apply Z.leb_le in H.
  apply Z.ltb_ge in H. simpl. unfold bind at 1. simpl.
  rewrite H. reflexivity.
Qed.

Lemma validate_offer_pass :
  offer_ok b d = true -> validate_offer b inTx = (Val tt, inTx).
Proof.
  unfold offer_ok, validate_offer.
  destruct (truthy (body_offer_id b)); [|reflexivity]. intros H.
  erewrite bind_val by apply select_run.
  destruct (filter _ (service_offers d)) as [|o rest]; [discriminate|].
  rewrite H. reflexivity.
Qed.

Lemma check_head_count_pass :
  head_count_ok b = true -> check_head_count b inTx = (Val tt, inTx).
Proof. unfold head_count_ok, check_head_count. intros ->. reflexivity. Qed.

Lemma run_to_lock_check (k : M unit) :
  passes_preliminaries b d = true ->
  (BEGIN ;; check_required b ;; check_phone b ;; check_tenant b ;; k)
    (mkSession d None [] ef)
  = k inTx.
Proof.
  unfold passes_preliminaries. rewrite !andb_true_iff.
  intros ((H1 & H2) & H3).
  erewrite bind_val by reflexivity.
  erewrite bind_val by (apply check_required_pass; assumption).
  erewrite bind_val by (apply check_phone_pass; assumption).
  erewrite bind_val by (apply check_tenant_pass; assumption).
  reflexivity.
Qed.

Lemma no_live_lock lock :
  (forall l, In l (booking_locks d) -> lock_id l = lock ->
             ~ now < lock_expires_at l) ->
  live_locks lock now d = [].
Proof.
  intros H. unfold live_locks.
  induction (booking_locks d) as [|l ls IH]; [reflexivity|]. simpl.
  destruct ((lock_id l =? lock)%string && (now <? lock_expires_at l)) eqn:E.
  - apply andb_true_iff in E as [E1 E2].
    apply String.eqb_eq in E1. apply Z.ltb_lt in E2.
    exfalso. apply (H l); [left; reflexivity|assumption|assumption].
  - apply IH. intros l' Hl'. apply H. right. exact Hl'.
Qed.

(** With a lock id and a session, the lock row decides how the lock
    validation ends. *)
Lemma validate_lock_run :
  truthy (body_lock_id b) = true ->
  truthy (js_or req_user (body_session_id b)) = true ->
  validate_lock req_user b now inTx
  = match live_locks (string_of (body_lock_id b)) now d with
    | [] => (Ret LockExpiredOrInvalid, rolledBack)
    | l :: _ =>
      if negb (reserved_by_session_id l
                 =? string_of (js_or req_user (body_session_id b)))%string
      then (Ret SessionMismatch, rolledBack)
      else if negb (lock_slot_id l =? string_of (body_slot_id b))%string
      then (Ret SlotMismatch, rolledBack)
      else if negb (reserved_capacity l =? req_visitor_count b)
      then (Ret QuantityMismatch, rolledBack)
      else (Val tt, inTx)
    end.
Proof.
  intros Hlock Hsess. unfold validate_lock. rewrite Hlock. cbv zeta.
  rewrite Hsess.
  erewrite bind_val by reflexivity.
  erewrite bind_val by apply select_run.
  destruct (live_locks _ now d) as [|l rest]; [reflexivity|].
  destruct (reserved_by_session_id l =? _)%string; [|reflexivity].
  destruct (lock_slot_id l =? _)%string; [|reflexivity].
  destruct (reserved_capacity l =? _); reflexivity.
Qed.

Lemma refused_at_lock r :
  passes_preliminaries b d = true ->
  validate_lock req_user b now inTx = (Ret r, rolledBack) ->
  run_handler (createBooking req_user b now new_id) (mkSession d None [] ef)
  = (Responded r, rolledBack).
Proof.
  intros Hpre Hv. unfold run_handler, createBooking.
  erewrite try_ret; [reflexivity|].
  rewrite (run_to_lock_check _ Hpre).
  apply bind_ret. exact Hv.
Qed.

Lemma check_slot_short sl rest :
  slot_rows b d = sl :: rest ->
  is_available sl = true ->
  available_capacity sl < req_visitor_count b ->
  check_slot b inTx
  = (Ret (InsufficientCapacity (available_capacity sl) (req_visitor_count b)),
     rolledBack).
Proof.
  intros Hrows Hav Hlt. unfold check_slot.
  erewrite bind_val by apply select_run.
  rewrite Hrows, Hav. apply Z.ltb_lt in Hlt. rewrite Hlt. reflexivity.
Qed.

Lemma refused_at_slot r :
  passes_preliminaries b d = true ->
  lock_ok req_user b now d = true ->
  check_slot b inTx = (Ret r, rolledBack) ->
  run_handler (createBooking req_user b now new_id) (mkSession d None [] ef)
  = (Responded r, rolledBack).
Proof.
  intros Hpre Hlock Hv. unfold run_handler, createBooking.
  erewrite try_ret; [reflexivity|].
  rewrite (run_to_lock_check _ Hpre).
  erewrite bind_val by (apply validate_lock_pass; assumption).
  apply bind_ret. exact Hv.
Qed.

(** The request that the 201 answers: an admissible request whose row
    satisfies the column constraints of [bookings]. *)
Lemma write_booking_run price :
  phone_ok b = true ->
  body_total_price b = Some price ->
  0 < req_visitor_count b -> 0 <= finalAdultCount b ->
  0 <= finalChildCount b -> 0 <= price ->
  let row := new_booking req_user b
               (match normalizedPhone b with Some p => p | None => [] end)
               price new_id in
  write_booking req_user b new_id inTx
  = (Ret (Created row),
     mkSession (after_create b row d) None []
               (ef ++ [NextTickInvoice new_id; NextTickTicket new_id])).
Proof.
  intros Hphone Hprice Hv Ha Hc Hp row.
  assert (Hins : insert_booking req_user b
                   (match normalizedPhone b with Some p => p | None => [] end)
                   new_id d
                 = Some ([row], set_bookings d (bookings d ++ [row]))).
  { unfold insert_booking. rewrite Hprice. fold row. simpl.
    apply Z.ltb_lt in Hv. apply Z.leb_le in Ha, Hc, Hp.
    rewrite Hv, Ha, Hc, Hp. reflexivity. }
  unfold write_booking, phone_ok in *. rewrite Hphone.
  erewrite bind_val by (apply write_run; exact Hins).
  unfold after_create.
  change (ef ++ [NextTickInvoice new_id; NextTickTicket new_id])
    with (ef ++ [NextTickInvoice new_id] ++ [NextTickTicket new_id]).
  rewrite app_assoc.
  destruct (truthy (body_lock_id b)); reflexivity.
Qed.

Lemma createBooking_succeeds price :
  admissible req_user b now d = true ->
  body_total_price b = Some price ->
  0 < req_visitor_count b -> 0 <= finalAdultCount b ->
  0 <= finalChildCount b -> 0 <= price ->
  let row := new_booking req_user b
               (match normalizedPhone b with Some p => p | None => [] end)
               price new_id in
  run_handler (createBooking req_user b now new_id) (mkSession d None [] ef)
  = (Responded (Created row),
     mkSession (after_create b row d) None []
               (ef ++ [NextTickInvoice new_id; NextTickTicket new_id])).
Proof.
  intros Hadm Hprice Hv Ha Hc Hp row.
  unfold admissible in Hadm. rewrite !andb_true_iff in Hadm.
  destruct Hadm as ((((((H1 & H2) & H3) & H4) & H5) & H6) & H7).
  unfold run_handler, createBooking.
  erewrite try_ret; [reflexivity|].
  rewrite run_to_lock_check
    by (unfold passes_preliminaries; rewrite H1, H2, H3; reflexivity).
  erewrite bind_val by (apply validate_lock_pass; assumption).
  erewrite bind_val by (apply check_slot_pass; assumption).
  erewrite bind_val by (apply validate_offer_pass; assumption).
  erewrite bind_val by (apply check_head_count_pass; assumption).
  apply write_booking_run; assumption.
Qed.

End CreateBookingRuns.

(** C6.  A [createBooking] request that supplies a lock id fails with
    LockExpiredOrInvalid when no lock with that id has [expires_at > now()],
    with SessionMismatch when the lock's owning session differs from the
    caller's, and with SlotMismatch or QuantityMismatch when the lock's slot
    or reserved capacity differ from the request's; each time the
    transaction is rolled back with nothing written. *)
Theorem createBooking_lock_checks :
  forall (req_user : option uuid) (b : CreateBody) (now : timestamp)
         (new_id : uuid) (ef : list Effect) (d : DB),
    passes_preliminaries b d = true ->
    truthy (body_lock_id b) = true ->
    truthy (js_or req_user (body_session_id b)) = true ->
    let session := string_of (js_or req_user (body_session_id b)) in
    let out := run_handler (createBooking req_user b now new_id)
                           (mkSession d None [] ef) in
    let untouched := mkSession d None [] ef in
    ((forall l, In l (booking_locks d) ->
                lock_id l = string_of (body_lock_id b) ->
                ~ now < lock_expires_at l) ->
     out = (Responded LockExpiredOrInvalid, untouched))
    /\ (forall l rest,
          live_locks (string_of (body_lock_id b)) now d = l :: rest ->
          (reserved_by_session_id l <> session ->
           out = (Responded SessionMismatch, untouched))
          /\ (reserved_by_session_id l = session ->
              lock_slot_id l <> string_of (body_slot_id b) ->
              out = (Responded SlotMismatch, untouched))
          /\ (reserved_by_session_id l = session ->
              lock_slot_id l = string_of (body_slot_id b) ->
              reserved_capacity l <> req_visitor_count b ->
              out = (Responded QuantityMismatch, untouched))).
Proof.
  intros req_user b now new_id ef d Hpre Hlock Hsess session out untouched.
  subst out untouched.
  pose proof (validate_lock_run req_user b now d ef Hlock Hsess) as Hrun.
  fold session in Hrun.
  split.
  - intros Hnone. apply refused_at_lock; [assumption|].
    rewrite Hrun, (no_live_lock now d _ Hnone). reflexivity.
  - intros l rest Hl. rewrite Hl in Hrun.
    split; [|split].
    + intros Hne. apply refused_at_lock; [assumption|].
      apply String.eqb_neq in Hne. rewrite Hrun, Hne. reflexivity.
    + intros He Hne. apply refused_at_lock; [assumption|].
      apply String.eqb_eq in He. apply String.eqb_neq in Hne.
      rewrite Hrun, He, Hne. reflexivity.
    + intros He1 He2 Hne. apply refused_at_lock; [assumption|].
      apply String.eqb_eq in He1, He2. apply Z.eqb_neq in Hne.
      rewrite Hrun, He1, He2, Hne. reflexivity.
Qed.


(** C6 at a concrete request: session A presents its lock [L1] eighty
    seconds after it expired. *)
Lemma createBooking_lock_checks_witness :
  passes_preliminaries Sample.locked_request Sample.db = true
  /\ run_handler (createBooking None Sample.locked_request 200000 "b-new"%string)
                 (idle Sample.db)
     = (Responded LockExpiredOrInvalid, idle Sample.db).
Proof.
  split; [reflexivity|].
  refine (proj1 (createBooking_lock_checks None Sample.locked_request 200000
                   "b-new"%string [] Sample.db eq_refl eq_refl eq_refl) _).
  intros l [<-|[]] _. simpl. lia.
Defined.

(** C2.  When the slot row read under [FOR UPDATE] has fewer available
    places than the request's [visitor_count], no booking is written,
    whatever else the request contains and whichever statements throw; and
    when the request got as far as the slot check (also with a lock that
    was presented and validated) on a slot flagged available, the reply is
    InsufficientCapacity.  The check is not skipped because a lock exists. *)
Theorem createBooking_final_capacity_check :
  forall (req_user : option uuid) (b : CreateBody) (now : timestamp)
         (new_id : uuid) (ef : list Effect) (d : DB) (sl : Slot)
         (rest : list Slot),
    slot_rows b d = sl :: rest ->
    available_capacity sl < req_visitor_count b ->
    (forall fs,
        let out := run_handler (createBooking req_user b now new_id)
                               (mkSession d None fs ef) in
        (forall bk, fst out <> Responded (Created bk))
        /\ visible (snd out) = d)
    /\ (passes_preliminaries b d = true ->
        lock_ok req_user b now d = true ->
        is_available sl = true ->
        run_handler (createBooking req_user b now new_id)
                    (mkSession d None [] ef)
        = (Responded (InsufficientCapacity (available_capacity sl)
                                           (req_visitor_count b)),
           mkSession d None [] ef)).
Proof.
  intros req_user b now new_id ef d sl rest Hrows Hlt. split.
  - intros fs out. subst out. unfold run_handler.
    pose proof (createBooking_settles req_user b now new_id d ef
                  (mkSession d None fs ef)
                  (conj eq_refl (conj eq_refl eq_refl))) as H.
    destruct (createBooking req_user b now new_id (mkSession d None fs ef))
      as [[[]|r|] s']; simpl in *.
    + contradiction.
    + unfold Settled in H.
      destruct r; try (split; [intros bk; discriminate|exact H]).
      exfalso. destruct H as [Hadm _].
      unfold admissible in Hadm. rewrite !andb_true_iff in Hadm.
      destruct Hadm as (((_ & Hslot) & _) & _).
      unfold slot_ok in Hslot. rewrite Hrows in Hslot.
      apply andb_true_iff in Hslot as [_ Hle]. apply Z.leb_le in Hle. lia.
    + split; [intros bk; discriminate|exact H].
  - intros Hpre Hlock Hav.
    apply refused_at_slot; [assumption|assumption|].
    apply check_slot_short with (rest := rest); assumption.
Qed.

(** C2 at a concrete request: session A presents its live lock [L1] for the
    two places of [s1], whose [available_capacity] is 0. *)
Lemma createBooking_final_capacity_check_witness :
  lock_ok None Sample.locked_request 1000 Sample.db = true
  /\ run_handler (createBooking None Sample.locked_request 1000 "b-new"%string)
                 (idle Sample.db)
     = (Responded (InsufficientCapacity 0 2), idle Sample.db).
Proof.
  split; [reflexivity|].
  refine (proj2 (createBooking_final_capacity_check None Sample.locked_request
                   1000 "b-new"%string [] Sample.db Sample.held_slot
                   [] eq_refl _) eq_refl eq_refl eq_refl).
  reflexivity.
Defined.

(* ================================================================== *)
(** * After the commit: the invoice attempt *)
(* ================================================================== *)

Lemma invoiceTask_only_logs (outcome : ReceiptOutcome) (s : Session) :
  exists log, invoiceTask outcome s = (Val log, s).
Proof. destruct outcome; eexists; reflexivity. Qed.

(** C5 as stated fails: a direct booking of one place in [s2] commits, and
    afterwards [queue_jobs] holds no job for the new booking. *)
Lemma createBooking_enqueues_retry_job_counterexample :
  let out := run_handler (createBooking None Sample.direct_request 1000
                                        "b-new"%string)
                         (idle Sample.db) in
  (exists bk, fst out = Responded (Created bk)
              /\ booking_id bk = "b-new"%string)
  /\ ~ (exists j, In j (queue_jobs (visible (snd out)))
                  /\ payload_booking_id j = "b-new"%string).
Proof.
  split.
  - eexists. split; reflexivity.
  - intros (j & [<-|[]] & Hj). discriminate Hj.
Qed.

(** C5, amended.  A booking that commits leaves [queue_jobs] as it was: no
    RetryJob is enqueued.  After the commit, outside the transaction, the
    handler hands two tasks to [process.nextTick]: one direct call of the
    invoicing collaborator and the ticket dispatch.  Whatever that call
    answers (success, failure or an exception) the task only logs: it does
    not throw, and it leaves the committed booking and the reply alone. *)
Theorem createBooking_defers_invoice_attempt :
  forall (req_user : option uuid) (b : CreateBody) (now : timestamp)
         (new_id : uuid) (fs : list bool) (ef : list Effect) (d : DB)
         (bk : Booking),
    let out := run_handler (createBooking req_user b now new_id)
                           (mkSession d None fs ef) in
    fst out = Responded (Created bk) ->
    queue_jobs (visible (snd out)) = queue_jobs d
    /\ In bk (bookings (visible (snd out)))
    /\ tx (snd out) = None
    /\ effects (snd out)
       = ef ++ [NextTickInvoice (booking_id bk); NextTickTicket (booking_id bk)]
    /\ forall outcome : ReceiptOutcome,
         exists log, invoiceTask outcome (snd out) = (Val log, snd out).
Proof.
  intros req_user b now new_id fs ef d bk out Hout. subst out.
  unfold run_handler in *.
  pose proof (createBooking_settles req_user b now new_id d ef
                (mkSession d None fs ef)
                (conj eq_refl (conj eq_refl eq_refl))) as H.
  destruct (createBooking req_user b now new_id (mkSession d None fs ef))
    as [[[]|r|] s']; simpl in *; try discriminate Hout.
  injection Hout as ->. unfold Settled in H.
  destruct H as (_ & Hv & Ht & He). rewrite Hv.
  split; [reflexivity|]. split.
  { simpl. apply in_or_app. right. left. reflexivity. }
  split; [exact Ht|]. split; [exact He|].
  intros outcome. apply invoiceTask_only_logs.
Qed.

Lemma createBooking_defers_invoice_attempt_witness :
  let out := run_handler (createBooking None Sample.direct_request 1000
                                        "b-new"%string)
                         (idle Sample.db) in
  queue_jobs (visible (snd out)) = [Sample.receipt_job]
  /\ effects (snd out)
     = [NextTickInvoice "b-new"%string; NextTickTicket "b-new"%string].
Proof.
  pose proof (createBooking_defers_invoice_attempt None Sample.direct_request
                1000 "b-new"%string [] [] Sample.db _ eq_refl) as H.
  split; [exact (proj1 H)|exact (proj1 (proj2 (proj2 (proj2 H))))].
Defined.

(* ================================================================== *)
(** * Releasing and reaping locks *)
(* ================================================================== *)

Lemma set_booking_locks_same d : set_booking_locks d (booking_locks d) = d.
Proof. destruct d; reflexivity. Qed.

Lemma same_but_locks_set d l : same_but_locks d (set_booking_locks d l).
Proof. repeat split. Qed.

Lemma same_but_locks_refl d : same_but_locks d d.
Proof. repeat split. Qed.

Lemma filter_all {A} (f : A -> bool) (l : list A) :
  (forall x, In x l -> f x = true) -> filter f l = l.
Proof.
  induction l as [|a l IH]; intros H; simpl; [reflexivity|].
  rewrite (H a (or_introl eq_refl)). f_equal. apply IH.
  intros x Hx. apply H. right. exact Hx.
Qed.

Lemma owned_by_spec lock session l :
  owned_by lock session l = true
  <-> lock_id l = lock /\ reserved_by_session_id l = session.
Proof.
  unfold owned_by. rewrite andb_true_iff, !String.eqb_eq. tauto.
Qed.

(** C4 as stated fails: session A releases its lock [L1]; the row goes, but
    slot [s1] keeps [available_capacity = 0] instead of getting the two
    reserved places back. *)
Lemma releaseLock_returns_capacity_counterexample :
  let out := run_handler (releaseLock None "L1"%string (Some "A"%string))
                         (idle Sample.db) in
  fst out = Responded LockReleased
  /\ booking_locks (visible (snd out)) = []
  /\ slots (visible (snd out)) = [Sample.held_slot; Sample.free_slot]
  /\ available_capacity (spec_release 2 Sample.held_slot) = 2
  /\ slots (visible (snd out))
     <> [spec_release 2 Sample.held_slot; Sample.free_slot].
Proof.
  repeat split. intros H. discriminate H.
Qed.

(** C4, amended.  [releaseLock(lockId, sessionId)] deletes exactly the lock
    rows whose id and owning session both match, replies 200 when there was
    one and 404 with no state change when there was none; no other table is
    written, so the slot's available capacity stays what it was. *)
Theorem releaseLock_deletes_owned_lock_only :
  forall (req_user : option uuid) (lock : uuid) (body_session : option string)
         (ef : list Effect) (d : DB),
    truthy (js_or req_user body_session) = true ->
    let session := string_of (js_or req_user body_session) in
    let owned l := lock_id l = lock /\ reserved_by_session_id l = session in
    let out := run_handler (releaseLock req_user lock body_session)
                           (mkSession d None [] ef) in
    (forall l, In l (booking_locks (visible (snd out)))
               <-> In l (booking_locks d) /\ ~ owned l)
    /\ (forall fs,
          same_but_locks d
            (visible (snd (run_handler (releaseLock req_user lock body_session)
                                       (mkSession d None fs ef)))))
    /\ ((exists l, In l (booking_locks d) /\ owned l) ->
        fst out = Responded LockReleased)
    /\ ((forall l, In l (booking_locks d) -> ~ owned l) ->
        out = (Responded LockNotFound, mkSession d None [] ef)).
Proof.
  intros req_user lock body_session ef d Hs session owned out.
  assert (Hrun : forall fs,
    run_handler (releaseLock req_user lock body_session) (mkSession d None fs ef)
    = match fs with
      | true :: fs' => (Responded InternalError, mkSession d None fs' ef)
      | _ =>
        (Responded
           (if (List.length (filter (owned_by lock session) (booking_locks d))
                =? 0)%nat
            then LockNotFound else LockReleased),
         mkSession
           (set_booking_locks d
              (filter (fun l => negb (owned_by lock session l))
                      (booking_locks d)))
           None (tl fs) ef)
      end).
  { intros fs. unfold run_handler, releaseLock, try_catch. cbv zeta.
    rewrite Hs. fold session.
    erewrite bind_val by reflexivity.
    unfold bind at 1, statement, delete_owned_lock, current, with_current.
    simpl faults. simpl tx.
    destruct fs as [|[|] fs']; simpl; try reflexivity;
      rewrite length_map;
      destruct (List.length (filter (owned_by lock session) (booking_locks d)));
      reflexivity. }
  split; [|split; [|split]].
  - intros l. subst out. rewrite (Hrun []). simpl.
    rewrite filter_In, negb_true_iff, <- not_true_iff_false, owned_by_spec.
    reflexivity.
  - intros fs. rewrite (Hrun fs).
    destruct fs as [|[|] fs']; simpl;
      auto using same_but_locks_set, same_but_locks_refl.
  - intros (l & Hin & Hl). subst out. rewrite (Hrun []). simpl.
    apply owned_by_spec in Hl.
    assert (Hf : In l (filter (owned_by lock session) (booking_locks d)))
      by (apply filter_In; auto).
    destruct (filter (owned_by lock session) (booking_locks d));
      [destruct Hf|reflexivity].
  - intros Hnone. subst out. rewrite (Hrun []). simpl.
    assert (Hf : filter (owned_by lock session) (booking_locks d) = []).
    { destruct (filter (owned_by lock session) (booking_locks d)) as [|l ls] eqn:E;
        [reflexivity|].
      assert (Hl : In l (filter (owned_by lock session) (booking_locks d)))
        by (rewrite E; left; reflexivity).
      apply filter_In in Hl as [Hin Hl]. apply owned_by_spec in Hl.
      exfalso. exact (Hnone l Hin Hl). }
    rewrite Hf. simpl. rewrite filter_all, set_booking_locks_same; [reflexivity|].
    intros l Hin. apply negb_true_iff, not_true_iff_false.
    rewrite owned_by_spec. apply Hnone, Hin.
Qed.

Lemma releaseLock_deletes_owned_lock_only_witness :
  truthy (js_or None (Some "A"%string)) = true
  /\ run_handler (releaseLock None "L9"%string (Some "A"%string))
                 (idle Sample.db)
     = (Responded LockNotFound, idle Sample.db).
Proof.
  split; [reflexivity|].
  refine (proj2 (proj2 (proj2
           (releaseLock_deletes_owned_lock_only None "L9"%string
              (Some "A"%string) [] Sample.db eq_refl))) _).
  intros l [<-|[]] [H _]. discriminate H.
Defined.

(** C3 as stated fails: the sweep at 200 s deletes the expired lock [L1],
    and slot [s1] keeps [available_capacity = 0]: the two reserved places
    are not returned. *)
Lemma cleanupExpiredLocks_returns_capacity_counterexample :
  let s' := snd (cleanupExpiredLocks 200000 (idle Sample.db)) in
  booking_locks (visible s') = []
  /\ slots (visible s') = [Sample.held_slot; Sample.free_slot]
  /\ available_capacity (spec_release 2 Sample.held_slot) = 2
  /\ slots (visible s')
     <> [spec_release 2 Sample.held_slot; Sample.free_slot].
Proof.
  repeat split. intros H. discriminate H.
Qed.

(** C3, amended.  A sweep cycle deletes exactly the lock rows with
    [expires_at <= now()] and writes no other table, so no slot's available
    capacity changes; a cycle whose [DELETE] throws changes nothing. *)
Theorem cleanupExpiredLocks_deletes_expired_rows_only :
  forall (now : timestamp) (fs : list bool) (ef : list Effect) (d : DB),
    let s' := snd (cleanupExpiredLocks now (mkSession d None fs ef)) in
    same_but_locks d (visible s')
    /\ (hd false fs = true -> visible s' = d)
    /\ (hd false fs = false ->
        forall l, In l (booking_locks (visible s'))
                  <-> In l (booking_locks d) /\ now < lock_expires_at l).
Proof.
  intros now fs ef d s'. subst s'.
  unfold cleanupExpiredLocks, try_catch, bind, statement, delete_expired_locks,
    current, with_current.
  destruct fs as [|[|] fs']; simpl.
  - split; [apply same_but_locks_set|]. split; [discriminate|].
    intros _ l. rewrite filter_In. unfold expired.
    rewrite negb_true_iff, Z.leb_gt. reflexivity.
  - split; [apply same_but_locks_refl|]. split; [reflexivity|discriminate].
  - split; [apply same_but_locks_set|]. split; [discriminate|].
    intros _ l. rewrite filter_In. unfold expired.
    rewrite negb_true_iff, Z.leb_gt. reflexivity.
Qed.

(** C3 on the sample tables: the sweep at 200 s removes the expired lock
    [L1] and leaves both slots as they were. *)
Lemma cleanupExpiredLocks_deletes_expired_rows_only_witness :
  let s' := snd (cleanupExpiredLocks 200000 (idle Sample.db)) in
  slots (visible s') = slots Sample.db
  /\ ~ In Sample.lockA (booking_locks (visible s')).
Proof.
  pose proof (cleanupExpiredLocks_deletes_expired_rows_only
                200000 [] [] Sample.db) as (Hsame & _ & Hlocks).
  split.
  - apply Hsame.
  - intros Hin. apply (Hlocks eq_refl) in Hin as [_ Hlt].
    simpl in Hlt. lia.
Defined.

(* ================================================================== *)
(** * QR check-in happens at most once *)
(* ================================================================== *)

(** A statement outside any transaction takes effect at once; one that
    throws changes nothing. *)
Lemma triple_autocommit {A} d ef (run : DB -> option (A * DB)) Qr :
  triple (Closed d ef) (statement run)
         (fun a s => exists d', run d = Some (a, d') /\ Closed d' ef s)
         Qr (Closed d ef).
Proof.
  intros [v t fs ef0] (Hv & Ht & He). simpl in Hv, Ht, He. subst v t ef0.
  unfold statement, current, with_current. simpl.
  destruct fs as [|[|] fs]; simpl.
  - destruct (run d) as [[a d']|] eqn:E; simpl;
      [exists d'; split; [reflexivity|]|]; repeat split.
  - repeat split.
  - destruct (run d) as [[a d']|] eqn:E; simpl;
      [exists d'; split; [reflexivity|]|]; repeat split.
Qed.

Lemma triple_query {A} d ef (q : DB -> A) Qr :
  triple (Closed d ef) (select q)
         (fun a s => a = q d /\ Closed d ef s) Qr (Closed d ef).
Proof.
  unfold select.
  eapply triple_conseq; [apply (triple_autocommit d ef)| | | |].
  - intros s H; exact H.
  - intros a s (d' & E & H). injection E as <- <-. split; [reflexivity|exact H].
  - intros r s H; exact H.
  - intros s H; exact H.
Qed.

(** The guard [if (c) return r]: past it, [c] is false. *)
Lemma triple_reject (c : bool) r P (Qr : Reply -> Session -> Prop) Qt :
  (forall s, P s -> Qr r s) ->
  triple P (when c (respond r)) (fun _ s => c = false /\ P s) Qr Qt.
Proof.
  intros Hr. apply triple_when.
  - intros _. apply triple_respond. exact Hr.
  - intros H s Hs. exact (conj H Hs).
Qed.

Section QrCheckIn.

Variables (req_user body_booking_id : option uuid) (now : timestamp)
          (d : DB) (ef : list Effect).

Let Qr := QrSettled req_user body_booking_id now d ef.

Lemma validateQr_settles :
  triple (Closed d ef) (validateQr req_user body_booking_id now)
         (fun _ _ => False) Qr (fun _ => False).
Proof.
  unfold validateQr.
  apply triple_try with (Qt' := Closed d ef).
  2:{ apply triple_respond. intros s Hs. exact Hs. }
  eapply triple_bind; [apply triple_reject; intros s Hs; exact Hs|].
  intros ?. apply triple_pure. intros Hb.
  eapply triple_bind; [apply triple_reject; intros s Hs; exact Hs|].
  intros ?. apply triple_pure. intros Hu. cbv zeta.
  eapply triple_bind; [apply triple_query|].
  intros rows. apply triple_pure. intros ->.
  destruct (filter _ (users d)) as [|user urest].
  { apply triple_respond. intros s Hs. exact Hs. }
  eapply triple_bind; [apply triple_reject; intros s Hs; exact Hs|].
  intros ?. apply triple_pure. intros Hrole.
  eapply triple_bind; [apply triple_query|].
  intros rows. apply triple_pure. intros ->.
  destruct (booking_details _ d) as [|bk rest] eqn:Hbk.
  { apply triple_respond. intros s Hs. exact Hs. }
  eapply triple_bind; [apply triple_reject; intros s Hs; exact Hs|].
  intros ?. apply triple_pure. intros Hten.
  eapply triple_bind; [apply triple_reject; intros s Hs; exact Hs|].
  intros ?. apply triple_pure. intros Hscan.
  eapply triple_bind; [apply triple_autocommit|].
  intros ?. apply triple_exists. intros d'. apply triple_pure. intros E.
  apply some_eq in E. inversion E; subst d'.
  apply triple_respond. intros s Hs.
  unfold Qr, QrSettled. exists bk, rest.
  repeat split; try assumption; apply Hs.
Qed.

End QrCheckIn.

Lemma booking_details_row x d bk rest :
  booking_details x d = bk :: rest -> In bk (bookings d) /\ booking_id bk = x.
Proof.
  intros H.
  assert (Hin : In bk (booking_details x d)) by (rewrite H; left; reflexivity).
  unfold booking_details in Hin. apply filter_In in Hin as [Hin Hc].
  rewrite !andb_true_iff in Hc. destruct Hc as [[Hc _] _].
  apply String.eqb_eq in Hc. auto.
Qed.









(* ================================================================== *)
(** * The receipt worker when no statement throws *)
(* ================================================================== *)

Lemma set_queue_jobs_same d : set_queue_jobs d (queue_jobs d) = d.
Proof. destruct d; reflexivity. Qed.

Lemma update_run id f d ef :
  statement (update_job id f) (mkSession d None [] ef)
  = (Val tt,
     mkSession (set_queue_jobs d
                  (map (fun j => if (job_id j =? id)%string then f j else j)
                       (queue_jobs d)))
               None [] ef).
Proof. reflexivity. Qed.

Lemma emit_run e d ef :
  emit e (mkSession d None [] ef) = (Val tt, mkSession d None [] (ef ++ [e])).
Proof. reflexivity. Qed.

(** An update of the rows of job [id] after another one. *)
Lemma update_update id (f g : QueueJob -> QueueJob) q :
  (forall r, job_id (f r) = job_id r) ->
  map (fun j => if (job_id j =? id)%string then g j else j)
      (map (fun j => if (job_id j =? id)%string then f j else j) q)
  = map (fun j => if (job_id j =? id)%string then g (f j) else j) q.
Proof.
  intros Hf. rewrite map_map. apply map_ext. intros r.
  destruct (job_id r =? id)%string eqn:E; [|rewrite E; reflexivity].
  rewrite Hf, E. reflexivity.
Qed.

Section WorkerRuns.

Variables (zoho : Zoho) (now : timestamp).

(** [processReceiptJob] on the selected row [k], its row already marked. *)
Lemma processReceiptJob_run k d ef :
  exists ok,
    processReceiptJob zoho now k (mkSession d None [] ef)
    = (Val ok,
       mkSession
         (set_queue_jobs d
            (map (fun j => if (job_id j =? job_id k)%string
                           then fst (job_result zoho now k d) j else j)
                 (queue_jobs d)))
         None [] (ef ++ snd (job_result zoho now k d))).
Proof.
  unfold processReceiptJob, job_result, try_catch. cbv zeta.
  erewrite bind_val by apply query_run.
  destruct (filter _ (bookings d)) as [|bk rest].
  { (* booking not found: the error path *)
    change (@throw bool (mkSession d None [] ef))
      with (@Throw bool, mkSession d None [] ef). cbv iota beta.
    destruct (MAX_RETRIES <=? payload_attempt k + 1)%N.
    - erewrite bind_val by apply update_run.
      erewrite bind_val by apply emit_run. eexists. reflexivity.
    - erewrite bind_val by apply update_run.
      erewrite bind_val by apply emit_run. eexists. reflexivity. }
  destruct (truthy (zoho_invoice_id bk)).
  { erewrite bind_val by apply update_run. rewrite app_nil_r.
    eexists. reflexivity. }
  destruct (negb (payment_status bk =? "paid")%string).
  { erewrite bind_val by apply update_run. rewrite app_nil_r.
    eexists. reflexivity. }
  erewrite bind_val by apply emit_run.
  destruct (zoho (payload_booking_id k)).
  - erewrite bind_val by apply update_run. eexists. reflexivity.
  - change (@throw bool (mkSession d None [] (ef ++ [ReceiptCall (job_id k) (payload_booking_id k)])))
      with (@Throw bool, mkSession d None [] (ef ++ [ReceiptCall (job_id k) (payload_booking_id k)])).
    cbv iota beta.
    destruct (MAX_RETRIES <=? payload_attempt k + 1)%N;
      erewrite bind_val by apply update_run;
      erewrite bind_val by apply emit_run;
      simpl; rewrite <- app_assoc; eexists; reflexivity.
  - change (@throw bool (mkSession d None [] (ef ++ [ReceiptCall (job_id k) (payload_booking_id k)])))
      with (@Throw bool, mkSession d None [] (ef ++ [ReceiptCall (job_id k) (payload_booking_id k)])).
    cbv iota beta.
    destruct (MAX_RETRIES <=? payload_attempt k + 1)%N;
      erewrite bind_val by apply update_run;
      erewrite bind_val by apply emit_run;
      simpl; rewrite <- app_assoc; eexists; reflexivity.
Qed.

Lemma job_result_bookings k d d' :
  bookings d' = bookings d ->
  job_result zoho now k d' = job_result zoho now k d.
Proof. intros H. unfold job_result. rewrite H. reflexivity. Qed.

Lemma job_result_keeps k d r :
  let f := fst (job_result zoho now k d) in
  job_id (f r) = job_id r /\ job_type (f r) = job_type r
  /\ payload_booking_id (f r) = payload_booking_id r.
Proof.
  unfold job_result. cbv zeta.
  destruct (filter _ (bookings d)) as [|bk rest];
    [|destruct (truthy (zoho_invoice_id bk));
      [|destruct (negb (payment_status bk =? "paid")%string);
        [|destruct (zoho (payload_booking_id k))]]];
    try destruct (MAX_RETRIES <=? payload_attempt k + 1)%N;
    repeat split.
Qed.

Lemma job_result_events k d e :
  In e (snd (job_result zoho now k d)) -> effect_job e = Some (job_id k).
Proof.
  unfold job_result. cbv zeta.
  destruct (filter _ (bookings d)) as [|bk rest];
    [|destruct (truthy (zoho_invoice_id bk));
      [|destruct (negb (payment_status bk =? "paid")%string);
        [|destruct (zoho (payload_booking_id k))]]];
    try destruct (MAX_RETRIES <=? payload_attempt k + 1)%N;
    simpl; intros H;
    repeat (destruct H as [<-|H]; [reflexivity|]); destruct H.
Qed.

Lemma claim_and_process_run k d ef :
  exists ok,
    claim_and_process zoho now k (mkSession d None [] ef)
    = (Val ok,
       mkSession (set_queue_jobs d (map (touch zoho now d k) (queue_jobs d)))
                 None [] (ef ++ snd (job_result zoho now k d))).
Proof.
  unfold claim_and_process.
  erewrite bind_val by apply update_run.
  set (d1 := set_queue_jobs d
               (map (fun j => if (job_id j =? job_id k)%string
                              then set_processing now j else j)
                    (queue_jobs d))).
  destruct (processReceiptJob_run k d1 ef) as [ok Hok].
  exists ok. rewrite Hok.
  rewrite (job_result_bookings k d d1 eq_refl).
  unfold d1. simpl queue_jobs. rewrite update_update by reflexivity.
  reflexivity.
Qed.

Lemma touch_bookings d d' k r :
  bookings d' = bookings d -> touch zoho now d' k r = touch zoho now d k r.
Proof.
  intros H. unfold touch. rewrite (job_result_bookings k d d' H). reflexivity.
Qed.

Lemma apply_jobs_bookings d d' l q :
  bookings d' = bookings d ->
  apply_jobs zoho now d' l q = apply_jobs zoho now d l q.
Proof.
  intros H. revert q. induction l as [|k l IH]; intros q; simpl; [reflexivity|].
  rewrite IH. f_equal. apply map_ext. intros r. apply touch_bookings, H.
Qed.

Lemma sweep_events_bookings d d' l :
  bookings d' = bookings d ->
  sweep_events zoho now d' l = sweep_events zoho now d l.
Proof.
  intros H. unfold sweep_events. induction l as [|k l IH]; simpl; [reflexivity|].
  rewrite IH, (job_result_bookings k d d' H). reflexivity.
Qed.

Lemma allSettled_run l :
  forall d ef,
    allSettled (map (claim_and_process zoho now) l) (mkSession d None [] ef)
    = (Val tt,
       mkSession (set_queue_jobs d (apply_jobs zoho now d l (queue_jobs d)))
                 None [] (ef ++ sweep_events zoho now d l)).
Proof.
  induction l as [|k l IH]; intros d ef; simpl.
  - rewrite set_queue_jobs_same, app_nil_r. reflexivity.
  - unfold bind, settled.
    destruct (claim_and_process_run k d ef) as [ok ->].
    rewrite IH.
    set (d1 := set_queue_jobs d (map (touch zoho now d k) (queue_jobs d))).
    rewrite (apply_jobs_bookings d d1 l _ eq_refl).
    rewrite (sweep_events_bookings d d1 l eq_refl).
    unfold sweep_events. simpl. rewrite app_assoc. reflexivity.
Qed.

(** One sweep: the selected jobs are processed against the tables the
    sweep started from. *)
Lemma sweep_run d ef :
  processZohoReceiptJobs zoho now (mkSession d None [] ef)
  = (Val tt,
     mkSession
       (set_queue_jobs d
          (apply_jobs zoho now d (pending_jobs now d) (queue_jobs d)))
       None []
       (ef ++ sweep_events zoho now d (pending_jobs now d))).
Proof.
  unfold processZohoReceiptJobs, try_catch.
  erewrite bind_val by apply query_run.
  destruct (pending_jobs now d) as [|k l] eqn:E.
  - simpl. rewrite set_queue_jobs_same, app_nil_r. reflexivity.
  - change (List.length (k :: l) =? 0)%nat with false. cbv iota.
    rewrite allSettled_run. reflexivity.
Qed.

End WorkerRuns.

(* ================================================================== *)
(** * What a sweep selects, and what it does to one job *)
(* ================================================================== *)

Lemma insert_by_created_perm j l : Permutation (j :: l) (insert_by_created j l).
Proof.
  induction l as [|k l IH]; simpl; [apply Permutation_refl|].
  destruct (created_at j <? created_at k); [apply Permutation_refl|].
  apply perm_trans with (k :: j :: l); [apply perm_swap|].
  apply perm_skip, IH.
Qed.

Lemma order_by_created_perm l : Permutation l (order_by_created l).
Proof.
  unfold order_by_created. induction l as [|j l IH]; simpl; [constructor|].
  apply perm_trans with (j :: fold_right insert_by_created [] l).
  - apply perm_skip, IH.
  - apply insert_by_created_perm.
Qed.

Lemma In_firstn {A} n (l : list A) x : In x (firstn n l) -> In x l.
Proof.
  intros H. rewrite <- (firstn_skipn n l). apply in_or_app. left. exact H.
Qed.

Lemma NoDup_firstn {A} n (l : list A) : NoDup l -> NoDup (firstn n l).
Proof.
  intros H. rewrite <- (firstn_skipn n l) in H.
  eapply NoDup_app_remove_r. exact H.
Qed.

Lemma NoDup_map_filter {A B} (f : A -> B) (p : A -> bool) l :
  NoDup (map f l) -> NoDup (map f (filter p l)).
Proof.
  induction l as [|a l IH]; simpl; intros H; [constructor|].
  inversion H as [|? ? Hn Hd]; subst.
  destruct (p a); [|auto]. simpl. constructor; [|auto].
  intros Hin. apply Hn. apply in_map_iff in Hin as (x & Hx & Hxin).
  apply in_map_iff. exists x. split; [exact Hx|].
  apply filter_In in Hxin. tauto.
Qed.

(** The sweep only selects rows of the table that are ready, hence
    pending. *)
Lemma pending_jobs_In now d k :
  In k (pending_jobs now d) -> In k (queue_jobs d) /\ ready now k = true.
Proof.
  unfold pending_jobs. intros H. apply In_firstn in H.
  apply (Permutation_in _ (Permutation_sym (order_by_created_perm _))) in H.
  apply filter_In in H. exact H.
Qed.

Lemma pending_jobs_NoDup now d :
  NoDup (map job_id (queue_jobs d)) ->
  NoDup (map job_id (pending_jobs now d)).
Proof.
  intros H. unfold pending_jobs. rewrite <- firstn_map.
  apply NoDup_firstn.
  eapply Permutation_NoDup.
  - apply Permutation_map. apply order_by_created_perm.
  - apply NoDup_map_filter. exact H.
Qed.

Lemma ready_pending now k : ready now k = true -> job_status k = "pending"%string.
Proof.
  unfold ready. rewrite !andb_true_iff. intros [[_ H] _].
  apply String.eqb_eq in H. exact H.
Qed.

Lemma same_id_same_row (q : list QueueJob) a b :
  NoDup (map job_id q) -> In a q -> In b q -> job_id a = job_id b -> a = b.
Proof.
  induction q as [|c q IH]; simpl; intros Hnd Ha Hb Hid; [destruct Ha|].
  inversion Hnd as [|? ? Hn Hd]; subst.
  destruct Ha as [<-|Ha], Hb as [<-|Hb].
  - reflexivity.
  - exfalso. apply Hn. rewrite Hid. apply in_map. exact Hb.
  - exfalso. apply Hn. rewrite <- Hid. apply in_map. exact Ha.
  - apply IH; assumption.
Qed.

Lemma job_row_In id d r :
  job_row id d = Some r -> In r (queue_jobs d) /\ job_id r = id.
Proof.
  unfold job_row. intros H. apply find_some in H as [Hin Hid].
  apply String.eqb_eq in Hid. auto.
Qed.

Lemma find_map_keeps_id id (g : QueueJob -> QueueJob) q :
  (forall r, job_id (g r) = job_id r) ->
  find (fun j => (job_id j =? id)%string) (map g q)
  = option_map g (find (fun j => (job_id j =? id)%string) q).
Proof.
  intros Hg. induction q as [|r q IH]; simpl; [reflexivity|].
  rewrite Hg. destruct (job_id r =? id)%string; [reflexivity|exact IH].
Qed.

Lemma receipt_calls_app id a b :
  receipt_calls id (a ++ b) = (receipt_calls id a + receipt_calls id b)%nat.
Proof. unfold receipt_calls. rewrite filter_app, length_app. reflexivity. Qed.

Lemma receipt_calls_other id l :
  (forall e, In e l -> effect_job e <> Some id) -> receipt_calls id l = 0%nat.
Proof.
  unfold receipt_calls. induction l as [|e l IH]; intros H; simpl; [reflexivity|].
  destruct e as [b|b|j b|j n dl|j]; simpl;
    try (apply IH; intros e' He'; apply H; right; exact He').
  destruct (j =? id)%string eqn:E.
  - apply String.eqb_eq in E. exfalso. apply (H (ReceiptCall j b)).
    + left. reflexivity.
    + simpl. congruence.
  - apply IH. intros e' He'. apply H. right. exact He'.
Qed.

Section SweepOnOneJob.

Variables (zoho : Zoho) (now : timestamp) (d : DB).

Lemma touch_keeps_id k r : job_id (touch zoho now d k r) = job_id r.
Proof.
  unfold touch. destruct (job_id r =? job_id k)%string; [|reflexivity].
  apply (job_result_keeps zoho now k d (set_processing now r)).
Qed.

(** Jobs of the sweep other than [id] leave the rows of [id] alone. *)
Lemma apply_jobs_others id l :
  (forall k, In k l -> job_id k <> id) ->
  forall q,
    find (fun j => (job_id j =? id)%string) (apply_jobs zoho now d l q)
    = find (fun j => (job_id j =? id)%string) q.
Proof.
  induction l as [|k l IH]; intros Hl q; simpl; [reflexivity|].
  rewrite IH by (intros k' Hk'; apply Hl; right; exact Hk').
  rewrite find_map_keeps_id by apply touch_keeps_id.
  destruct (find _ q) as [r|] eqn:E; [|reflexivity]. simpl. f_equal.
  apply find_some in E as [_ E]. apply String.eqb_eq in E.
  unfold touch.
  assert (Hne : (job_id r =? job_id k)%string = false).
  { apply String.eqb_neq. rewrite E. intros Heq. symmetry in Heq.
    apply (Hl k (or_introl eq_refl)) in Heq. exact Heq. }
  rewrite Hne. reflexivity.
Qed.

Lemma sweep_events_others id l :
  (forall k, In k l -> job_id k <> id) ->
  receipt_calls id (sweep_events zoho now d l) = 0%nat.
Proof.
  intros Hl. apply receipt_calls_other. intros e He.
  unfold sweep_events in He. apply in_flat_map in He as (k & Hk & He).
  rewrite (job_result_events zoho now k d e He).
  intros Heq. injection Heq as Heq. exact (Hl k Hk Heq).
Qed.

(** A job that the sweep did not select keeps its row, and the
    collaborator is not called for it. *)
Lemma sweep_skips id l q :
  (forall k, In k l -> job_id k <> id) ->
  find (fun j => (job_id j =? id)%string) (apply_jobs zoho now d l q)
  = find (fun j => (job_id j =? id)%string) q
  /\ receipt_calls id (sweep_events zoho now d l) = 0%nat.
Proof.
  intros Hl. split; [apply apply_jobs_others|apply sweep_events_others]; exact Hl.
Qed.

(** A selected job is processed once. *)
Lemma sweep_processes k l q :
  NoDup (map job_id l) ->
  In k l ->
  find (fun j => (job_id j =? job_id k)%string) (apply_jobs zoho now d l q)
  = option_map (fun r => fst (job_result zoho now k d) (set_processing now r))
               (find (fun j => (job_id j =? job_id k)%string) q)
  /\ receipt_calls (job_id k) (sweep_events zoho now d l)
     = receipt_calls (job_id k) (snd (job_result zoho now k d)).
Proof.
  revert q. induction l as [|k' l IH]; intros q Hnd Hin; [destruct Hin|].
  simpl in Hnd. inversion Hnd as [|? ? Hn Hd]; subst.
  destruct Hin as [->|Hin].
  - (* [k] is processed now; the rest of the sweep has other jobs *)
    assert (Hrest : forall k', In k' l -> job_id k' <> job_id k).
    { intros k' Hk' Heq. apply Hn. rewrite <- Heq. apply in_map. exact Hk'. }
    simpl. split.
    + rewrite apply_jobs_others by exact Hrest.
      rewrite find_map_keeps_id by apply touch_keeps_id.
      destruct (find _ q) as [r|] eqn:E; [|reflexivity]. simpl. f_equal.
      apply find_some in E as [_ E]. unfold touch. rewrite E. reflexivity.
    + unfold sweep_events. simpl. rewrite receipt_calls_app.
      fold (sweep_events zoho now d l).
      rewrite (sweep_events_others _ _ Hrest). lia.
  - (* another job first *)
    assert (Hne : job_id k' <> job_id k).
    { intros Heq. apply Hn. rewrite Heq. apply in_map. exact Hin. }
    simpl. destruct (IH (map (touch zoho now d k') q) Hd Hin) as [IH1 IH2].
    split.
    + rewrite IH1. rewrite find_map_keeps_id by apply touch_keeps_id.
      destruct (find _ q) as [r|] eqn:E; [|reflexivity]. simpl. do 2 f_equal.
      apply find_some in E as [_ E]. apply String.eqb_eq in E.
      unfold touch.
      assert (Hb : (job_id r =? job_id k')%string = false)
        by (apply String.eqb_neq; congruence).
      rewrite Hb. reflexivity.
    + unfold sweep_events. simpl. rewrite receipt_calls_app.
      fold (sweep_events zoho now d l). rewrite IH2.
      rewrite receipt_calls_other; [reflexivity|].
      intros e He. rewrite (job_result_events zoho now k' d e He).
      congruence.
Qed.

Lemma apply_jobs_ids l : forall q,
  map job_id (apply_jobs zoho now d l q) = map job_id q.
Proof.
  induction l as [|k l IH]; intros q; simpl; [reflexivity|].
  rewrite IH, map_map. apply map_ext. apply touch_keeps_id.
Qed.

End SweepOnOneJob.

(* ================================================================== *)
(** * Retry exhaustion *)
(* ================================================================== *)

Lemma job_row_of_In (q : DB) j :
  NoDup (map job_id (queue_jobs q)) -> In j (queue_jobs q) ->
  job_row (job_id j) q = Some j.
Proof.
  intros Hnd Hin. unfold job_row.
  destruct (find _ (queue_jobs q)) as [r|] eqn:E.
  - apply find_some in E as [Hr Hid]. apply String.eqb_eq in Hid.
    f_equal. eapply same_id_same_row; eauto.
  - exfalso. apply (find_none _ _ E) in Hin.
    rewrite String.eqb_refl in Hin. discriminate.
Qed.

Lemma find_id_In (l : list QueueJob) id :
  match find (fun k => (job_id k =? id)%string) l with
  | Some k => In k l /\ job_id k = id
  | None => forall k, In k l -> job_id k <> id
  end.
Proof.
  destruct (find _ l) as [k|] eqn:E.
  - apply find_some in E as [? E]. apply String.eqb_eq in E. auto.
  - intros k Hk Hid. apply (find_none _ _ E) in Hk.
    apply String.eqb_neq in Hk. contradiction.
Qed.

(** When the side effect is invoked and fails, the job is rescheduled with
    its counter incremented, or given up at the last attempt. *)
Lemma job_result_fails zoho now k d :
  fails_receipt zoho d k = true ->
  job_result zoho now k d
  = (if (MAX_RETRIES <=? payload_attempt k + 1)%N
     then (set_failed now,
           [ReceiptCall (job_id k) (payload_booking_id k);
            JobGaveUp (job_id k)])
     else (set_retry (payload_attempt k + 1),
           [ReceiptCall (job_id k) (payload_booking_id k);
            RetryScheduled (job_id k) (payload_attempt k + 1)
                           (calculateDelay (payload_attempt k + 1))])).
Proof.
  unfold fails_receipt, job_result. cbv zeta.
  destruct (filter _ (bookings d)) as [|bk rest]; [discriminate|].
  rewrite !andb_true_iff, negb_true_iff. intros [[-> ->] Hz]. simpl negb.
  cbv iota.
  destruct (zoho (payload_booking_id k)); [discriminate| |];
    destruct (MAX_RETRIES <=? payload_attempt k + 1)%N; reflexivity.
Qed.

Lemma fails_receipt_same zoho d d' k k' :
  bookings d' = bookings d ->
  payload_booking_id k' = payload_booking_id k ->
  fails_receipt zoho d' k' = fails_receipt zoho d k.
Proof. intros Hb Hk. unfold fails_receipt. rewrite Hb, Hk. reflexivity. Qed.

(** A sweep on a failed job: not selected, row and call count unchanged. *)
Lemma sweep_parks zoho now j n s :
  job_status j = "failed"%string ->
  Parked j n s ->
  Parked j n (snd (processZohoReceiptJobs zoho now s)).
Proof.
  intros Hfailed (Ht & Hf & Hnd & Hrow & Hn).
  destruct s as [v t fs ef]. simpl in *. subst t fs.
  rewrite sweep_run. simpl.
  assert (Hskip : forall k, In k (pending_jobs now v) -> job_id k <> job_id j).
  { intros k Hk Hid. apply pending_jobs_In in Hk as [Hin Hready].
    apply ready_pending in Hready.
    apply job_row_In in Hrow as [Hj _].
    assert (k = j) by (eapply same_id_same_row; eauto). subst k.
    rewrite Hfailed in Hready. discriminate. }
  destruct (sweep_skips zoho now v (job_id j) (pending_jobs now v)
              (queue_jobs v) Hskip) as [Hfind Hcalls].
  unfold Parked. simpl. repeat split.
  - rewrite apply_jobs_ids. exact Hnd.
  - unfold job_row. simpl. rewrite Hfind. exact Hrow.
  - rewrite receipt_calls_app, Hcalls. lia.
Qed.

(** A sweep on a job whose side effect fails: either it is not selected,
    or the collaborator is called once more and the job moves on. *)
Lemma sweep_retries zoho now d0 j n s :
  fails_receipt zoho d0 j = true ->
  Retrying d0 (job_id j) (payload_booking_id j) n s ->
  exists n',
    Retrying d0 (job_id j) (payload_booking_id j) n'
             (snd (processZohoReceiptJobs zoho now s))
    /\ (n <= n')%nat.
Proof.
  intros Hfails (Ht & Hf & Hbk & Hnd & Hn & Hle & r & Hrow & Hty & Hbid & Hst).
  destruct s as [v t fs ef].
  cbn [tx faults visible effects] in Ht, Hf, Hbk, Hnd, Hn, Hrow. subst t fs.
  rewrite sweep_run. cbn [snd].
  pose proof (find_id_In (pending_jobs now v) (job_id j)) as Hsel.
  destruct (find _ (pending_jobs now v)) as [k|].
  - (* selected *)
    destruct Hsel as [Hk Hid].
    pose proof (pending_jobs_In _ _ _ Hk) as [Hkin Hready].
    apply ready_pending in Hready.
    pose proof (job_row_In _ _ _ Hrow) as [Hrin Hrid].
    assert (k = r) by (eapply same_id_same_row; eauto; congruence). subst k.
    destruct (n <? N.to_nat MAX_RETRIES)%nat eqn:En;
      [|rewrite Hready in Hst; discriminate].
    destruct Hst as [_ Hatt]. apply Nat.ltb_lt in En.
    destruct (sweep_processes zoho now v r (pending_jobs now v) (queue_jobs v)
                (pending_jobs_NoDup now v Hnd) Hk) as [Hfind Hcalls].
    rewrite Hid in Hfind, Hcalls.
    assert (Hfr : fails_receipt zoho v r = true).
    { rewrite <- Hfails. apply fails_receipt_same; assumption. }
    rewrite (job_result_fails zoho now r v Hfr) in Hfind, Hcalls.
    assert (H3 : N.to_nat MAX_RETRIES = 3%nat) by reflexivity.
    exists (S n). split; [|lia].
    unfold Retrying. cbn [tx faults visible effects].
    split; [reflexivity|]. split; [reflexivity|]. split; [exact Hbk|].
    split; [simpl; rewrite apply_jobs_ids; exact Hnd|].
    split; [|split; [lia|]].
    + rewrite receipt_calls_app, Hcalls, Hn.
      destruct (MAX_RETRIES <=? payload_attempt r + 1)%N; unfold receipt_calls;
        simpl; rewrite Hrid, String.eqb_refl; simpl; lia.
    + unfold job_row in *. simpl queue_jobs. rewrite Hfind, Hrow.
      cbn [option_map].
      eexists. split; [reflexivity|].
      rewrite Hatt. unfold MAX_RETRIES.
      destruct (3 <=? N.of_nat n + 1)%N eqn:E3; cbn [fst].
      * split; [exact Hty|]. split; [exact Hbid|].
        apply N.leb_le in E3.
        assert (E : (S n <? 3)%nat = false) by (apply Nat.ltb_ge; lia).
        change (N.to_nat 3) with 3%nat. rewrite E. reflexivity.
      * split; [exact Hty|]. split; [exact Hbid|].
        apply N.leb_gt in E3.
        assert (E : (S n <? 3)%nat = true) by (apply Nat.ltb_lt; lia).
        change (N.to_nat 3) with 3%nat. rewrite E.
        split; [reflexivity|]. simpl. lia.
  - (* not selected *)
    destruct (sweep_skips zoho now v (job_id j) (pending_jobs now v)
                (queue_jobs v) Hsel) as [Hfind Hcalls].
    exists n. split; [|lia].
    unfold Retrying. cbn [tx faults visible effects].
    split; [reflexivity|]. split; [reflexivity|]. split; [exact Hbk|].
    split; [simpl; rewrite apply_jobs_ids; exact Hnd|].
    split; [rewrite receipt_calls_app, Hcalls; lia|].
    split; [exact Hle|].
    exists r. unfold job_row in *. simpl queue_jobs. rewrite Hfind.
    repeat (split; [assumption|]). exact Hst.
Qed.

Lemma sweeps_cons now zoho rest s :
  sweeps ((now, zoho) :: rest) s
  = sweeps rest (snd (processZohoReceiptJobs zoho now s)).
Proof.
  simpl. unfold bind, settled.
  destruct (processZohoReceiptJobs zoho now s) as [o s']. reflexivity.
Qed.

Lemma sweeps_retry ticks d0 j :
  (forall now zoho, In (now, zoho) ticks -> fails_receipt zoho d0 j = true) ->
  forall n s,
    Retrying d0 (job_id j) (payload_booking_id j) n s ->
    exists n',
      Retrying d0 (job_id j) (payload_booking_id j) n' (snd (sweeps ticks s))
      /\ (n <= n')%nat.
Proof.
  induction ticks as [|[now zoho] rest IH]; intros Hfails n s Hs.
  - exists n. split; [exact Hs|lia].
  - rewrite sweeps_cons.
    destruct (sweep_retries zoho now d0 j n s
                (Hfails now zoho (or_introl eq_refl)) Hs) as (n1 & H1 & Hle1).
    destruct (IH (fun t z Hin => Hfails t z (or_intror Hin)) n1 _ H1)
      as (n2 & H2 & Hle2).
    exists n2. split; [exact H2|lia].
Qed.

Lemma sweeps_park ticks j n :
  job_status j = "failed"%string ->
  forall s, Parked j n s -> Parked j n (snd (sweeps ticks s)).
Proof.
  intros Hfailed.
  induction ticks as [|[now zoho] rest IH]; intros s Hs; [exact Hs|].
  rewrite sweeps_cons. apply IH. apply sweep_parks; assumption.
Qed.

(** C7.  A job whose side effect fails on every invocation gets exactly
    [MAX_RETRIES] (3) invocations: over any sequence of sweeps the
    collaborator is called for it at most three times, the job is pending
    (with its attempt counter equal to the number of calls) while fewer
    than three calls were made, and failed once the third was made.  The
    sweep only selects rows whose status is pending, so a failed job keeps
    its row and gets no further call, whatever the later sweeps do. *)
Theorem failing_job_exhausts_after_max_retries :
  (forall (ticks : list (timestamp * Zoho)) (d : DB) (j : QueueJob),
      NoDup (map job_id (queue_jobs d)) ->
      In j (queue_jobs d) ->
      job_type j = "zoho_receipt"%string ->
      job_status j = "pending"%string ->
      payload_attempt j = 0%N ->
      (forall now zoho, In (now, zoho) ticks -> fails_receipt zoho d j = true) ->
      let s' := snd (sweeps ticks (idle d)) in
      let n := receipt_calls (job_id j) (effects s') in
      exists j',
        job_row (job_id j) (visible s') = Some j'
        /\ (n <= N.to_nat MAX_RETRIES)%nat
        /\ (job_status j' = "failed"%string <-> n = N.to_nat MAX_RETRIES)
        /\ (job_status j' = "pending"%string <-> (n < N.to_nat MAX_RETRIES)%nat)
        /\ ((n < N.to_nat MAX_RETRIES)%nat -> payload_attempt j' = N.of_nat n))
  /\ MAX_RETRIES = 3%N
  /\ (forall (now : timestamp) (d : DB) (k : QueueJob),
         In k (pending_jobs now d) -> job_status k = "pending"%string)
  /\ (forall (ticks : list (timestamp * Zoho)) (d : DB) (j : QueueJob),
         NoDup (map job_id (queue_jobs d)) ->
         In j (queue_jobs d) ->
         job_status j = "failed"%string ->
         let s' := snd (sweeps ticks (idle d)) in
         job_row (job_id j) (visible s') = Some j
         /\ receipt_calls (job_id j) (effects s') = 0%nat).
Proof.
  split; [|split; [reflexivity|split]].
  - intros ticks d j Hnd Hin Hty Hst Hatt Hfails s' n.
    assert (H0 : Retrying d (job_id j) (payload_booking_id j) 0 (idle d)).
    { unfold Retrying, idle. simpl.
      repeat (split; [first [reflexivity|assumption|lia]|]).
      exists j. split; [apply job_row_of_In; assumption|].
      split; [assumption|]. split; [reflexivity|].
      change (job_status j = "pending"%string /\ payload_attempt j = 0%N).
      split; assumption. }
    destruct (sweeps_retry ticks d j Hfails 0%nat (idle d) H0)
      as (n' & (Ht & Hf & Hbk & Hnd' & Hn & Hle & r & Hrow & _ & _ & Hs) & _).
    fold s' in Hn, Hrow. fold n in Hn. subst n'.
    exists r. split; [exact Hrow|]. split; [exact Hle|].
    destruct (n <? N.to_nat MAX_RETRIES)%nat eqn:E.
    + apply Nat.ltb_lt in E. destruct Hs as [Hp Ha].
      split; [|split; [|intros _; exact Ha]].
      * rewrite Hp. split; [discriminate|lia].
      * split; [intros _; exact E|intros _; exact Hp].
    + apply Nat.ltb_ge in E.
      split; [|split; [|lia]].
      * split; [lia|intros _; exact Hs].
      * rewrite Hs. split; [discriminate|lia].
  - intros now d k Hk. apply pending_jobs_In in Hk as [_ Hk].
    apply ready_pending in Hk. exact Hk.
  - intros ticks d j Hnd Hin Hfailed s'.
    assert (H0 : Parked j 0 (idle d)).
    { unfold Parked, idle. simpl.
      repeat (split; [first [reflexivity|assumption]|]).
      split; [apply job_row_of_In; assumption|reflexivity]. }
    destruct (sweeps_park ticks j 0 Hfailed (idle d) H0)
      as (_ & _ & _ & Hrow & Hn).
    split; assumption.
Qed.

(** C7 on the sample tables: with the collaborator down, four sweeps six
    minutes apart call it three times for job [j1] and leave the job
    failed. *)
Lemma failing_job_exhausts_after_max_retries_witness :
  let s' := snd (sweeps sample_ticks (idle Sample.db)) in
  receipt_calls "j1"%string (effects s') = 3%nat
  /\ exists j',
       job_row "j1"%string (visible s') = Some j'
       /\ (job_status j' = "failed"%string
           <-> receipt_calls "j1"%string (effects s') = N.to_nat MAX_RETRIES).
Proof.
  split; [reflexivity|].
  destruct (proj1 failing_job_exhausts_after_max_retries
              sample_ticks Sample.db Sample.receipt_job)
    as (j' & Hrow & _ & Hfailed & _).
  - repeat constructor. intros [].
  - left. reflexivity.
  - reflexivity.
  - reflexivity.
  - reflexivity.
  - intros now zoho Hin. simpl in Hin.
    repeat (destruct Hin as [Hin|Hin]; [injection Hin as <- <-; reflexivity|]).
    destruct Hin.
  - exists j'. split; [exact Hrow|exact Hfailed].
Defined.

(* ================================================================== *)
(** * Further properties of the phone normalisation *)
(* ================================================================== *)

Lemma strip_separators_app a b :
  strip_separators (a ++ b) = strip_separators a ++ strip_separators b.
Proof. unfold strip_separators. apply filter_app. Qed.

(** The emptiness test on the raw argument changes nothing: an empty
    cleaned string is rejected anyway. *)
Lemma normalizePhoneNumber_cleaned p :
  normalizePhoneNumber p = normalizeCleaned (strip_separators p).
Proof. destruct p; reflexivity. Qed.

(** X1.  Formatting is ignored: two inputs that differ only in whitespace,
    dashes and parentheses have the same normal form (or are both
    rejected). *)
Theorem normalizePhoneNumber_ignores_separators :
  forall p q : jsstring,
    strip_separators p = strip_separators q ->
    normalizePhoneNumber p = normalizePhoneNumber q.
Proof.
  intros p q H. rewrite !normalizePhoneNumber_cleaned, H. reflexivity.
Qed.

Lemma normalizePhoneNumber_ignores_separators_witness :
  strip_separators (str "0020 (010) 3256-0826")
  = strip_separators (str "00-20 0103 2560 826")
  /\ normalizePhoneNumber (str "0020 (010) 3256-0826")
     = normalizePhoneNumber (str "00-20 0103 2560 826").
Proof.
  split; [reflexivity|].
  apply (normalizePhoneNumber_ignores_separators
           (str "0020 (010) 3256-0826") (str "00-20 0103 2560 826")).
  reflexivity.
Defined.

Section PhoneForms.

Local Open Scope N_scope.

Ltac codes :=
  change (str "+") with [43] in *;
  change (str "+20") with [43; 50; 48] in *;
  change (str "+200") with [43; 50; 48; 48] in *;
  change (str "0020") with [48; 48; 50; 48] in *;
  change (str "00200") with [48; 48; 50; 48; 48] in *;
  change (str "200") with [50; 48; 48] in *;
  change (str "00") with [48; 48] in *;
  change (str "20") with [50; 48] in *;
  change (str "0") with [48] in *;
  change (str "1") with [49] in *;
  change (str "2") with [50] in *;
  change (str "5") with [53] in *.

(** A mobile number starts with one of the three digits. *)
Lemma mobile_head w :
  isEgyptMobile w = true ->
  exists c t, w = c :: t /\ (c = 49 \/ c = 50 \/ c = 53).
Proof.
  unfold isEgyptMobile. codes.
  destruct w as [|c t]; simpl; [discriminate|].
  rewrite !andb_true_r, !orb_true_iff, !N.eqb_eq.
  intros H. exists c, t. split; [reflexivity|tauto].
Qed.

(** X2.  The eight ways of writing one Egyptian mobile number (ten code
    units beginning with 1, 2 or 5): bare, with the trunk zero, with the
    country code 20, +20 or 0020, each with or without the trunk zero, all
    normalise to [+20] followed by the ten code units. *)
Theorem normalizePhoneNumber_egyptian_forms :
  forall w : jsstring,
    Clean w -> List.length w = 10%nat -> isEgyptMobile w = true ->
    let e164 := Some (str "+20" ++ w) in
    normalizePhoneNumber w = e164
    /\ normalizePhoneNumber (str "0" ++ w) = e164
    /\ normalizePhoneNumber (str "20" ++ w) = e164
    /\ normalizePhoneNumber (str "200" ++ w) = e164
    /\ normalizePhoneNumber (str "+20" ++ w) = e164
    /\ normalizePhoneNumber (str "+200" ++ w) = e164
    /\ normalizePhoneNumber (str "0020" ++ w) = e164
    /\ normalizePhoneNumber (str "00200" ++ w) = e164.
Proof.
  intros w Hclean Hlen Hmob e164. subst e164.
  assert (Hstrip : forall pre, Clean pre ->
            strip_separators (pre ++ w) = pre ++ w).
  { intros pre Hpre. apply strip_Clean, Clean_app; assumption. }
  pose proof (mobile_no_trunk w Hmob) as Hnt.
  destruct (mobile_head w Hmob) as (c & t & -> & Hc).
  assert (Ht : List.length t = 9%nat) by (simpl in Hlen; lia).
  assert (Htrunk : egyptTrunk (48 :: c :: t) = Some (c :: t)).
  { unfold egyptTrunk. codes. simpl. rewrite Ht. simpl.
    unfold substring. simpl. rewrite Hmob. reflexivity. }
  repeat split; rewrite normalizePhoneNumber_cleaned.
  - rewrite (strip_Clean _ Hclean).
    unfold normalizeCleaned. codes. unfold substring.
    simpl. rewrite Ht, Hmob.
    destruct Hc as [-> | [-> | ->]]; simpl; rewrite ?andb_false_r; reflexivity.
  - rewrite (Hstrip (str "0") eq_refl).
    unfold normalizeCleaned. codes. unfold substring.
    simpl. rewrite Ht, Hmob.
    destruct Hc as [-> | [-> | ->]]; reflexivity.
  - rewrite (Hstrip (str "20") eq_refl).
    unfold normalizeCleaned. codes. unfold substring.
    simpl. rewrite Ht. simpl. rewrite Hnt. reflexivity.
  - rewrite (Hstrip (str "200") eq_refl).
    unfold normalizeCleaned. codes. unfold substring.
    simpl. rewrite Ht. simpl. rewrite Htrunk. reflexivity.
  - rewrite (Hstrip (str "+20") eq_refl).
    unfold normalizeCleaned. codes. unfold substring.
    simpl. rewrite Hnt. reflexivity.
  - rewrite (Hstrip (str "+200") eq_refl).
    unfold normalizeCleaned. codes. unfold substring.
    simpl. rewrite Htrunk. reflexivity.
  - rewrite (Hstrip (str "0020") eq_refl).
    unfold normalizeCleaned. codes. unfold substring.
    simpl. rewrite Hnt. reflexivity.
  - rewrite (Hstrip (str "00200") eq_refl).
    unfold normalizeCleaned. codes. unfold substring.
    simpl. rewrite Htrunk. reflexivity.
Qed.

End PhoneForms.

Lemma normalizePhoneNumber_egyptian_forms_witness :
  normalizePhoneNumber (str "1032560826") = Some (str "+201032560826")
  /\ normalizePhoneNumber (str "00200" ++ str "1032560826")
     = Some (str "+201032560826").
Proof.
  pose proof (normalizePhoneNumber_egyptian_forms (str "1032560826")
                eq_refl eq_refl eq_refl) as H.
  split; [exact (proj1 H)|].
  exact (proj2 (proj2 (proj2 (proj2 (proj2 (proj2 (proj2 H))))))).
Defined.

(** X3.  What is accepted and what is not.  A cleaned input that begins
    with [+] or [00] is never rejected, whatever follows the prefix: no
    digit or length test is made.  A cleaned input with neither prefix and
    fewer than ten code units is always rejected. *)
Theorem normalizePhoneNumber_acceptance :
  forall p : jsstring,
    let cleaned := strip_separators p in
    (startsWith cleaned (str "+") = true
     \/ startsWith cleaned (str "00") = true ->
     normalizePhoneNumber p <> None)
    /\ (startsWith cleaned (str "+") = false ->
        startsWith cleaned (str "00") = false ->
        (List.length cleaned < 10)%nat ->
        normalizePhoneNumber p = None).
Proof.
  intros p cleaned. rewrite normalizePhoneNumber_cleaned. fold cleaned.
  split.
  - intros H. unfold normalizeCleaned.
    destruct (startsWith cleaned (str "+")).
    + destruct (startsWith cleaned (str "+20"));
        [destruct (egyptTrunk _)|]; discriminate.
    + destruct H as [H|H]; [discriminate|]. rewrite H. cbv zeta.
      destruct (if startsWith _ (str "+20") then _ else _); discriminate.
  - intros Hp H0 Hlen. unfold normalizeCleaned. rewrite Hp, H0.
    assert (E11 : (List.length cleaned =? 11)%nat = false)
      by (apply Nat.eqb_neq; lia).
    assert (E12 : (12 <=? List.length cleaned)%nat = false)
      by (apply Nat.leb_gt; lia).
    assert (E10 : (List.length cleaned =? 10)%nat = false)
      by (apply Nat.eqb_neq; lia).
    rewrite E11, E12, E10, !andb_false_r. reflexivity.
Qed.

Lemma normalizePhoneNumber_acceptance_witness :
  normalizePhoneNumber (str "+") <> None
  /\ normalizePhoneNumber (str "123-456") = None.
Proof.
  split.
  - apply (proj1 (normalizePhoneNumber_acceptance (str "+"))).
    left. reflexivity.
  - apply (proj2 (normalizePhoneNumber_acceptance (str "123-456")));
      [reflexivity|reflexivity|simpl; lia].
Defined.

(* ================================================================== *)
(** * The booking row of a 201 *)
(* ================================================================== *)

(** Rules that track replies only. *)
Lemma reply_statement {A} (run : DB -> option (A * DB)) Qr :
  triple anySession (statement run)
         (fun a _ => exists w w', run w = Some (a, w')) Qr anySession.
Proof.
  intros s _. unfold statement.
  destruct (faults s) as [|[|] fs]; simpl; try exact I;
    destruct (run (current s)) as [[a w']|] eqn:E; simpl; try exact I;
    eauto.
Qed.

Lemma reply_select {A} (q : DB -> A) Qr :
  triple anySession (select q) (fun _ => anySession) Qr anySession.
Proof.
  eapply triple_conseq; [apply reply_statement| | | |]; try (intros; exact I).
  - intros r s H. exact H.
Qed.

Lemma reply_control f Qr :
  triple anySession (control f) (fun _ => anySession) Qr anySession.
Proof.
  intros s _. unfold control. destruct (faults s) as [|[|] fs]; exact I.
Qed.

Lemma reply_abort r (Qr : Reply -> Session -> Prop) :
  (forall s, Qr r s) ->
  triple anySession (abort r) (fun _ => anySession) Qr anySession.
Proof.
  intros Hr. unfold abort, ROLLBACK.
  eapply triple_bind; [apply reply_control|].
  intros ?. apply triple_respond. intros s _. apply Hr.
Qed.

Lemma reply_check (c : bool) r (Qr : Reply -> Session -> Prop) :
  (forall s, Qr r s) ->
  triple anySession (when c (abort r)) (fun _ => anySession) Qr anySession.
Proof.
  intros Hr. apply triple_when.
  - intros _. apply reply_abort. exact Hr.
  - intros _ s _. exact I.
Qed.

Lemma reply_fact {A} (F : Prop) (m : M A) Qv Qr Qt :
  (F -> triple anySession m Qv Qr Qt) ->
  triple (fun _ => F) m Qv Qr Qt.
Proof. intros H s HF. apply (H HF). exact I. Qed.

Lemma insert_booking_checked req_user b p new_id d rows w :
  insert_booking req_user b p new_id d = Some (rows, w) ->
  exists price,
    body_total_price b = Some price
    /\ rows = [new_booking req_user b p price new_id]
    /\ 0 < req_visitor_count b /\ 0 <= finalAdultCount b
    /\ 0 <= finalChildCount b /\ 0 <= price.
Proof.
  unfold insert_booking.
  destruct (body_total_price b) as [price|]; [|discriminate].
  destruct (_ && _) eqn:E; [|discriminate].
  intros H. injection H as <- _. exists price.
  simpl in E. rewrite !andb_true_iff in E.
  destruct E as (((E1 & E2) & E3) & E4).
  apply Z.ltb_lt in E1. apply Z.leb_le in E2, E3, E4.
  repeat split; assumption.
Qed.

Section CreatedRow.

Variables (req_user : option uuid) (b : CreateBody) (now : timestamp)
          (new_id : uuid).

Let Qr := RowSettled req_user b new_id.

(** Replies other than the 201 say nothing about a row. *)
Ltac other := intros; exact I.

Ltac only_refuses :=
  repeat first
    [ apply reply_check; other
    | apply reply_abort; other
    | apply triple_ret; other
    | eapply triple_bind with (Qm := fun _ => anySession);
      [first [apply reply_select | apply reply_check; other]|intros ?]
    | match goal with
      | |- triple _ (match ?x with _ => _ end) _ _ _ => destruct x
      end ].

Lemma checks_never_create :
  triple anySession (check_required b) (fun _ => anySession) Qr anySession
  /\ triple anySession (check_phone b) (fun _ => anySession) Qr anySession
  /\ triple anySession (check_tenant b) (fun _ => anySession) Qr anySession
  /\ triple anySession (validate_lock req_user b now)
            (fun _ => anySession) Qr anySession
  /\ triple anySession (check_slot b) (fun _ => anySession) Qr anySession
  /\ triple anySession (validate_offer b) (fun _ => anySession) Qr anySession
  /\ triple anySession (check_head_count b) (fun _ => anySession) Qr anySession.
Proof.
  unfold check_required, check_phone, check_tenant, validate_lock, check_slot,
    validate_offer, check_head_count.
  repeat split; only_refuses.
Qed.

Lemma write_booking_row :
  triple anySession (write_booking req_user b new_id)
         (fun _ => anySession) Qr anySession.
Proof.
  unfold write_booking.
  eapply triple_bind; [apply reply_statement|].
  intros rows. apply triple_exists. intros w. apply triple_exists. intros w'.
  apply reply_fact. intros Hins.
  destruct (insert_booking_checked _ _ _ _ _ _ _ Hins)
    as (price & Hprice & -> & Hv & Ha & Hc & Hp).
  eapply triple_bind with (Qm := fun _ => anySession).
  { destruct (truthy (body_lock_id b)).
    - eapply triple_conseq; [apply (reply_statement _ Qr)| | | |].
      + other.
      + other.
      + intros r s H. exact H.
      + other.
    - apply triple_ret. other. }
  intros ?.
  eapply triple_bind; [apply reply_control|]. intros ?.
  eapply triple_bind with (Qm := fun _ => anySession).
  { apply triple_when; [intros _|other].
    intros s _. exact I. }
  intros ?.
  eapply triple_bind with (Qm := fun _ => anySession).
  { intros s _. exact I. }
  intros ?. apply triple_respond. intros s _.
  unfold Qr, RowSettled, booked_row. exists price.
  repeat split; assumption.
Qed.

Lemma createBooking_row :
  triple anySession (createBooking req_user b now new_id)
         (fun _ => anySession) Qr anySession.
Proof.
  destruct checks_never_create as (H1 & H2 & H3 & H4 & H5 & H6 & H7).
  unfold createBooking.
  apply triple_try with (Qt' := anySession).
  2:{ apply reply_abort. intros; exact I. }
  eapply triple_bind; [apply reply_control|]. intros ?.
  eapply triple_bind; [exact H1|]. intros ?.
  eapply triple_bind; [exact H2|]. intros ?.
  eapply triple_bind; [exact H3|]. intros ?.
  eapply triple_bind; [exact H4|]. intros ?.
  eapply triple_bind; [exact H5|]. intros ?.
  eapply triple_bind; [exact H6|]. intros ?.
  eapply triple_bind; [exact H7|]. intros ?.
  apply write_booking_row.
Qed.

End CreatedRow.

Lemma validLanguage_en_ar b :
  validLanguage b = "en"%string \/ validLanguage b = "ar"%string.
Proof.
  unfold validLanguage. destruct (body_language b) as [l|]; [|left; reflexivity].
  destruct (l =? "ar")%string eqn:Ear; simpl.
  - right. apply String.eqb_eq. exact Ear.
  - destruct (l =? "en")%string eqn:Een; [|left; reflexivity].
    left. apply String.eqb_eq. exact Een.
Qed.

Lemma normalized_phone_shape raw p :
  normalizePhoneNumber raw = Some p ->
  startsWith p (str "+") = true /\ Clean p.
Proof.
  rewrite normalizePhoneNumber_cleaned. intros H.
  destruct (normalizeCleaned_fixed _ _ (Clean_strip raw) H) as (Hc & Hp & _).
  split; assumption.
Qed.

(** X4.  Every booking the create route reports with a 201, whichever
    statements threw on the way: it is the row with the generated id, for
    the requested tenant, service and slot; confirmed and unpaid, not yet
    scanned or invoiced; its head counts add up, the visitor count is
    positive and within the available capacity of the slot row that was
    read; the language is 'en' or 'ar'; and the stored phone is the normal
    form of the submitted one, beginning with [+] and free of separators. *)
Theorem createBooking_row_invariant :
  forall (req_user : option uuid) (b : CreateBody) (now : timestamp)
         (new_id : uuid) (fs : list bool) (ef : list Effect) (d : DB)
         (bk : Booking),
    fst (run_handler (createBooking req_user b now new_id)
                     (mkSession d None fs ef))
    = Responded (Created bk) ->
    booking_id bk = new_id
    /\ booking_tenant_id bk = string_of (body_tenant_id b)
    /\ booking_service_id bk = string_of (body_service_id b)
    /\ booking_slot_id bk = string_of (body_slot_id b)
    /\ status bk = "confirmed"%string
    /\ payment_status bk = "unpaid"%string
    /\ qr_scanned bk = false /\ zoho_invoice_id bk = None
    /\ visitor_count bk = adult_count bk + child_count bk
    /\ 0 < visitor_count bk /\ 0 <= adult_count bk /\ 0 <= child_count bk
    /\ 0 <= total_price bk
    /\ (language bk = "en"%string \/ language bk = "ar"%string)
    /\ (exists raw, body_customer_phone b = Some raw
                    /\ normalizePhoneNumber raw = Some (customer_phone bk))
    /\ startsWith (customer_phone bk) (str "+") = true
    /\ Clean (customer_phone bk)
    /\ (exists sl rest, slot_rows b d = sl :: rest
                        /\ is_available sl = true
                        /\ visitor_count bk <= available_capacity sl).
Proof.
  intros req_user b now new_id fs ef d bk Hout.
  unfold run_handler in Hout.
  pose proof (createBooking_row req_user b now new_id
                (mkSession d None fs ef) I) as Hrow.
  pose proof (createBooking_settles req_user b now new_id d ef
                (mkSession d None fs ef)
                (conj eq_refl (conj eq_refl eq_refl))) as Hset.
  destruct (createBooking req_user b now new_id (mkSession d None fs ef))
    as [[[]|r|] s']; simpl in *; try discriminate Hout.
  injection Hout as ->.
  destruct Hset as [Hadm _].
  destruct Hrow as (price & Hprice & -> & Hv & Ha & Hc & Hp).
  unfold admissible in Hadm. rewrite !andb_true_iff in Hadm.
  destruct Hadm as ((((((_ & Hphone) & _) & _) & Hslot) & _) & Hhead).
  unfold phone_ok, normalizedPhone in Hphone.
  destruct (body_customer_phone b) as [raw|] eqn:Eraw; [|discriminate].
  unfold normalizedPhone. rewrite Eraw. simpl in *.
  destruct (normalizePhoneNumber raw) as [p|] eqn:Ep; [|discriminate].
  destruct (normalized_phone_shape raw p Ep) as [Hplus Hclean].
  unfold head_count_ok in Hhead. apply Z.eqb_eq in Hhead.
  unfold slot_ok in Hslot.
  destruct (slot_rows b d) as [|sl rest]; [discriminate|].
  apply andb_true_iff in Hslot as [Hav Hcap]. apply Z.leb_le in Hcap.
  repeat (split; [first [reflexivity|assumption|lia]|]).
  split; [apply validLanguage_en_ar|].
  split; [exists raw; split; [reflexivity|exact Ep]|].
  split; [exact Hplus|]. split; [exact Hclean|].
  exists sl, rest. repeat split; assumption.
Qed.

Lemma createBooking_row_invariant_witness :
  exists bk,
    fst (run_handler (createBooking None Sample.direct_request 1000
                                    "b-new"%string) (idle Sample.db))
    = Responded (Created bk)
    /\ customer_phone bk = str "+201032560826"
    /\ visitor_count bk = adult_count bk + child_count bk.
Proof.
  eexists. split; [reflexivity|]. split; [reflexivity|].
  exact (proj1 (proj2 (proj2 (proj2 (proj2 (proj2 (proj2 (proj2 (proj2
           (createBooking_row_invariant None Sample.direct_request 1000
              "b-new"%string [] [] Sample.db _ eq_refl)))))))))).
Defined.

(* ================================================================== *)
(** * Early refusals, constraint violations and repeated requests *)
(* ================================================================== *)

Section CreateBookingEdges.

Variables (req_user : option uuid) (b : CreateBody) (now : timestamp)
          (new_id : uuid) (d : DB) (ef : list Effect).

Let inTx := mkSession d (Some d) [] ef.
Let untouched := mkSession d None [] ef.
Let out := run_handler (createBooking req_user b now new_id) untouched.

Lemma begin_run : BEGIN untouched = (Val tt, inTx).
Proof. reflexivity. Qed.

Lemma refused_first r :
  check_required b inTx = (Ret r, untouched) -> out = (Responded r, untouched).
Proof.
  intros H. unfold out, run_handler, createBooking.
  erewrite try_ret; [reflexivity|].
  erewrite bind_val by apply begin_run.
  apply bind_ret. exact H.
Qed.

Lemma refused_second r :
  required_ok b = true ->
  check_phone b inTx = (Ret r, untouched) -> out = (Responded r, untouched).
Proof.
  intros H1 H. unfold out, run_handler, createBooking.
  erewrite try_ret; [reflexivity|].
  erewrite bind_val by apply begin_run.
  erewrite bind_val by (apply check_required_pass; exact H1).
  apply bind_ret. exact H.
Qed.

Lemma refused_third r :
  required_ok b = true -> phone_ok b = true ->
  check_tenant b inTx = (Ret r, untouched) -> out = (Responded r, untouched).
Proof.
  intros H1 H2 H. unfold out, run_handler, createBooking.
  erewrite try_ret; [reflexivity|].
  erewrite bind_val by apply begin_run.
  erewrite bind_val by (apply check_required_pass; exact H1).
  erewrite bind_val by (apply check_phone_pass; exact H2).
  apply bind_ret. exact H.
Qed.

Lemma early_refusals :
  (required_ok b = false -> out = (Responded MissingRequiredFields, untouched))
  /\ (required_ok b = true -> phone_ok b = false ->
      out = (Responded InvalidPhoneFormat, untouched))
  /\ (required_ok b = true -> phone_ok b = true ->
      (forall t, In t (tenants d) ->
                 tenant_id t <> string_of (body_tenant_id b)) ->
      out = (Responded TenantNotFound, untouched))
  /\ (required_ok b = true -> phone_ok b = true ->
      forall t rest,
        filter (fun t => (tenant_id t =? string_of (body_tenant_id b))%string)
               (tenants d) = t :: rest ->
        tenant_is_active t = false ->
        out = (Responded TenantDeactivated, untouched)).
Proof.
  split; [|split; [|split]].
  - intros H. apply refused_first. unfold check_required.
    assert (E : negb (truthy (body_slot_id b))
                || negb (truthy (body_service_id b))
                || negb (truthy (body_tenant_id b))
                || negb (truthy (body_customer_name b))
                || negb (truthy_js (body_customer_phone b)) = true).
    { unfold required_ok in H.
      destruct (truthy (body_slot_id b)), (truthy (body_service_id b)),
        (truthy (body_tenant_id b)), (truthy (body_customer_name b)),
        (truthy_js (body_customer_phone b)); try reflexivity; discriminate. }
    rewrite E. reflexivity.
  - intros H1 H2. apply refused_second; [exact H1|].
    unfold check_phone, phone_ok in *. rewrite H2. reflexivity.
  - intros H1 H2 Hnone. apply refused_third; try assumption.
    unfold check_tenant. erewrite bind_val by apply select_run.
    assert (E : filter (fun t => (tenant_id t =? string_of (body_tenant_id b))%string)
                       (tenants d) = []).
    { induction (tenants d) as [|t l IH]; [reflexivity|]. simpl.
      assert (Ht : (tenant_id t =? string_of (body_tenant_id b))%string = false)
        by (apply String.eqb_neq, Hnone; left; reflexivity).
      rewrite Ht. apply IH. intros t' Ht'. apply Hnone. right. exact Ht'. }
    rewrite E. reflexivity.
  - intros H1 H2 t rest Hrows Hact. apply refused_third; try assumption.
    unfold check_tenant. erewrite bind_val by apply select_run.
    rewrite Hrows, Hact. reflexivity.
Qed.

Lemma insert_refused p :
  violates_constraint b = true -> insert_booking req_user b p new_id d = None.
Proof.
  unfold violates_constraint, insert_booking.
  destruct (body_total_price b) as [price|]; [|reflexivity]. simpl.
  intros H.
  destruct (0 <? req_visitor_count b) eqn:E1; [|reflexivity].
  destruct (0 <=? finalAdultCount b) eqn:E2; [|reflexivity].
  destruct (0 <=? finalChildCount b) eqn:E3; [|reflexivity].
  destruct (0 <=? price) eqn:E4; [|reflexivity].
  rewrite !orb_true_iff in H.
  apply Z.ltb_lt in E1. apply Z.leb_le in E2, E3, E4.
  destruct H as [[[H|H]|H]|H];
    [apply Z.ltb_lt in H|apply Z.leb_le in H|apply Z.ltb_lt in H
     |apply Z.ltb_lt in H]; lia.
Qed.

Lemma constraint_violation_run :
  admissible req_user b now d = true ->
  violates_constraint b = true ->
  out = (Responded InternalError, untouched).
Proof.
  intros Hadm Hbad.
  unfold admissible in Hadm. rewrite !andb_true_iff in Hadm.
  destruct Hadm as ((((((H1 & H2) & H3) & H4) & H5) & H6) & H7).
  assert (Hbody :
    (BEGIN ;; check_required b ;; check_phone b ;; check_tenant b ;;
     validate_lock req_user b now ;; check_slot b ;; validate_offer b ;;
     check_head_count b ;; write_booking req_user b new_id)
      (mkSession d None [] ef) = (Throw, inTx)).
  { rewrite run_to_lock_check
      by (unfold passes_preliminaries; rewrite H1, H2, H3; reflexivity).
    erewrite bind_val by (apply validate_lock_pass; assumption).
    erewrite bind_val by (apply check_slot_pass; assumption).
    erewrite bind_val by (apply validate_offer_pass; assumption).
    erewrite bind_val by (apply check_head_count_pass; assumption).
    unfold write_booking, bind at 1, statement, current.
    cbn [faults tx visible effects tl].
    rewrite insert_refused by exact Hbad.
    reflexivity. }
  unfold out, untouched, run_handler, createBooking, try_catch.
  rewrite Hbody. reflexivity.
Qed.

End CreateBookingEdges.

(** X5.  The first checks of [createBooking] answer in source order when no
    statement throws: a request lacking a required field gets the 400
    "Missing required fields" whatever its phone number or tenant; with the
    fields present an unusable phone number gets the 400 "Invalid phone
    number format" before any table is read; then an unknown tenant gets the
    404 and a deactivated one the 403.  Each time the transaction is rolled
    back, the tables are untouched and no task is queued. *)
Theorem createBooking_refusal_order :
  forall (req_user : option uuid) (b : CreateBody) (now : timestamp)
         (new_id : uuid) (d : DB) (ef : list Effect),
    let out := run_handler (createBooking req_user b now new_id)
                           (mkSession d None [] ef) in
    let untouched := mkSession d None [] ef in
    (required_ok b = false -> out = (Responded MissingRequiredFields, untouched))
    /\ (required_ok b = true -> phone_ok b = false ->
        out = (Responded InvalidPhoneFormat, untouched))
    /\ (required_ok b = true -> phone_ok b = true ->
        (forall t, In t (tenants d) ->
                   tenant_id t <> string_of (body_tenant_id b)) ->
        out = (Responded TenantNotFound, untouched))
    /\ (required_ok b = true -> phone_ok b = true ->
        forall t rest,
          filter (fun t => (tenant_id t =? string_of (body_tenant_id b))%string)
                 (tenants d) = t :: rest ->
          tenant_is_active t = false ->
          out = (Responded TenantDeactivated, untouched)).
Proof.
  intros req_user b now new_id d ef. cbv zeta.
  exact (early_refusals req_user b now new_id d ef).
Qed.

(** X5 at a request that lacks the slot id, carries the phone number
    "12345" and names an unknown tenant: the missing field is reported. *)
Lemma createBooking_refusal_order_witness :
  required_ok Edge.nameless_slot = false
  /\ phone_ok Edge.nameless_slot = false
  /\ run_handler (createBooking None Edge.nameless_slot 0 "b-new"%string)
                 (idle Sample.db)
     = (Responded MissingRequiredFields, idle Sample.db).
Proof.
  split; [reflexivity|]. split; [reflexivity|].
  exact (proj1 (createBooking_refusal_order None Edge.nameless_slot 0
                  "b-new"%string Sample.db []) eq_refl).
Defined.

(** X6.  A request that passes every check of the handler but whose row
    the [bookings] table refuses ([total_price] absent or negative,
    [visitor_count] not positive, a negative head count) is answered by the
    [catch] block: 500 "Internal server error", the transaction rolled
    back, no row written, no task queued.  The handler has no 400 for these
    requests. *)
Theorem createBooking_constraint_violation :
  forall (req_user : option uuid) (b : CreateBody) (now : timestamp)
         (new_id : uuid) (d : DB) (ef : list Effect),
    admissible req_user b now d = true ->
    violates_constraint b = true ->
    run_handler (createBooking req_user b now new_id) (mkSession d None [] ef)
    = (Responded InternalError, mkSession d None [] ef)
    /\ status_code InternalError = 500.
Proof.
  intros req_user b now new_id d ef Hadm Hbad. split; [|reflexivity].
  exact (constraint_violation_run req_user b now new_id d ef Hadm Hbad).
Qed.

(** X6 at a direct booking with [visitor_count] 0. *)
Lemma createBooking_constraint_violation_witness :
  run_handler (createBooking None Edge.zero_visitors 0 "b-new"%string)
              (idle Sample.db)
  = (Responded InternalError, idle Sample.db).
Proof.
  exact (proj1 (createBooking_constraint_violation None Edge.zero_visitors 0
                  "b-new"%string Sample.db [] eq_refl eq_refl)).
Defined.

(* ================================================================== *)
(** * One booking after another *)
(* ================================================================== *)

Lemma constraints_met b :
  violates_constraint b = false ->
  exists price,
    body_total_price b = Some price /\ 0 < req_visitor_count b
    /\ 0 <= finalAdultCount b /\ 0 <= finalChildCount b /\ 0 <= price.
Proof.
  unfold violates_constraint.
  destruct (body_total_price b) as [price|]; [|discriminate].
  rewrite !orb_false_iff. intros (((H1 & H2) & H3) & H4).
  apply Z.ltb_ge in H1, H3, H4. apply Z.leb_gt in H2.
  exists price. repeat split; assumption.
Qed.








(* ================================================================== *)
(** * When a booking is confirmed *)
(* ================================================================== *)

Lemma created_iff req_user b now new_id d ef :
  (exists row,
      fst (run_handler (createBooking req_user b now new_id)
                       (mkSession d None [] ef))
      = Responded (Created row))
  <-> admissible req_user b now d = true /\ violates_constraint b = false.
Proof.
  split.
  - intros [row Hrow].
    assert (Hadm : admissible req_user b now d = true).
    { pose proof (createBooking_settles req_user b now new_id d ef
                    (mkSession d None [] ef)
                    (conj eq_refl (conj eq_refl eq_refl))) as H.
      unfold run_handler in Hrow.
      destruct (createBooking req_user b now new_id (mkSession d None [] ef))
        as [[[]|r|] s']; simpl in *; try discriminate.
      injection Hrow as ->. exact (proj1 H). }
    split; [exact Hadm|].
    destruct (violates_constraint b) eqn:Hbad; [|reflexivity].
    rewrite (constraint_violation_run req_user b now new_id d ef Hadm Hbad)
      in Hrow.
    discriminate Hrow.
  - intros [Hadm Hok].
    destruct (constraints_met b Hok) as (price & Hp & Hv & Ha & Hc & Hpr).
    eexists.
    rewrite (createBooking_succeeds req_user b now new_id d ef price
               Hadm Hp Hv Ha Hc Hpr).
    reflexivity.
Qed.


(* ================================================================== *)
(** * The reaper and the release route next to the create route *)
(* ================================================================== *)

Lemma cleanup_visible t fs ef d :
  let d' := visible (snd (cleanupExpiredLocks t (mkSession d None fs ef))) in
  d' = d
  \/ d' = set_booking_locks d
            (filter (fun l => negb (expired t l)) (booking_locks d)).
Proof.
  unfold cleanupExpiredLocks, try_catch, bind, statement, delete_expired_locks,
    current, with_current.
  destruct fs as [|[|] fs']; simpl; auto.
Qed.

Lemma cleanup_run t ef d :
  cleanupExpiredLocks t (mkSession d None [] ef)
  = (Val tt,
     mkSession (set_booking_locks d
                  (filter (fun l => negb (expired t l)) (booking_locks d)))
               None [] ef).
Proof. reflexivity. Qed.

Lemma live_after_reaping L t now (l : list BookingLock) :
  t <= now ->
  filter (fun l => (lock_id l =? L)%string && (now <? lock_expires_at l))
         (filter (fun l => negb (expired t l)) l)
  = filter (fun l => (lock_id l =? L)%string && (now <? lock_expires_at l)) l.
Proof.
  intros Hle. induction l as [|x l IH]; [reflexivity|]. simpl.
  unfold expired at 1.
  destruct (lock_expires_at x <=? t) eqn:E; simpl.
  - apply Z.leb_le in E.
    assert (Hdead : (now <? lock_expires_at x) = false)
      by (apply Z.ltb_ge; lia).
    rewrite Hdead, andb_false_r. exact IH.
  - rewrite IH. reflexivity.
Qed.

Lemma admissible_same_live u b now d d' :
  tenants d' = tenants d -> slots d' = slots d ->
  service_offers d' = service_offers d ->
  (forall L, live_locks L now d' = live_locks L now d) ->
  admissible u b now d' = admissible u b now d.
Proof.
  intros Ht Hs Ho Hl.
  unfold admissible, tenant_ok, lock_ok, slot_ok, slot_rows, offer_ok.
  rewrite Ht, Hs, Ho, Hl. reflexivity.
Qed.

(** X10.  The reaper never takes a lock that the create route would still
    accept: a cycle at time [t], whether or not its statement throws,
    leaves the locks that are live at any [now >= t] as they were, so every
    check of a later [createBooking] has the same verdict with and without
    the cycle, and the request is confirmed after it exactly when it would
    have been confirmed without it. *)
Theorem cleanupExpiredLocks_spares_live_locks :
  forall (t now : timestamp) (fs : list bool) (ef : list Effect) (d : DB),
    t <= now ->
    let d' := visible (snd (cleanupExpiredLocks t (mkSession d None fs ef))) in
    (forall L, live_locks L now d' = live_locks L now d)
    /\ (forall u b, admissible u b now d' = admissible u b now d)
    /\ (forall u b new_id ef',
           (exists row,
               fst (run_handler (createBooking u b now new_id)
                                (mkSession d' None [] ef'))
               = Responded (Created row))
           <-> (exists row,
                   fst (run_handler (createBooking u b now new_id)
                                    (mkSession d None [] ef'))
                   = Responded (Created row))).
Proof.
  intros t now fs ef d Hle d'.
  assert (Hlive : forall L, live_locks L now d' = live_locks L now d).
  { intros L. destruct (cleanup_visible t fs ef d) as [H|H];
      fold d' in H; rewrite H; [reflexivity|].
    unfold live_locks. simpl. apply live_after_reaping, Hle. }
  assert (Hadm : forall u b, admissible u b now d' = admissible u b now d).
  { intros u b. apply admissible_same_live; try exact Hlive;
      destruct (cleanup_visible t fs ef d) as [H|H]; fold d' in H; rewrite H;
      reflexivity. }
  split; [exact Hlive|]. split; [exact Hadm|].
  intros u b new_id ef'. rewrite !created_iff, Hadm. reflexivity.
Qed.

(** X10 on sample tables: the cycle at 60 s leaves session B's lock [L2]
    (expiring at 120 s) usable at 61 s. *)
Lemma cleanupExpiredLocks_spares_live_locks_witness :
  let d' := visible (snd (cleanupExpiredLocks 60000 (idle Edge.db))) in
  live_locks "L2"%string 61000 d' = [Edge.lockB]
  /\ admissible None Edge.locked_free 61000 d' = true.
Proof.
  pose proof (cleanupExpiredLocks_spares_live_locks 60000 61000 [] []
                Edge.db) as H.
  assert (Hle : 60000 <= 61000) by lia.
  destruct (H Hle) as (H1 & H2 & _).
  split; [rewrite H1|rewrite H2]; reflexivity.
Defined.

Lemma expired_max t1 t2 x :
  expired (Z.max t1 t2) x = expired t1 x || expired t2 x.
Proof.
  unfold expired.
  destruct (lock_expires_at x <=? t1) eqn:E1;
    destruct (lock_expires_at x <=? t2) eqn:E2; simpl;
    [apply Z.leb_le; apply Z.leb_le in E1; lia
    |apply Z.leb_le; apply Z.leb_le in E1; lia
    |apply Z.leb_le; apply Z.leb_le in E2; lia
    |apply Z.leb_gt; apply Z.leb_gt in E1; apply Z.leb_gt in E2; lia].
Qed.

Lemma reap_twice t1 t2 (l : list BookingLock) :
  filter (fun l => negb (expired t2 l)) (filter (fun l => negb (expired t1 l)) l)
  = filter (fun l => negb (expired (Z.max t1 t2) l)) l.
Proof.
  induction l as [|x l IH]; [reflexivity|].
  cbn [filter]. rewrite expired_max.
  destruct (expired t1 x) eqn:E1; cbn [negb orb filter].
  - exact IH.
  - destruct (expired t2 x); cbn [negb]; [exact IH|].
    rewrite IH. reflexivity.
Qed.

(** X11.  Reaper cycles compose: with no statement throwing, a cycle at
    [t1] followed by one at [t2] leaves the tables that one cycle at the
    later of the two times leaves.  So a cycle run twice, or run late, or
    run by two server processes, deletes nothing a single cycle would have
    kept. *)
Theorem cleanupExpiredLocks_cycles_compose :
  forall (t1 t2 : timestamp) (ef : list Effect) (d : DB),
    let once t s := snd (cleanupExpiredLocks t s) in
    once t2 (once t1 (mkSession d None [] ef))
    = once (Z.max t1 t2) (mkSession d None [] ef)
    /\ once t1 (once t1 (mkSession d None [] ef))
       = once t1 (mkSession d None [] ef).
Proof.
  intros t1 t2 ef d once. subst once. cbv beta.
  rewrite !cleanup_run. cbn [snd]. rewrite !cleanup_run. cbn [snd].
  cbn [booking_locks set_booking_locks].
  rewrite !reap_twice, Z.max_id. destruct d; split; reflexivity.
Qed.


Lemma releaseLock_run u L sess d ef :
  truthy (js_or u sess) = true ->
  let session := string_of (js_or u sess) in
  run_handler (releaseLock u L sess) (mkSession d None [] ef)
  = (Responded
       (if (List.length (filter (owned_by L session) (booking_locks d)) =? 0)%nat
        then LockNotFound else LockReleased),
     mkSession
       (set_booking_locks d
          (filter (fun l => negb (owned_by L session l)) (booking_locks d)))
       None [] ef).
Proof.
  intros Hs session. unfold run_handler, releaseLock, try_catch. cbv zeta.
  rewrite Hs. fold session.
  erewrite bind_val by reflexivity.
  unfold bind at 1, statement, delete_owned_lock, current, with_current.
  simpl. rewrite length_map.
  destruct (List.length (filter (owned_by L session) (booking_locks d)));
    reflexivity.
Qed.

Lemma filter_none_left {A} (f : A -> bool) (l : list A) :
  filter f (filter (fun x => negb (f x)) l) = [].
Proof.
  induction l as [|x l IH]; [reflexivity|]. simpl.
  destruct (f x) eqn:E; simpl; [exact IH|]. rewrite E. exact IH.
Qed.

Lemma filter_idem {A} (f : A -> bool) (l : list A) :
  filter f (filter f l) = filter f l.
Proof.
  induction l as [|x l IH]; [reflexivity|]. simpl.
  destruct (f x) eqn:E; simpl; [rewrite E, IH; reflexivity|exact IH].
Qed.

(** X12.  A released lock is gone for the session that released it.  After
    a release call (whatever it replied), the same call again is answered
    404 "Lock not found or already released" and changes nothing, and a
    [createBooking] of that session presenting the lock id is refused at the
    lock validation, with nothing written. *)
Theorem releaseLock_then_lock_unusable :
  forall (u : option uuid) (L : uuid) (sess : option string)
         (ef : list Effect) (d : DB),
    truthy (js_or u sess) = true ->
    let s1 := snd (run_handler (releaseLock u L sess) (mkSession d None [] ef)) in
    run_handler (releaseLock u L sess) s1 = (Responded LockNotFound, s1)
    /\ forall (b : CreateBody) (now : timestamp) (new_id : uuid),
         truthy (body_lock_id b) = true ->
         string_of (body_lock_id b) = L ->
         js_or u (body_session_id b) = js_or u sess ->
         passes_preliminaries b d = true ->
         let out := run_handler (createBooking u b now new_id) s1 in
         snd out = s1
         /\ (fst out = Responded LockExpiredOrInvalid
             \/ fst out = Responded SessionMismatch).
Proof.
  intros u L sess ef d Hs s1. subst s1.
  rewrite (releaseLock_run u L sess d ef Hs). cbn [snd].
  set (session := string_of (js_or u sess)).
  set (d1 := set_booking_locks d _).
  split.
  - rewrite (releaseLock_run u L sess d1 ef Hs). fold session.
    unfold d1. cbn [booking_locks set_booking_locks].
    rewrite filter_none_left, filter_idem. reflexivity.
  - intros b now new_id Hlock HL Hsame Hpre.
    assert (Hsess : truthy (js_or u (body_session_id b)) = true)
      by (rewrite Hsame; exact Hs).
    assert (Hpre1 : passes_preliminaries b d1 = true) by exact Hpre.
    pose proof (validate_lock_run u b now d1 ef Hlock Hsess) as Hv.
    destruct (live_locks (string_of (body_lock_id b)) now d1) as [|l rest] eqn:E.
    + rewrite (refused_at_lock u b now new_id d1 ef _ Hpre1 Hv).
      split; [reflexivity|left; reflexivity].
    + assert (Hin : In l (live_locks (string_of (body_lock_id b)) now d1))
        by (rewrite E; left; reflexivity).
      unfold live_locks, d1 in Hin. cbn [booking_locks set_booking_locks] in Hin.
      apply filter_In in Hin as [Hin Hl]. apply filter_In in Hin as [_ Hno].
      apply andb_true_iff in Hl as [Hid _].
      rewrite HL in Hid. unfold owned_by in Hno. rewrite Hid in Hno.
      simpl in Hno. rewrite Hsame in Hv. fold session in Hv.
      apply negb_true_iff in Hno. rewrite Hno in Hv. simpl in Hv.
      rewrite (refused_at_lock u b now new_id d1 ef _ Hpre1 Hv).
      split; [reflexivity|right; reflexivity].
Qed.

(** X12 on sample tables: session B releases its lock [L2] and then tries
    to book with it. *)
Lemma releaseLock_then_lock_unusable_witness :
  let s1 := snd (run_handler (releaseLock None "L2"%string (Some "B"%string))
                             (idle Edge.db)) in
  run_handler (releaseLock None "L2"%string (Some "B"%string)) s1
  = (Responded LockNotFound, s1)
  /\ fst (run_handler (createBooking None Edge.locked_free 1000 "b-new"%string) s1)
     = Responded LockExpiredOrInvalid.
Proof.
  destruct (releaseLock_then_lock_unusable None "L2"%string (Some "B"%string)
              [] Edge.db eq_refl) as [H1 H2].
  split; [exact H1|]. reflexivity.
Defined.

(* ================================================================== *)
(** * Who may check in *)
(* ================================================================== *)

Section QrAccess.

Variables (req_user body_booking_id : option uuid) (now : timestamp)
          (d : DB) (ef : list Effect).

Let Qr := QrAuthorized req_user body_booking_id d.

Lemma validateQr_guards :
  triple (Closed d ef) (validateQr req_user body_booking_id now)
         (fun _ _ => False) Qr (fun _ => False).
Proof.
  unfold validateQr.
  apply triple_try with (Qt' := Closed d ef).
  2:{ apply triple_respond. intros s Hs. exact I. }
  eapply triple_bind; [apply triple_reject; intros s Hs; exact I|].
  intros ?. apply triple_pure. intros Hb. apply negb_false_iff in Hb.
  eapply triple_bind; [apply triple_reject; intros s Hs; exact I|].
  intros ?. apply triple_pure. intros Hu. apply negb_false_iff in Hu.
  cbv zeta.
  eapply triple_bind; [apply triple_query|].
  intros rows. apply triple_pure. intros ->.
  destruct (filter _ (users d)) as [|user urest] eqn:Husr.
  { apply triple_respond. intros s Hs. exact I. }
  eapply triple_bind; [apply triple_reject; intros s Hs; exact I|].
  intros ?. apply triple_pure. intros Hrole. apply negb_false_iff in Hrole.
  eapply triple_bind; [apply triple_query|].
  intros rows. apply triple_pure. intros ->.
  destruct (booking_details _ d) as [|bk rest] eqn:Hbk.
  { apply triple_respond. intros s Hs. exact I. }
  eapply triple_bind; [apply triple_reject; intros s Hs; exact I|].
  intros ?. apply triple_pure. intros Hten. apply negb_false_iff in Hten.
  assert (Hauth : qr_authorized req_user body_booking_id d).
  { exists user, urest, bk, rest. repeat split; try assumption.
    destruct (user_tenant_id user) as [t|]; [|discriminate].
    apply String.eqb_eq in Hten. rewrite Hten. reflexivity. }
  destruct (booking_details_row _ _ _ _ Hbk) as [Hin Hid].
  eapply triple_bind.
  { apply triple_reject. intros s Hs. unfold Qr, QrAuthorized.
    split; [exact Hauth|]. split; [exact Hid|].
    exists bk. repeat split. exact Hin. }
  intros ?. apply triple_pure. intros Hscan.
  eapply triple_bind; [apply triple_autocommit|].
  intros ?. apply triple_exists. intros d'. apply triple_pure. intros E.
  apply triple_respond. intros s Hs.
  unfold Qr, QrAuthorized.
  split; [exact Hauth|]. split; [exact Hid|].
  exists bk. repeat split. exact Hin.
Qed.

End QrAccess.

(** X13.  [validate-qr] discloses and changes booking data for authorized
    callers only.  Whichever statements throw: every reply that carries
    fields of a booking (the 200 and the 409 "already scanned") goes to a
    caller who is a row of [users] with role cashier, receptionist or
    tenant_admin and whose tenant is the booking's tenant, and it reports
    the booking that was asked for; and every call by anyone else leaves
    the tables as they were. *)
Theorem validateQr_serves_authorized_staff_only :
  forall (u bid : option uuid) (now : timestamp) (fs : list bool)
         (ef : list Effect) (d : DB),
    let out := run_handler (validateQr u bid now) (mkSession d None fs ef) in
    (forall bk',
        fst out = Responded (QrValidated bk')
        \/ fst out = Responded (AlreadyScanned bk') ->
        qr_authorized u bid d /\ booking_id bk' = string_of bid)
    /\ (~ qr_authorized u bid d -> visible (snd out) = d).
Proof.
  intros u bid now fs ef d out. subst out. unfold run_handler.
  pose proof (validateQr_guards u bid now d ef (mkSession d None fs ef)
                (conj eq_refl (conj eq_refl eq_refl))) as Hg.
  pose proof (validateQr_settles u bid now d ef (mkSession d None fs ef)
                (conj eq_refl (conj eq_refl eq_refl))) as Hs.
  destruct (validateQr u bid now (mkSession d None fs ef)) as [[[]|r|] s'];
    simpl in *; try contradiction.
  split.
  - intros bk' [H|H]; injection H as ->; simpl in Hg; tauto.
  - intros Hno. destruct r; simpl in Hg, Hs; try apply Hs.
    exfalso. apply Hno, Hg.
Qed.

(** X13 on the sample tables: the scan of [bk1] by cashier [u1] succeeds,
    so [u1] is authorized for [bk1]. *)
Lemma validateQr_serves_authorized_staff_only_witness :
  qr_authorized (Some "u1"%string) (Some "bk1"%string) Sample.db.
Proof.
  refine (proj1 (proj1 (validateQr_serves_authorized_staff_only
                          (Some "u1"%string) (Some "bk1"%string) 10 [] []
                          Sample.db) _ (or_introl eq_refl))).
Defined.

(* ================================================================== *)
(** * A sweep of the receipt worker, whatever throws *)
(* ================================================================== *)

Lemma triple_settled {A} P (m : M A) (Q : Session -> Prop) Qv Qr Qt Qr' Qt' :
  triple P m Qv Qr Qt ->
  (forall a s, Qv a s -> Q s) -> (forall r s, Qr r s -> Q s) ->
  (forall s, Qt s -> Q s) ->
  triple P (settled m) (fun _ => Q) Qr' Qt'.
Proof.
  intros Hm Hv Hr Ht s Hs. unfold settled. specialize (Hm s Hs).
  destruct (m s) as [[a|r|] s']; simpl in *; eauto.
Qed.

Lemma worker_frame_refl d : worker_frame d d.
Proof. repeat split. Qed.

Lemma identity_ids q q' :
  map job_identity q = map job_identity q' -> map job_id q = map job_id q'.
Proof.
  intros H.
  assert (E : forall l, map job_id l
                        = map (fun p : uuid * string * uuid * uuid * timestamp =>
                                 fst (fst (fst (fst p))))
                              (map job_identity l))
    by (intros l; rewrite map_map; reflexivity).
  rewrite (E q), (E q'), H. reflexivity.
Qed.

Lemma update_keeps_identity id (f : QueueJob -> QueueJob) q :
  (forall r, job_identity (f r) = job_identity r) ->
  map job_identity
      (map (fun j => if (job_id j =? id)%string then f j else j) q)
  = map job_identity q.
Proof.
  intros Hf. rewrite map_map. apply map_ext. intros r.
  destruct (job_id r =? id)%string; [apply Hf|reflexivity].
Qed.

Lemma update_keeps_others id id' (f : QueueJob -> QueueJob) q :
  (forall r, job_identity (f r) = job_identity r) ->
  id <> id' ->
  find (fun j => (job_id j =? id)%string)
       (map (fun j => if (job_id j =? id')%string then f j else j) q)
  = find (fun j => (job_id j =? id)%string) q.
Proof.
  intros Hf Hne. induction q as [|r q IH]; [reflexivity|]. simpl.
  destruct (job_id r =? id')%string eqn:E'.
  - assert (Hid : job_id (f r) = job_id r)
      by (pose proof (Hf r) as H; unfold job_identity in H; congruence).
    rewrite Hid.
    assert (E : (job_id r =? id)%string = false).
    { apply String.eqb_neq. apply String.eqb_eq in E'. congruence. }
    rewrite E. exact IH.
  - destruct (job_id r =? id)%string; [reflexivity|exact IH].
Qed.

Section SweepLogic.

Variables (zoho : Zoho) (now : timestamp) (d0 : DB) (ef0 : list Effect)
          (sel : list QueueJob).

Let Inv := Sweeping d0 ef0 sel.

Lemma sweeping_weaken n m s : (n <= m)%nat -> Inv n s -> Inv m s.
Proof.
  intros Hle (Ht & Htab & calls & He & Hok & Hn).
  split; [exact Ht|]. split; [exact Htab|].
  exists calls. repeat split; try assumption. lia.
Qed.

Lemma sweeping_start s : Closed d0 ef0 s -> Inv 0 s.
Proof.
  intros (Hv & Ht & He). split; [exact Ht|]. rewrite Hv, He. split.
  - split; [apply worker_frame_refl|]. intros; reflexivity.
  - exists []. rewrite app_nil_r. split; [reflexivity|].
    split; [constructor|apply Nat.le_refl].
Qed.

Lemma sweep_tables_update k f d :
  In k sel ->
  (forall r, job_identity (f r) = job_identity r) ->
  sweep_tables d0 sel d ->
  sweep_tables d0 sel
    (set_queue_jobs d
       (map (fun j => if (job_id j =? job_id k)%string then f j else j)
            (queue_jobs d))).
Proof.
  intros Hk Hf [Hfr Hrow].
  destruct Hfr as (H1 & H2 & H3 & H4 & H5 & H6 & H7 & H8).
  split.
  - repeat split; try assumption. simpl.
    rewrite update_keeps_identity by exact Hf. exact H8.
  - intros id Hid. rewrite <- (Hrow id Hid). unfold job_row. simpl.
    apply update_keeps_others; [exact Hf|].
    intros ->. apply Hid. apply in_map. exact Hk.
Qed.

Lemma sweeping_update k f n m (Qr : Reply -> Session -> Prop) :
  In k sel ->
  (forall r, job_identity (f r) = job_identity r) ->
  (n <= m)%nat ->
  triple (Inv n) (statement (update_job (job_id k) f))
         (fun _ => Inv n) Qr (Inv m).
Proof.
  intros Hk Hf Hle [v t fs ef] (Ht & Htab & Hlog). simpl in Ht. subst t.
  simpl in Htab, Hlog.
  unfold statement, update_job, current, with_current. simpl.
  destruct fs as [|[|] fs]; simpl.
  - split; [reflexivity|]. split; [|exact Hlog].
    apply sweep_tables_update; assumption.
  - apply (sweeping_weaken n m); [exact Hle|].
    split; [reflexivity|split; assumption].
  - split; [reflexivity|]. split; [|exact Hlog].
    apply sweep_tables_update; assumption.
Qed.

Lemma sweeping_bookings bid n m (Qr : Reply -> Session -> Prop) :
  (n <= m)%nat ->
  triple (Inv n)
         (select (fun d => filter (fun bk => (booking_id bk =? bid)%string)
                                  (bookings d)))
         (fun a s => a = filter (fun bk => (booking_id bk =? bid)%string)
                                (bookings d0)
                     /\ Inv n s)
         Qr (Inv m).
Proof.
  intros Hle [v t fs ef] (Ht & Htab & Hlog). simpl in Ht. subst t.
  simpl in Htab, Hlog.
  assert (Hb : bookings v = bookings d0) by apply Htab.
  unfold select, statement, current, with_current. simpl.
  destruct fs as [|[|] fs]; simpl.
  - rewrite Hb. split; [reflexivity|].
    split; [reflexivity|split; assumption].
  - apply (sweeping_weaken n m); [exact Hle|].
    split; [reflexivity|split; assumption].
  - rewrite Hb. split; [reflexivity|].
    split; [reflexivity|split; assumption].
Qed.

Lemma sweeping_call j bid n (Qr : Reply -> Session -> Prop) Qt :
  sweep_effect_ok d0 sel (ReceiptCall j bid) ->
  triple (Inv n) (emit (ReceiptCall j bid)) (fun _ => Inv (S n)) Qr Qt.
Proof.
  intros Hok [v t fs ef] (Ht & Htab & calls & He & Hcalls & Hn).
  simpl in Ht, Htab, He. subst t ef. unfold emit. simpl.
  split; [reflexivity|]. split; [exact Htab|].
  exists (calls ++ [ReceiptCall j bid]). simpl. split; [|split].
  - rewrite app_assoc. reflexivity.
  - apply Forall_app. split; [exact Hcalls|]. constructor; [exact Hok|constructor].
  - rewrite filter_app, length_app. simpl. lia.
Qed.

Lemma sweeping_log e n (Qr : Reply -> Session -> Prop) Qt :
  is_receipt_call e = false ->
  sweep_effect_ok d0 sel e ->
  triple (Inv n) (emit e) (fun _ => Inv n) Qr Qt.
Proof.
  intros Hno Hok [v t fs ef] (Ht & Htab & calls & He & Hcalls & Hn).
  simpl in Ht, Htab, He. subst t ef. unfold emit. simpl.
  split; [reflexivity|]. split; [exact Htab|].
  exists (calls ++ [e]). simpl. split; [|split].
  - rewrite app_assoc. reflexivity.
  - apply Forall_app. split; [exact Hcalls|]. constructor; [exact Hok|constructor].
  - rewrite filter_app, length_app. simpl. rewrite Hno. simpl. lia.
Qed.

Lemma on_error_sweeping k n :
  In k sel ->
  triple (Inv n)
         (let nextAttempt := (payload_attempt k + 1)%N in
          if (MAX_RETRIES <=? nextAttempt)%N then
            statement (update_job (job_id k) (set_failed now)) ;;
            emit (JobGaveUp (job_id k)) ;;
            ret false
          else
            let delay := calculateDelay nextAttempt in
            statement (update_job (job_id k) (set_retry nextAttempt)) ;;
            emit (RetryScheduled (job_id k) nextAttempt delay) ;;
            ret false)
         (fun _ => Inv n) (fun _ _ => False) (Inv n).
Proof.
  intros Hk. cbv zeta.
  destruct (MAX_RETRIES <=? payload_attempt k + 1)%N eqn:E.
  - eapply triple_bind;
      [apply sweeping_update; [exact Hk|reflexivity|apply Nat.le_refl]|].
    intros ?. eapply triple_bind.
    + apply sweeping_log; [reflexivity|].
      exists k. repeat split; [exact Hk|]. apply N.leb_le. exact E.
    + intros ?. apply triple_ret. auto.
  - eapply triple_bind;
      [apply sweeping_update; [exact Hk|reflexivity|apply Nat.le_refl]|].
    intros ?. eapply triple_bind.
    + apply sweeping_log; [reflexivity|].
      split; [exists k; repeat split; exact Hk|].
      split; [apply N.leb_gt; exact E|reflexivity].
    + intros ?. apply triple_ret. auto.
Qed.

Lemma processReceiptJob_sweeping k n :
  In k sel ->
  triple (Inv n) (processReceiptJob zoho now k)
         (fun _ => Inv (S n)) (fun _ _ => False) (Inv (S n)).
Proof.
  intros Hk. unfold processReceiptJob. cbv zeta.
  assert (Hup : forall s, Inv n s -> Inv (S n) s)
    by (intros s; apply sweeping_weaken; lia).
  apply triple_try with (Qt' := Inv (S n)).
  2:{ exact (on_error_sweeping k (S n) Hk). }
  eapply triple_bind; [apply sweeping_bookings with (m := S n); lia|].
  intros rows. apply triple_pure. intros ->.
  destruct (filter _ (bookings d0)) as [|bk rest] eqn:Hbk.
  { apply triple_throw. exact Hup. }
  destruct (truthy (zoho_invoice_id bk)) eqn:Hinv.
  { eapply triple_bind;
      [apply sweeping_update with (m := S n); [exact Hk|reflexivity|lia]|].
    intros ?. apply triple_ret. exact Hup. }
  destruct (negb (payment_status bk =? "paid")%string) eqn:Hpaid.
  { eapply triple_bind;
      [apply sweeping_update with (m := S n); [exact Hk|reflexivity|lia]|].
    intros ?. apply triple_ret. exact Hup. }
  eapply triple_bind.
  { apply sweeping_call. split.
    - unfold billable. rewrite Hbk, Hinv.
      apply negb_false_iff in Hpaid. rewrite Hpaid. reflexivity.
    - exists k. repeat split. exact Hk. }
  intros ?.
  destruct (zoho (payload_booking_id k)).
  - eapply triple_bind;
      [apply sweeping_update; [exact Hk|reflexivity|apply Nat.le_refl]|].
    intros ?. apply triple_ret. auto.
  - apply triple_throw. auto.
  - apply triple_throw. auto.
Qed.

Lemma claim_and_process_sweeping k n :
  In k sel ->
  triple (Inv n) (claim_and_process zoho now k)
         (fun _ => Inv (S n)) (fun _ _ => False) (Inv (S n)).
Proof.
  intros Hk. unfold claim_and_process.
  eapply triple_bind;
    [apply sweeping_update with (m := S n); [exact Hk|reflexivity|lia]|].
  intros ?. apply processReceiptJob_sweeping. exact Hk.
Qed.

Lemma allSettled_sweeping l :
  (forall k, In k l -> In k sel) ->
  forall n,
    triple (Inv n) (allSettled (map (claim_and_process zoho now) l))
           (fun _ => Inv (n + List.length l)) (fun _ _ => False)
           (fun _ => False).
Proof.
  induction l as [|k l IH]; intros Hl n; simpl.
  - apply triple_ret. intros s Hs. rewrite Nat.add_0_r. exact Hs.
  - eapply triple_bind.
    + apply triple_settled with (Q := Inv (S n))
                                (Qv := fun _ => Inv (S n))
                                (Qr := fun _ _ => False)
                                (Qt := Inv (S n)).
      * apply claim_and_process_sweeping. apply Hl. left. reflexivity.
      * auto.
      * intros r s [].
      * auto.
    + intros ?. rewrite <- Nat.add_succ_comm. apply IH.
      intros k' Hk'. apply Hl. right. exact Hk'.
Qed.

End SweepLogic.

Lemma sweep_sweeping zoho now d0 ef0 :
  triple (Closed d0 ef0) (processZohoReceiptJobs zoho now)
         (fun _ => Sweeping d0 ef0 (pending_jobs now d0)
                            (List.length (pending_jobs now d0)))
         (fun _ _ => False) (fun _ => False).
Proof.
  set (sel := pending_jobs now d0).
  assert (Hstart : forall s, Closed d0 ef0 s ->
                             Sweeping d0 ef0 sel (List.length sel) s).
  { intros s Hs. apply (sweeping_weaken d0 ef0 sel 0); [lia|].
    apply sweeping_start. exact Hs. }
  unfold processZohoReceiptJobs.
  apply triple_try with (Qt' := Sweeping d0 ef0 sel (List.length sel)).
  2:{ apply triple_ret. auto. }
  eapply triple_bind.
  { eapply triple_conseq; [apply (triple_query d0 ef0)| | | |].
    - intros s H; exact H.
    - intros a s H; exact H.
    - intros r s H; exact H.
    - exact Hstart. }
  intros jobs. apply triple_pure. intros ->. fold sel.
  destruct (List.length sel =? 0)%nat.
  - apply triple_ret. exact Hstart.
  - eapply triple_conseq;
      [apply (allSettled_sweeping zoho now d0 ef0 sel sel) with (n := 0%nat)
      | | | |].
    + auto.
    + apply sweeping_start.
    + intros a s H; exact H.
    + intros r s H; exact H.
    + intros s [].
Qed.

Lemma sweep_any zoho now s :
  tx s = None ->
  fst (processZohoReceiptJobs zoho now s) = Val tt
  /\ Sweeping (visible s) (effects s) (pending_jobs now (visible s))
              (List.length (pending_jobs now (visible s)))
              (snd (processZohoReceiptJobs zoho now s)).
Proof.
  intros Ht.
  pose proof (sweep_sweeping zoho now (visible s) (effects s) s
                (conj eq_refl (conj Ht eq_refl))) as H.
  destruct (processZohoReceiptJobs zoho now s) as [[[]|r|] s'];
    simpl in *; try contradiction.
  split; [reflexivity|exact H].
Qed.

Lemma pending_jobs_bound now d : (List.length (pending_jobs now d) <= 10)%nat.
Proof. unfold pending_jobs. apply firstn_le_length. Qed.

Lemma permitted_effect_job d0 sel e :
  sweep_effect_ok d0 sel e ->
  exists k, In k sel /\ effect_job e = Some (job_id k).
Proof.
  destruct e as [b|b|j b|j n dl|j]; simpl; try contradiction.
  - intros (_ & k & Hk & <- & _). exists k. auto.
  - intros ((k & Hk & <- & _) & _). exists k. auto.
  - intros (k & Hk & <- & _). exists k. auto.
Qed.

Lemma permitted_calls_other d0 sel id calls :
  Forall (sweep_effect_ok d0 sel) calls ->
  ~ In id (map job_id sel) ->
  receipt_calls id calls = 0%nat.
Proof.
  intros Hok Hid. apply receipt_calls_other. intros e He.
  rewrite Forall_forall in Hok.
  destruct (permitted_effect_job d0 sel e (Hok e He)) as (k & Hk & ->).
  intros Heq. injection Heq as Heq. apply Hid. rewrite <- Heq.
  apply in_map. exact Hk.
Qed.

(** A row that is not ready is not among the selected ones. *)
Lemma unready_not_selected now d r :
  NoDup (map job_id (queue_jobs d)) ->
  In r (queue_jobs d) -> ready now r = false ->
  ~ In (job_id r) (map job_id (pending_jobs now d)).
Proof.
  intros Hnd Hin Hno Hsel. apply in_map_iff in Hsel as (k & Hid & Hk).
  apply pending_jobs_In in Hk as [Hkin Hready].
  assert (k = r) by (eapply same_id_same_row; eauto). subst k.
  rewrite Hready in Hno. discriminate.
Qed.

(** X14.  The background jobs contain their failures.  Whichever statements
    throw, a sweep of the receipt worker and a cycle of the lock reaper
    complete normally (nothing propagates to the timer that called them),
    with no transaction left open; the sweep changes no table but
    [queue_jobs], where it adds and deletes no row and leaves every row's
    id, type, payload ids and creation time as they were. *)
Theorem background_jobs_contain_failures :
  forall (zoho : Zoho) (now : timestamp) (fs : list bool) (ef : list Effect)
         (d : DB),
    let sweep := processZohoReceiptJobs zoho now (mkSession d None fs ef) in
    let cycle := cleanupExpiredLocks now (mkSession d None fs ef) in
    fst sweep = Val tt /\ tx (snd sweep) = None
    /\ worker_frame d (visible (snd sweep))
    /\ map job_id (queue_jobs (visible (snd sweep))) = map job_id (queue_jobs d)
    /\ fst cycle = Val tt /\ tx (snd cycle) = None.
Proof.
  intros zoho now fs ef d sweep cycle.
  destruct (sweep_any zoho now (mkSession d None fs ef) eq_refl)
    as (Hval & Ht & (Hfr & _) & _).
  fold sweep in Hval, Ht, Hfr. simpl in Hfr.
  split; [exact Hval|]. split; [exact Ht|]. split; [exact Hfr|].
  split; [apply identity_ids, Hfr|].
  subst cycle.
  unfold cleanupExpiredLocks, try_catch, bind, statement, delete_expired_locks,
    current, with_current.
  destruct fs as [|[|] fs']; simpl; split; reflexivity.
Qed.

(** X15.  The worker never asks for a receipt it should not.  Whichever
    statements throw, every call of [zohoService.generateReceipt] made by a
    sweep is for a job the sweep selected (a ready row of [queue_jobs]) and
    for a booking that was read as paid and without invoice id; a sweep
    makes at most ten calls; and a retry it announces carries the delay of
    [calculateDelay] for an attempt number below [MAX_RETRIES]. *)
Theorem sweep_calls_only_for_billable_bookings :
  forall (zoho : Zoho) (now : timestamp) (fs : list bool) (ef : list Effect)
         (d : DB),
    let s' := snd (processZohoReceiptJobs zoho now (mkSession d None fs ef)) in
    exists calls,
      effects s' = ef ++ calls
      /\ (forall j bid,
             In (ReceiptCall j bid) calls ->
             billable d bid = true
             /\ exists k, In k (queue_jobs d) /\ ready now k = true
                          /\ job_id k = j /\ payload_booking_id k = bid)
      /\ (List.length (filter is_receipt_call calls) <= 10)%nat
      /\ (forall j n delay,
             In (RetryScheduled j n delay) calls ->
             delay = calculateDelay n /\ (n < MAX_RETRIES)%N).
Proof.
  intros zoho now fs ef d s'.
  destruct (sweep_any zoho now (mkSession d None fs ef) eq_refl)
    as (_ & _ & _ & calls & He & Hok & Hn).
  fold s' in He. simpl in He, Hok, Hn.
  rewrite Forall_forall in Hok.
  exists calls. split; [exact He|]. split; [|split].
  - intros j bid Hin. destruct (Hok _ Hin) as (Hb & k & Hk & Hj & Hbid).
    split; [exact Hb|]. apply pending_jobs_In in Hk as [Hkin Hready].
    exists k. auto.
  - pose proof (pending_jobs_bound now d). lia.
  - intros j n delay Hin. destruct (Hok _ Hin) as (_ & Hlt & Hd). auto.
Qed.

(** X16.  A sweep leaves alone what it did not select.  Whichever
    statements throw, a job id that is not among the (at most ten) selected
    rows keeps its row exactly and gets no call of the collaborator; with
    unique job ids this holds for every row that is not ready: not of type
    [zoho_receipt], not pending, or started less than five minutes ago. *)
Theorem sweep_skips_unselected_jobs :
  forall (zoho : Zoho) (now : timestamp) (fs : list bool) (ef : list Effect)
         (d : DB),
    let s' := snd (processZohoReceiptJobs zoho now (mkSession d None fs ef)) in
    (forall id,
        ~ In id (map job_id (pending_jobs now d)) ->
        job_row id (visible s') = job_row id d
        /\ receipt_calls id (effects s') = receipt_calls id ef)
    /\ (NoDup (map job_id (queue_jobs d)) ->
        forall r, In r (queue_jobs d) -> ready now r = false ->
                  job_row (job_id r) (visible s') = Some r
                  /\ receipt_calls (job_id r) (effects s')
                     = receipt_calls (job_id r) ef).
Proof.
  intros zoho now fs ef d s'.
  destruct (sweep_any zoho now (mkSession d None fs ef) eq_refl)
    as (_ & _ & (_ & Hrow) & calls & He & Hok & _).
  fold s' in Hrow, He. simpl in Hrow, He, Hok.
  assert (Hskip : forall id,
             ~ In id (map job_id (pending_jobs now d)) ->
             job_row id (visible s') = job_row id d
             /\ receipt_calls id (effects s') = receipt_calls id ef).
  { intros id Hid. split; [apply Hrow, Hid|].
    rewrite He, receipt_calls_app,
      (permitted_calls_other d _ id calls Hok Hid). lia. }
  split; [exact Hskip|].
  intros Hnd r Hin Hno.
  destruct (Hskip (job_id r) (unready_not_selected now d r Hnd Hin Hno))
    as [H1 H2].
  split; [|exact H2]. rewrite H1. apply job_row_of_In; assumption.
Qed.

(** X16 on the sample tables with the receipt job already failed. *)
Lemma sweep_skips_unselected_jobs_witness :
  let d := set_queue_jobs Sample.db [set_failed 5 Sample.receipt_job] in
  job_row "j1"%string
          (visible (snd (processZohoReceiptJobs zoho_down 1000 (idle d))))
  = Some (set_failed 5 Sample.receipt_job).
Proof.
  intros d.
  refine (proj1 (proj2 (sweep_skips_unselected_jobs zoho_down 1000 [] [] d)
                   _ (set_failed 5 Sample.receipt_job) _ eq_refl)).
  - simpl. constructor; [intros []|constructor].
  - left. reflexivity.
Defined.

(** X15 on the sample tables: the call made for job [j1] is for the paid
    booking [bk1]. *)
Lemma sweep_calls_only_for_billable_bookings_witness :
  billable Sample.db "bk1"%string = true.
Proof.
  destruct (sweep_calls_only_for_billable_bookings zoho_down 1000 [] []
              Sample.db) as (calls & He & Hcalls & _).
  apply (Hcalls "j1"%string "bk1"%string).
  simpl in He. rewrite <- He. left. reflexivity.
Defined.

(* ================================================================== *)
(** * Jobs the worker does not come back to *)
(* ================================================================== *)

Lemma sweep_leaves_unready zoho now j s :
  tx s = None ->
  NoDup (map job_id (queue_jobs (visible s))) ->
  job_row (job_id j) (visible s) = Some j ->
  ready now j = false ->
  let s' := snd (processZohoReceiptJobs zoho now s) in
  tx s' = None
  /\ NoDup (map job_id (queue_jobs (visible s')))
  /\ job_row (job_id j) (visible s') = Some j
  /\ receipt_calls (job_id j) (effects s')
     = receipt_calls (job_id j) (effects s).
Proof.
  intros Ht Hnd Hrow Hno s'.
  destruct (sweep_any zoho now s Ht)
    as (_ & Ht' & (Hfr & Hkeep) & calls & He & Hok & _).
  fold s' in Ht', Hfr, Hkeep, He.
  assert (Hin : In j (queue_jobs (visible s))) by (apply job_row_In in Hrow; tauto).
  pose proof (unready_not_selected now (visible s) j Hnd Hin Hno) as Hid.
  split; [exact Ht'|]. split; [|split].
  - rewrite (identity_ids _ _ (proj2 (proj2 (proj2 (proj2 (proj2 (proj2
               (proj2 Hfr)))))))). exact Hnd.
  - rewrite (Hkeep _ Hid). exact Hrow.
  - rewrite He, receipt_calls_app,
      (permitted_calls_other _ _ _ calls Hok Hid). lia.
Qed.

Lemma sweeps_leave_unready ticks j :
  (forall now zoho, In (now, zoho) ticks -> ready now j = false) ->
  forall s,
    tx s = None ->
    NoDup (map job_id (queue_jobs (visible s))) ->
    job_row (job_id j) (visible s) = Some j ->
    let s' := snd (sweeps ticks s) in
    job_row (job_id j) (visible s') = Some j
    /\ receipt_calls (job_id j) (effects s')
       = receipt_calls (job_id j) (effects s).
Proof.
  induction ticks as [|[now zoho] rest IH]; intros Hno s Ht Hnd Hrow.
  - simpl. auto.
  - cbv zeta. rewrite sweeps_cons.
    destruct (sweep_leaves_unready zoho now j s Ht Hnd Hrow
                (Hno now zoho (or_introl eq_refl)))
      as (Ht' & Hnd' & Hrow' & Hcalls').
    destruct (IH (fun n z H => Hno n z (or_intror H)) _ Ht' Hnd' Hrow')
      as [H1 H2].
    split; [exact H1|]. rewrite H2. exact Hcalls'.
Qed.

Lemma unready_status now j :
  job_status j <> "pending"%string \/ job_type j <> "zoho_receipt"%string ->
  ready now j = false.
Proof.
  unfold ready. intros [H|H].
  - apply String.eqb_neq in H. rewrite H, andb_false_r. reflexivity.
  - apply String.eqb_neq in H. rewrite H. reflexivity.
Qed.

(** X17.  Only pending receipt jobs are ever worked on.  Over any sequence
    of sweeps, whichever statements throw, a row of [queue_jobs] whose
    status is not 'pending' (completed, failed, or left in 'processing' by
    a sweep that was interrupted) or whose type is not 'zoho_receipt' stays
    exactly as it is and gets no call of the collaborator: nothing in the
    worker returns a job from 'processing' or 'failed' to work. *)
Theorem sweeps_never_resume_settled_jobs :
  forall (ticks : list (timestamp * Zoho)) (fs : list bool)
         (ef : list Effect) (d : DB) (j : QueueJob),
    NoDup (map job_id (queue_jobs d)) ->
    In j (queue_jobs d) ->
    job_status j <> "pending"%string \/ job_type j <> "zoho_receipt"%string ->
    let s' := snd (sweeps ticks (mkSession d None fs ef)) in
    job_row (job_id j) (visible s') = Some j
    /\ receipt_calls (job_id j) (effects s') = receipt_calls (job_id j) ef.
Proof.
  intros ticks fs ef d j Hnd Hin Hst.
  apply (sweeps_leave_unready ticks j
           (fun now zoho _ => unready_status now j Hst)
           (mkSession d None fs ef) eq_refl Hnd).
  apply job_row_of_In; assumption.
Qed.

(** X17 on the sample tables with job [j1] left in 'processing': four
    sweeps later it is still there, untouched. *)
Lemma sweeps_never_resume_settled_jobs_witness :
  let stuck := set_processing 5 Sample.receipt_job in
  let d := set_queue_jobs Sample.db [stuck] in
  let s' := snd (sweeps sample_ticks (idle d)) in
  job_row "j1"%string (visible s') = Some stuck
  /\ receipt_calls "j1"%string (effects s') = 0%nat.
Proof.
  intros stuck d.
  refine (sweeps_never_resume_settled_jobs sample_ticks [] [] d stuck _ _ _).
  - simpl. constructor; [intros []|constructor].
  - left. reflexivity.
  - left. discriminate.
Defined.

Lemma job_result_keeps_start zoho now k d r :
  started_at (fst (job_result zoho now k d) r) = started_at r.
Proof.
  unfold job_result. cbv zeta.
  destruct (filter _ (bookings d)) as [|bk rest];
    [|destruct (truthy (zoho_invoice_id bk));
      [|destruct (negb (payment_status bk =? "paid")%string);
        [|destruct (zoho (payload_booking_id k))]]];
    try destruct (MAX_RETRIES <=? payload_attempt k + 1)%N;
    reflexivity.
Qed.

Lemma started_not_stale t now r :
  started_at r = Some t -> now <= t + 300000 -> ready now r = false.
Proof.
  intros Hs Hle. unfold ready, stale. rewrite Hs.
  assert (E : (t <? now - 300000) = false) by (apply Z.ltb_ge; lia).
  rewrite E. apply andb_false_r.
Qed.

(** X18.  The spacing of attempts is the five-minute staleness window, not
    the computed backoff.  A job selected by a sweep at time [t] gets
    [started_at = t]; whatever the outcome of that attempt (and whatever
    delay of 2 s or 4 s the retry announced), no sweep at a time up to
    [t] + 5 min touches its row or calls the collaborator for it, whichever
    statements throw in those sweeps. *)
Theorem job_is_left_alone_for_five_minutes :
  forall (zoho : Zoho) (t : timestamp) (ef : list Effect) (d : DB)
         (k : QueueJob),
    NoDup (map job_id (queue_jobs d)) ->
    In k (pending_jobs t d) ->
    let s1 := snd (processZohoReceiptJobs zoho t (mkSession d None [] ef)) in
    exists r,
      job_row (job_id k) (visible s1) = Some r
      /\ started_at r = Some t
      /\ forall (ticks : list (timestamp * Zoho)) (fs : list bool),
           (forall now z, In (now, z) ticks -> now <= t + 300000) ->
           let s2 := snd (sweeps ticks
                            (mkSession (visible s1) None fs (effects s1))) in
           job_row (job_id k) (visible s2) = Some r
           /\ receipt_calls (job_id k) (effects s2)
              = receipt_calls (job_id k) (effects s1).
Proof.
  intros zoho t ef d k Hnd Hk s1. subst s1. rewrite sweep_run. cbn [snd].
  destruct (sweep_processes zoho t d k (pending_jobs t d) (queue_jobs d)
              (pending_jobs_NoDup t d Hnd) Hk) as [Hfind _].
  destruct (pending_jobs_In t d k Hk) as [Hin _].
  pose proof (job_row_of_In d k Hnd Hin) as Hrow. unfold job_row in Hrow.
  rewrite Hrow in Hfind. simpl in Hfind.
  set (r := fst (job_result zoho t k d) (set_processing t k)) in *.
  assert (Hid : job_id r = job_id k)
    by apply (job_result_keeps zoho t k d (set_processing t k)).
  assert (Hstart : started_at r = Some t)
    by (unfold r; rewrite job_result_keeps_start; reflexivity).
  exists r. split; [exact Hfind|]. split; [exact Hstart|].
  intros ticks fs Hticks. rewrite <- Hid. cbn [visible effects].
  assert (Hno : forall now z, In (now, z) ticks -> ready now r = false).
  { intros now z Hin'. apply (started_not_stale t); [exact Hstart|].
    exact (Hticks now z Hin'). }
  refine (sweeps_leave_unready ticks r Hno (mkSession _ None fs _)
            eq_refl _ _).
  - cbn [visible queue_jobs set_queue_jobs]. rewrite apply_jobs_ids. exact Hnd.
  - rewrite Hid. exact Hfind.
Qed.

(** X18 on the sample tables: job [j1] fails at 1 s with a retry announced
    in 2 s; the sweeps at 31 s and at 301 s leave it alone. *)
Lemma job_is_left_alone_for_five_minutes_witness :
  let s1 := snd (processZohoReceiptJobs zoho_down 1000 (idle Sample.db)) in
  let s2 := snd (sweeps [(31000, zoho_down); (301000, zoho_down)] s1) in
  In (RetryScheduled "j1"%string 1 2000) (effects s1)
  /\ receipt_calls "j1"%string (effects s2) = 1%nat.
Proof.
  intros s1 s2. split; [right; left; reflexivity|].
  assert (Hnd : NoDup (map job_id (queue_jobs Sample.db)))
    by (simpl; constructor; [intros []|constructor]).
  assert (Hk : In Sample.receipt_job (pending_jobs 1000 Sample.db))
    by (left; reflexivity).
  destruct (job_is_left_alone_for_five_minutes zoho_down 1000 [] Sample.db
              Sample.receipt_job Hnd Hk) as (r & _ & _ & Hlater).
  assert (Hticks : forall now z,
             In (now, z) [(31000, zoho_down); (301000, zoho_down)] ->
             now <= 1000 + 300000).
  { intros now z [H|[H|[]]]; injection H as <- _; lia. }
  destruct (Hlater _ [] Hticks) as [_ Hcalls].
  exact Hcalls.
Defined.

(* ================================================================== *)
(** * Which jobs a sweep selects, and what becomes of them *)
(* ================================================================== *)

Lemma insert_by_created_sorted j l :
  StronglySorted (fun a b => created_at a <= created_at b) l ->
  StronglySorted (fun a b => created_at a <= created_at b)
                 (insert_by_created j l).
Proof.
  induction l as [|k l IH]; intros Hs; simpl.
  - constructor; constructor.
  - inversion Hs as [|? ? Hl Hk]; subst.
    destruct (created_at j <? created_at k) eqn:E.
    + apply Z.ltb_lt in E. constructor; [exact Hs|].
      constructor; [lia|].
      rewrite Forall_forall in *. intros x Hx. specialize (Hk x Hx). lia.
    + apply Z.ltb_ge in E. constructor; [apply IH, Hl|].
      eapply Permutation_Forall; [apply insert_by_created_perm|].
      constructor; [exact E|exact Hk].
Qed.

Lemma order_by_created_sorted l :
  StronglySorted (fun a b => created_at a <= created_at b)
                 (order_by_created l).
Proof.
  unfold order_by_created. induction l as [|j l IH]; simpl.
  - constructor.
  - apply insert_by_created_sorted, IH.
Qed.

Lemma sorted_app {A} (R : A -> A -> Prop) (a b : list A) :
  StronglySorted R (a ++ b) ->
  StronglySorted R a /\ forall x y, In x a -> In y b -> R x y.
Proof.
  induction a as [|h a IH]; simpl; intros Hs.
  - split; [constructor|]. intros x y [].
  - inversion Hs as [|? ? Hl Hh]; subst.
    destruct (IH Hl) as [Ha Hab]. split.
    + constructor; [exact Ha|].
      apply Forall_app in Hh. tauto.
    + intros x y [<-|Hx] Hy.
      * rewrite Forall_forall in Hh. apply Hh, in_or_app. right. exact Hy.
      * apply Hab; assumption.
Qed.

(** X19.  A sweep takes the oldest ready jobs first.  The rows it selects
    are ready rows in order of creation, at most ten of them; no ready job
    is passed over in favour of a younger one; and when there are at most
    ten ready jobs the sweep takes them all. *)
Theorem pending_jobs_oldest_first :
  forall (now : timestamp) (d : DB),
    let sel := pending_jobs now d in
    let waiting := filter (ready now) (queue_jobs d) in
    (List.length sel <= 10)%nat
    /\ StronglySorted (fun a b => created_at a <= created_at b) sel
    /\ (forall k, In k sel -> In k waiting)
    /\ (forall k r, In k sel -> In r waiting ->
                    created_at r < created_at k -> In r sel)
    /\ ((List.length waiting <= 10)%nat -> forall r, In r waiting -> In r sel).
Proof.
  intros now d sel waiting.
  pose proof (order_by_created_sorted waiting) as Hs.
  pose proof (order_by_created_perm waiting) as Hp.
  rewrite <- (firstn_skipn 10 (order_by_created waiting)) in Hs.
  apply sorted_app in Hs as [Hs Hle].
  split; [apply pending_jobs_bound|]. split; [exact Hs|]. split; [|split].
  - intros k Hk. apply In_firstn in Hk.
    exact (Permutation_in _ (Permutation_sym Hp) Hk).
  - intros k r Hk Hr Hlt.
    apply (Permutation_in _ Hp) in Hr.
    rewrite <- (firstn_skipn 10 (order_by_created waiting)) in Hr.
    apply in_app_or in Hr as [Hr|Hr]; [exact Hr|].
    specialize (Hle k r Hk Hr). simpl in Hle. lia.
  - intros Hlen r Hr. apply (Permutation_in _ Hp) in Hr.
    unfold sel, pending_jobs. fold waiting.
    rewrite firstn_all2; [exact Hr|].
    rewrite <- (Permutation_length Hp). exact Hlen.
Qed.

(** X19 on the sample tables. *)
Lemma pending_jobs_oldest_first_witness :
  In Sample.receipt_job (pending_jobs 1000 Sample.db).
Proof.
  refine (proj2 (proj2 (proj2 (proj2
            (pending_jobs_oldest_first 1000 Sample.db)))) _
            Sample.receipt_job _).
  - simpl. lia.
  - left. reflexivity.
Defined.

(** X20.  What becomes of a selected job whose attempt does not fail, with
    no statement throwing and unique job ids.  If the booking already has
    an invoice id the job is completed without calling the collaborator; if
    the booking is not 'paid' (unpaid, but also 'paid_manual') the job is
    failed at once, without a call and without a retry; if the booking is
    paid without invoice and the collaborator succeeds, the job is
    completed after exactly one call.  Each time the row gets
    [started_at] and [completed_at] of this sweep and keeps its attempt
    counters. *)
Theorem sweep_settles_selected_job :
  forall (zoho : Zoho) (now : timestamp) (ef : list Effect) (d : DB)
         (k : QueueJob) (bk : Booking) (rest : list Booking),
    NoDup (map job_id (queue_jobs d)) ->
    In k (pending_jobs now d) ->
    filter (fun b => (booking_id b =? payload_booking_id k)%string) (bookings d)
    = bk :: rest ->
    let s' := snd (processZohoReceiptJobs zoho now (mkSession d None [] ef)) in
    let calls := (receipt_calls (job_id k) (effects s')
                  - receipt_calls (job_id k) ef)%nat in
    let settled_as st r :=
      job_status r = st /\ started_at r = Some now
      /\ completed_at r = Some now
      /\ payload_attempt r = payload_attempt k /\ attempts r = attempts k in
    (truthy (zoho_invoice_id bk) = true ->
     exists r, job_row (job_id k) (visible s') = Some r
               /\ settled_as "completed"%string r /\ calls = 0%nat)
    /\ (truthy (zoho_invoice_id bk) = false ->
        payment_status bk <> "paid"%string ->
        exists r, job_row (job_id k) (visible s') = Some r
                  /\ settled_as "failed"%string r /\ calls = 0%nat)
    /\ (billable d (payload_booking_id k) = true ->
        zoho (payload_booking_id k) = ReceiptOk ->
        exists r, job_row (job_id k) (visible s') = Some r
                  /\ settled_as "completed"%string r /\ calls = 1%nat).
Proof.
  intros zoho now ef d k bk rest Hnd Hk Hbk s' calls settled_as.
  subst s' calls. rewrite sweep_run. cbn [snd visible effects].
  destruct (sweep_processes zoho now d k (pending_jobs now d) (queue_jobs d)
              (pending_jobs_NoDup now d Hnd) Hk) as [Hfind Hcalls].
  destruct (pending_jobs_In now d k Hk) as [Hin _].
  pose proof (job_row_of_In d k Hnd Hin) as Hrow. unfold job_row in Hrow.
  rewrite Hrow in Hfind. simpl in Hfind.
  rewrite receipt_calls_app, Hcalls.
  unfold job_row. cbn [queue_jobs set_queue_jobs]. rewrite Hfind.
  unfold job_result, billable. rewrite Hbk. cbv zeta.
  split; [|split].
  - intros Hinv. rewrite Hinv. eexists. split; [reflexivity|].
    split; [repeat split|]. cbn [snd].
    change (receipt_calls (job_id k) []) with 0%nat. lia.
  - intros Hinv Hpay. rewrite Hinv.
    apply String.eqb_neq in Hpay. rewrite Hpay. cbn [negb].
    eexists. split; [reflexivity|]. split; [repeat split|]. cbn [snd].
    change (receipt_calls (job_id k) []) with 0%nat. lia.
  - intros Hbill Hz. apply andb_true_iff in Hbill as [Hinv Hpay].
    apply negb_true_iff in Hinv. rewrite Hinv, Hpay, Hz. cbn [negb].
    eexists. split; [reflexivity|]. split; [repeat split|]. cbn [snd].
    assert (E : receipt_calls (job_id k)
                  [ReceiptCall (job_id k) (payload_booking_id k)] = 1%nat)
      by (unfold receipt_calls; simpl; rewrite String.eqb_refl; reflexivity).
    rewrite E. lia.
Qed.

(** X20 on the sample tables: the paid booking [bk1] and the collaborator
    answering. *)
Lemma sweep_settles_selected_job_witness :
  exists r,
    job_row "j1"%string
      (visible (snd (processZohoReceiptJobs (fun _ => ReceiptOk) 1000
                                            (idle Sample.db))))
    = Some r
    /\ job_status r = "completed"%string.
Proof.
  assert (Hnd : NoDup (map job_id (queue_jobs Sample.db)))
    by (simpl; constructor; [intros []|constructor]).
  assert (Hk : In Sample.receipt_job (pending_jobs 1000 Sample.db))
    by (left; reflexivity).
  destruct (proj2 (proj2
              (sweep_settles_selected_job (fun _ => ReceiptOk) 1000 []
                 Sample.db Sample.receipt_job Sample.paid_booking []
                 Hnd Hk eq_refl)) eq_refl eq_refl)
    as (r & Hrow & (Hst & _) & _).
  exists r. split; [exact Hrow|exact Hst].
Defined.

(* ================================================================== *)
(** * The payment-status route *)
(* ================================================================== *)

Lemma valid_status_In st :
  existsb (String.eqb st) validStatuses = true -> In st validStatuses.
Proof.
  intros H. apply existsb_exists in H as (x & Hx & E).
  apply String.eqb_eq in E. subst x. exact Hx.
Qed.

Section PaymentRoute.

Variables (enum_ok : string -> bool) (req_user : option uuid)
          (bookingId : uuid) (body_payment_status : option string)
          (d : DB) (ef : list Effect).

Let Qv := PaymentSettled enum_ok req_user bookingId body_payment_status d ef.
Let st := string_of body_payment_status.
Let applied (s : Session) :=
  truthy body_payment_status = true /\ In st validStatuses
  /\ enum_ok st = true
  /\ payment_permitted req_user bookingId d = true
  /\ Closed (after_payment st bookingId d) ef s.

Lemma updatePaymentStatus_settles :
  triple (Closed d ef)
         (updatePaymentStatus enum_ok req_user bookingId body_payment_status)
         Qv (fun _ _ => False) (fun _ => False).
Proof.
  unfold updatePaymentStatus.
  apply triple_try with (Qt' := fun s => Closed d ef s \/ applied s).
  2:{ apply triple_ret. intros s Hs. exact Hs. }
  destruct (truthy body_payment_status) eqn:Hst; cbn [negb].
  2:{ apply triple_ret. intros s Hs. exact Hs. }
  cbv zeta. fold st.
  destruct (existsb (String.eqb st) validStatuses) eqn:Hvalid; cbn [negb].
  2:{ apply triple_ret. intros s Hs. exact Hs. }
  apply valid_status_In in Hvalid.
  eapply triple_bind.
  { eapply triple_conseq; [apply (triple_query d ef)| | | |].
    - intros s H; exact H.
    - intros a s H; exact H.
    - intros r s H; exact H.
    - intros s H. left. exact H. }
  intros rows. apply triple_pure. intros ->.
  destruct (payment_rows req_user bookingId d) as [|[booking user] rest] eqn:Hrows.
  { apply triple_ret. intros s Hs. exact Hs. }
  destruct (payment_forbidden booking user) eqn:Hforb.
  { apply triple_ret. intros s Hs. exact Hs. }
  assert (Hperm : payment_permitted req_user bookingId d = true)
    by (unfold payment_permitted; rewrite Hrows, Hforb; reflexivity).
  eapply triple_bind.
  { eapply triple_conseq; [apply (triple_autocommit d ef)| | | |].
    - intros s H; exact H.
    - intros a s H; exact H.
    - intros r s H; exact H.
    - intros s H. left. exact H. }
  intros ?. apply triple_exists. intros d'. apply triple_pure. intros E.
  unfold update_payment in E. destruct (enum_ok st) eqn:Henum; [|discriminate].
  apply some_eq in E. injection E as E. subst d'.
  assert (Happ : forall s, Closed (after_payment st bookingId d) ef s ->
                           applied s)
    by (intros s Hs; repeat split; try assumption; apply Hs).
  eapply triple_bind.
  { eapply triple_conseq;
      [apply (triple_query (after_payment st bookingId d) ef)| | | |].
    - intros s Hs; exact Hs.
    - intros x s Hs; exact Hs.
    - intros r s Hs; exact Hs.
    - intros s Hs. right. apply Happ, Hs. }
  intros rows. apply triple_pure. intros ->.
  apply triple_ret. intros s Hs.
  unfold Qv, PaymentSettled. cbv zeta. fold st.
  split; [|split; reflexivity].
  repeat split; try assumption; apply Hs.
Qed.

(** With no statement throwing, and with the third statement throwing. *)
Lemma updatePaymentStatus_run fs :
  truthy body_payment_status = true ->
  In st validStatuses ->
  enum_ok st = true ->
  payment_permitted req_user bookingId d = true ->
  updatePaymentStatus enum_ok req_user bookingId body_payment_status
                      (mkSession d None [] ef)
  = (Val (PaymentUpdated
            (hd_error (filter (fun b => (booking_id b =? bookingId)%string)
                              (bookings (after_payment st bookingId d))))
            (st =? "paid")%string),
     mkSession (after_payment st bookingId d) None [] ef)
  /\ updatePaymentStatus enum_ok req_user bookingId body_payment_status
                         (mkSession d None (false :: false :: true :: fs) ef)
     = (Val PaymentError, mkSession (after_payment st bookingId d) None fs ef).
Proof.
  intros Hst Hvalid Henum Hperm.
  assert (Hex : existsb (String.eqb st) validStatuses = true).
  { apply existsb_exists. exists st. split; [exact Hvalid|].
    apply String.eqb_refl. }
  unfold payment_permitted in Hperm.
  unfold updatePaymentStatus, try_catch. rewrite Hst. cbn [negb]. cbv zeta.
  fold st. rewrite Hex. cbn [negb].
  unfold bind, select, statement, update_payment, current, with_current.
  cbn [faults tx visible effects tl].
  destruct (payment_rows req_user bookingId d) as [|[booking user] rest];
    [discriminate|].
  apply negb_true_iff in Hperm. rewrite Hperm, Henum.
  cbn [faults tx visible effects tl]. split; reflexivity.
Qed.

End PaymentRoute.

(** X21.  The payment-status route writes for permitted callers only, and
    always answers.  Whichever statements throw, the handler completes with
    a reply; the tables are either untouched, or the caller was permitted
    (same tenant as the booking, or a solution owner), the status is one of
    the five the handler lists, and exactly the [payment_status] of the
    booking asked for was written; a 200 is given only in the second
    case. *)
Theorem updatePaymentStatus_writes_for_permitted_callers_only :
  forall (enum_ok : string -> bool) (u : option uuid) (bid : uuid)
         (body_status : option string) (fs : list bool) (ef : list Effect)
         (d : DB),
    let out := updatePaymentStatus enum_ok u bid body_status
                                   (mkSession d None fs ef) in
    let st := string_of body_status in
    (exists r, fst out = Val r)
    /\ tx (snd out) = None /\ effects (snd out) = ef
    /\ (visible (snd out) = d
        \/ (payment_permitted u bid d = true /\ In st validStatuses
            /\ visible (snd out) = after_payment st bid d))
    /\ (forall bk msg,
           fst out = Val (PaymentUpdated bk msg) ->
           payment_permitted u bid d = true
           /\ visible (snd out) = after_payment st bid d
           /\ (forall b, bk = Some b ->
                         booking_id b = bid /\ payment_status b = st)).
Proof.
  intros enum_ok u bid body_status fs ef d out st. subst out.
  pose proof (updatePaymentStatus_settles enum_ok u bid body_status d ef
                (mkSession d None fs ef)
                (conj eq_refl (conj eq_refl eq_refl))) as H.
  destruct (updatePaymentStatus enum_ok u bid body_status
                                (mkSession d None fs ef)) as [[r|r|] s'];
    simpl in H; try contradiction.
  cbn [fst snd]. split; [exists r; reflexivity|].
  unfold PaymentSettled in H. cbv zeta in H. fold st in H.
  assert (Happ :
    (truthy body_status = true /\ In st validStatuses /\ enum_ok st = true
     /\ payment_permitted u bid d = true
     /\ Closed (after_payment st bid d) ef s') ->
    tx s' = None /\ effects s' = ef
    /\ (visible s' = d
        \/ (payment_permitted u bid d = true /\ In st validStatuses
            /\ visible s' = after_payment st bid d))).
  { intros (_ & Hv & _ & Hp & Hc & Ht & He). auto 6. }
  assert (Hnone : Closed d ef s' ->
    tx s' = None /\ effects s' = ef
    /\ (visible s' = d
        \/ (payment_permitted u bid d = true /\ In st validStatuses
            /\ visible s' = after_payment st bid d))).
  { intros (Hc & Ht & He). auto. }
  destruct r as [| | | |bk msg|];
    try (destruct (Hnone H) as (Ht & He & Hv);
         split; [exact Ht|]; split; [exact He|]; split; [exact Hv|];
         intros ? ? E; discriminate E).
  - destruct H as (Ha & Hbk & Hmsg).
    destruct (Happ Ha) as (Ht & He & Hv).
    split; [exact Ht|]. split; [exact He|]. split; [exact Hv|].
    intros bk' msg' E. injection E as <- <-.
    destruct Ha as (_ & _ & _ & Hp & Hc & _).
    split; [exact Hp|]. split; [exact Hc|].
    intros b Hb. rewrite Hbk in Hb.
    unfold after_payment in Hb. cbn [bookings set_bookings] in Hb.
    destruct (filter _ _) as [|x l] eqn:Ef; [discriminate|].
    injection Hb as ->.
    assert (Hin : In b (b :: l)) by (left; reflexivity).
    rewrite <- Ef in Hin. apply filter_In in Hin as [Hin Hid].
    apply String.eqb_eq in Hid. split; [exact Hid|].
    apply in_map_iff in Hin as (b0 & Hb0 & _).
    destruct (booking_id b0 =? bid)%string eqn:E0.
    + subst b. reflexivity.
    + subst b. apply String.eqb_neq in E0. contradiction.
  - destruct H as [H|H];
      [destruct (Hnone H) as (Ht & He & Hv)|destruct (Happ H) as (Ht & He & Hv)];
      (split; [exact Ht|]; split; [exact He|]; split; [exact Hv|];
       intros ? ? E; discriminate E).
Qed.

(** X21 on the sample tables: cashier [u1] of tenant [t1] marks booking
    [bk1] of that tenant as refunded. *)
Lemma updatePaymentStatus_writes_for_permitted_callers_only_witness :
  payment_permitted (Some "u1"%string) "bk1"%string Sample.db = true
  /\ visible (snd (updatePaymentStatus enum_as_validated (Some "u1"%string)
                     "bk1"%string (Some "refunded"%string) (idle Sample.db)))
     = after_payment "refunded"%string "bk1"%string Sample.db.
Proof.
  destruct (proj2 (proj2 (proj2 (proj2
              (updatePaymentStatus_writes_for_permitted_callers_only
                 enum_as_validated (Some "u1"%string) "bk1"%string
                 (Some "refunded"%string) [] [] Sample.db))))
              _ _ eq_refl) as (Hp & Hv & _).
  split; [exact Hp|exact Hv].
Defined.

(** X22.  The payment-status route is not transactional: its [UPDATE]
    takes effect at once.  For a permitted caller and a status that the
    handler and the column accept, the request with no statement throwing
    is answered 200 with the updated row; when the read-back [SELECT] that
    follows the [UPDATE] throws, the request is answered 500 although the
    new [payment_status] is already committed. *)
Theorem updatePaymentStatus_may_fail_after_writing :
  forall (enum_ok : string -> bool) (u : option uuid) (bid : uuid)
         (body_status : option string) (fs : list bool) (ef : list Effect)
         (d : DB),
    let st := string_of body_status in
    truthy body_status = true ->
    In st validStatuses ->
    enum_ok st = true ->
    payment_permitted u bid d = true ->
    updatePaymentStatus enum_ok u bid body_status (mkSession d None [] ef)
    = (Val (PaymentUpdated
              (hd_error (filter (fun b => (booking_id b =? bid)%string)
                                (bookings (after_payment st bid d))))
              (st =? "paid")%string),
       mkSession (after_payment st bid d) None [] ef)
    /\ updatePaymentStatus enum_ok u bid body_status
                           (mkSession d None (false :: false :: true :: fs) ef)
       = (Val PaymentError, mkSession (after_payment st bid d) None fs ef)
    /\ payment_status_code PaymentError = 500.
Proof.
  intros enum_ok u bid body_status fs ef d st Hst Hvalid Henum Hperm.
  destruct (updatePaymentStatus_run enum_ok u bid body_status d ef fs
              Hst Hvalid Henum Hperm) as [H1 H2].
  split; [exact H1|]. split; [exact H2|reflexivity].
Qed.

(** X22 on the sample tables: the read-back fails, the reply is the 500,
    and booking [bk1] is nevertheless marked refunded. *)
Lemma updatePaymentStatus_may_fail_after_writing_witness :
  let out := updatePaymentStatus enum_as_validated (Some "u1"%string)
               "bk1"%string (Some "refunded"%string)
               (mkSession Sample.db None [false; false; true] []) in
  fst out = Val PaymentError
  /\ map payment_status (bookings (visible (snd out))) = ["refunded"%string].
Proof.
  intros out. subst out.
  assert (Hin : In (string_of (Some "refunded"%string)) validStatuses)
    by (simpl; tauto).
  destruct (updatePaymentStatus_may_fail_after_writing enum_as_validated
              (Some "u1"%string) "bk1"%string (Some "refunded"%string)
              [] [] Sample.db eq_refl Hin eq_refl eq_refl) as (_ & H & _).
  rewrite H. split; reflexivity.
Defined.
